(** * Insight Weaver: a shallow embedding of the curation core

    The development follows the worker sources:
    - [services/database.ts]   (class DatabaseService),
    - [services/ai.ts]         (class AIService),
    - [services/feedFetcher.ts] (class FeedFetcher),
    - [services/vectorSearch.ts] (class VectorSearchService),
    - [routes/workspace.ts], [routes/reports.ts] (the reorder and export
      handlers),
    - [schema.sql] (tables, keys, cascades, triggers).

    Conventions.
    - A JavaScript string is a sequence of UTF-16 code units.  The model
      covers the code units below 256 (Latin-1): a text is a [string] of
      [ascii].  On that range [toLowerCase] and the [\s] class act one
      character at a time, as defined below.
    - A JavaScript number that holds a length, an index or a count is a
      [Z]; a number that results from [/], [*] by a fraction or [+] of a
      fraction is an IEEE-754 binary64 value, modelled by [spec_float]
      with [prec = 53] and [emax = 1024].
    - The D1 database is a record of tables; a table is the list of its
      rows in insertion order.  Statements are total functions on that
      record, INSERT returns an exception when a key constraint of the
      schema is violated.
    - What the platform decides (feed documents, the AI binding, dates,
      random ids, the clock) is an explicit argument. *)

From Stdlib Require Import ZArith List Bool Ascii String Lia SpecFloat.
From Stdlib Require Import Sorting.Sorted Sorting.Permutation.
From Stdlib Require DecimalString DecimalPos.
From stdpp Require Import base decidable option list gmap strings.
Import ListNotations.

Local Open Scope string_scope.
Local Open Scope Z_scope.

(** ** JavaScript strings *)

Module JS.

(** [s.length] *)
Definition length (s : string) : Z := Z.of_nat (String.length s).

(** [s.substring(0, n)]: a negative [n] counts as 0, an [n] beyond the
    end as the length. *)
Definition substring0 (n : Z) (s : string) : string :=
  String.substring 0 (Z.to_nat n) s.

(** [s.lastIndexOf(c)] for a one-character pattern, [-1] when absent.
    [lastIndexOf_from c i s] scans [s], whose first character has index
    [i] (from 0 on, so that [-1] can only mean absence). *)
Fixpoint lastIndexOf_from (c : ascii) (i : Z) (s : string) : Z :=
  match s with
  | EmptyString => -1
  | String d r =>
      let later := lastIndexOf_from c (i + 1) r in
      if 0 <=? later then later
      else if Ascii.eqb d c then i else -1
  end.

Definition lastIndexOf (c : ascii) (s : string) : Z :=
  lastIndexOf_from c 0 s.

(** [s.includes(q)] *)
Fixpoint includes (s q : string) : bool :=
  String.prefix q s
  || match s with
     | EmptyString => false
     | String _ r => includes r q
     end.

(** [toLowerCase] on one Latin-1 code unit: A-Z, and U+00C0-U+00DE
    without the multiplication sign U+00D7, move up by 32. *)
Definition lower_char (c : ascii) : ascii :=
  let n := nat_of_ascii c in
  if ((65 <=? n) && (n <=? 90))%nat then ascii_of_nat (n + 32)
  else if ((192 <=? n) && (n <=? 222) && negb (n =? 215))%nat
       then ascii_of_nat (n + 32)
  else c.

Fixpoint toLowerCase (s : string) : string :=
  match s with
  | EmptyString => EmptyString
  | String c r => String (lower_char c) (toLowerCase r)
  end.

(** The class [\s] below 256: TAB, LF, VT, FF, CR, SPACE, NBSP. *)
Definition is_space (c : ascii) : bool :=
  let n := nat_of_ascii c in
  ((9 <=? n) && (n <=? 13) || (n =? 32) || (n =? 160))%nat.

(** [s.split(/\s+/)].  [split_ws cur in_sep s]: [cur] is the word read
    so far, [in_sep] says that the previous character was a
    separator.  An empty input gives one empty word; a leading or a
    trailing separator gives an empty first or last word. *)
Fixpoint split_ws (cur : string) (in_sep : bool) (s : string) : list string :=
  match s with
  | EmptyString => [cur]
  | String c r =>
      if is_space c then
        if in_sep then split_ws cur true r
        else cur :: split_ws EmptyString true r
      else split_ws (cur +:+ String c EmptyString) false r
  end.

Definition split_whitespace (s : string) : list string :=
  split_ws EmptyString false s.

(** [new Set(xs)]: the distinct elements in first-insertion order;
    [.size] is its length, [.has] is membership. *)
Fixpoint Set_of (xs : list string) : list string :=
  match xs with
  | [] => []
  | x :: r =>
      let rest := Set_of r in
      x :: List.filter (fun y => negb (String.eqb x y)) rest
  end.

Definition has (st : list string) (x : string) : bool :=
  existsb (String.eqb x) st.

Definition size (st : list string) : Z := Z.of_nat (List.length st).

(** [xs.slice(0, n)]: a negative [n] counts from the end. *)
Definition slice0 {A} (n : Z) (xs : list A) : list A :=
  if n <? 0 then take (Z.to_nat (Z.of_nat (List.length xs) + n)) xs
  else take (Z.to_nat n) xs.

End JS.

(** ** JavaScript numbers that are not integers: binary64 *)

Module F64.

Definition prec : Z := 53.
Definition emax : Z := 1024.

Definition number := spec_float.

(** The number that holds the integer [z]. *)
Definition of_Z (z : Z) : number := binary_normalize prec emax z 0 false.

Definition add : number -> number -> number := SFadd prec emax.
Definition sub : number -> number -> number := SFsub prec emax.
Definition mul : number -> number -> number := SFmul prec emax.
Definition div : number -> number -> number := SFdiv prec emax.

(** [x < y] and [x > y] *)
Definition lt (x y : number) : bool := SFltb x y.
Definition gt (x y : number) : bool := SFltb y x.

(** Decimal literals denote the nearest binary64 value, which is what
    the correctly rounded quotient of the two integers gives. *)
Definition c0_7 : number := div (of_Z 7) (of_Z 10).
Definition c0_5 : number := div (of_Z 1) (of_Z 2).
Definition c0_3 : number := div (of_Z 3) (of_Z 10).
Definition c0_1 : number := div (of_Z 1) (of_Z 10).
Definition c1_0 : number := of_Z 1.
Definition zero : number := of_Z 0.

(** [Math.min(x, y)]: NaN when an argument is NaN, and [-0] below [+0]. *)
Definition Math_min (x y : number) : number :=
  match SFcompare x y with
  | None => S754_nan
  | Some Lt => x
  | Some Gt => y
  | Some Eq => match x with S754_zero true => x | _ => y end
  end.

End F64.

(** ** Exceptions and sorting *)

(** A call that may throw: [Throw msg] stands for [throw new Error(msg)]
    or for a statement rejected by the database. *)
Inductive result (A : Type) : Type :=
  | Ok (a : A)
  | Throw (msg : string).
Arguments Ok {A} a.
Arguments Throw {A} msg.

(** A stable sort: [before x y] says that [x] may stay in front of [y].
    It is the order of [Array.prototype.sort] (stable since ES2019) and
    the order chosen here for [ORDER BY] among rows with equal keys. *)
Fixpoint insert_by {A} (before : A -> A -> bool) (x : A) (l : list A) : list A :=
  match l with
  | [] => [x]
  | y :: r => if before x y then x :: y :: r else y :: insert_by before x r
  end.

Fixpoint sort_by {A} (before : A -> A -> bool) (l : list A) : list A :=
  match l with
  | [] => []
  | x :: r => insert_by before x (sort_by before r)
  end.

(** [x || undefined] on an optional text: the empty text is falsy. *)
Definition truthy (o : option string) : option string :=
  match o with
  | Some s => if String.eqb s "" then None else Some s
  | None => None
  end.

(** ** Rows of schema.sql and the API types of types.ts *)

Module RSSFeedRow.
Record t := mk {
  id : string; name : string; url : string; category : string;
  is_active : bool; last_fetched : option string;
  created_at : string; updated_at : string }.
End RSSFeedRow.

Module ArticleRow.
Record t := mk {
  id : string; feed_id : string; title : string; content : string;
  snippet : string; author : option string; published_at : string;
  url : string; is_read : bool; is_archived : bool;
  created_at : string; updated_at : string;
  category : option string; summary : option string;
  analysis : option string }.
End ArticleRow.

Module WorkspaceItemRow.
Record t := mk {
  id : string; article_id : string; order_index : Z;
  custom_content : option string; custom_analysis : option string;
  is_edited : bool; created_at : string; updated_at : string }.
End WorkspaceItemRow.

Module ReportRow.
Record t := mk {
  id : string; title : string; description : option string;
  status : string; created_at : string; updated_at : string }.
End ReportRow.

Module ReportItemRow.
Record t := mk {
  id : string; report_id : string; workspace_item_id : string;
  order_index : Z; created_at : string }.
End ReportItemRow.

Module RSSFeed.
Record t := mk {
  id : string; name : string; url : string; category : string;
  isActive : bool; lastFetched : option string;
  createdAt : string; updatedAt : string }.
End RSSFeed.

Module Article.
Record t := mk {
  id : string; feedId : string; title : string; content : string;
  snippet : string; author : option string; publishedAt : string;
  url : string; isRead : bool; isArchived : bool;
  createdAt : string; updatedAt : string;
  category : option string; summary : option string;
  analysis : option string }.
End Article.

(** [Omit<Article, 'id' | 'createdAt' | 'updatedAt'>] *)
Module NewArticle.
Record t := mk {
  feedId : string; title : string; content : string;
  snippet : string; author : option string; publishedAt : string;
  url : string; isRead : bool; isArchived : bool;
  category : option string; summary : option string;
  analysis : option string }.
End NewArticle.

Module WorkspaceItem.
Record t := mk {
  id : string; articleId : string; order : Z;
  customContent : option string; customAnalysis : option string;
  isEdited : bool; createdAt : string; updatedAt : string }.
End WorkspaceItem.

(** [Partial<WorkspaceItem>] as the PATCH route builds it: the two text
    keys, each present or absent. *)
Module WorkspaceItemPatch.
Record t := mk {
  customContent : option string; customAnalysis : option string }.
End WorkspaceItemPatch.

Module RSSItem.
Record t := mk {
  title : option string; link : option string;
  content : option string; contentSnippet : option string;
  author : option string; pubDate : option string;
  guid : option string }.
End RSSItem.

(** ** The D1 database *)

Record D1 := mkD1 {
  rss_feeds : list RSSFeedRow.t;
  articles : list ArticleRow.t;
  workspace_items : list WorkspaceItemRow.t;
  reports : list ReportRow.t;
  report_items : list ReportItemRow.t;
  settings : gmap string string }.

(** What one request reads from the platform: [randomUUID k] is the
    [k]-th value of [crypto.randomUUID()], [now] the value of
    [new Date().toISOString()], [datetime_now] the value of SQLite's
    [datetime('now')] that the update triggers store. *)
Record Call := mkCall {
  randomUUID : nat -> string;
  now : string;
  datetime_now : string }.

Definition set_articles (db : D1) (l : list ArticleRow.t) : D1 :=
  mkD1 (rss_feeds db) l (workspace_items db) (reports db)
       (report_items db) (settings db).

Definition set_rss_feeds (db : D1) (l : list RSSFeedRow.t) : D1 :=
  mkD1 l (articles db) (workspace_items db) (reports db)
       (report_items db) (settings db).

Definition set_workspace_items (db : D1) (l : list WorkspaceItemRow.t) : D1 :=
  mkD1 (rss_feeds db) (articles db) l (reports db)
       (report_items db) (settings db).

Definition set_report_items (db : D1) (l : list ReportItemRow.t) : D1 :=
  mkD1 (rss_feeds db) (articles db) (workspace_items db) (reports db)
       l (settings db).

(** [DELETE FROM articles WHERE dead] with the [ON DELETE CASCADE] keys
    of the schema: the workspace items of a deleted article go, and the
    report items of a deleted workspace item go. *)
Definition delete_articles (dead : ArticleRow.t -> bool) (db : D1) : D1 :=
  let gone := List.filter dead (articles db) in
  let w_dead w :=
    existsb (fun a => String.eqb (ArticleRow.id a)
                        (WorkspaceItemRow.article_id w)) gone in
  let w_gone := List.filter w_dead (workspace_items db) in
  let ri_dead ri :=
    existsb (fun w => String.eqb (WorkspaceItemRow.id w)
                        (ReportItemRow.workspace_item_id ri)) w_gone in
  mkD1 (rss_feeds db)
       (List.filter (fun a => negb (dead a)) (articles db))
       (List.filter (fun w => negb (w_dead w)) (workspace_items db))
       (reports db)
       (List.filter (fun ri => negb (ri_dead ri)) (report_items db))
       (settings db).

(** ** services/database.ts *)

Module DatabaseService.

Definition mapRSSFeedRow (row : RSSFeedRow.t) : RSSFeed.t :=
  RSSFeed.mk (RSSFeedRow.id row) (RSSFeedRow.name row) (RSSFeedRow.url row)
    (RSSFeedRow.category row) (RSSFeedRow.is_active row)
    (truthy (RSSFeedRow.last_fetched row))
    (RSSFeedRow.created_at row) (RSSFeedRow.updated_at row).

Definition mapArticleRow (row : ArticleRow.t) : Article.t :=
  Article.mk (ArticleRow.id row) (ArticleRow.feed_id row)
    (ArticleRow.title row) (ArticleRow.content row) (ArticleRow.snippet row)
    (truthy (ArticleRow.author row)) (ArticleRow.published_at row)
    (ArticleRow.url row) (ArticleRow.is_read row) (ArticleRow.is_archived row)
    (ArticleRow.created_at row) (ArticleRow.updated_at row)
    (truthy (ArticleRow.category row)) (truthy (ArticleRow.summary row))
    (truthy (ArticleRow.analysis row)).

Definition mapWorkspaceItemRow (row : WorkspaceItemRow.t) : WorkspaceItem.t :=
  WorkspaceItem.mk (WorkspaceItemRow.id row) (WorkspaceItemRow.article_id row)
    (WorkspaceItemRow.order_index row)
    (truthy (WorkspaceItemRow.custom_content row))
    (truthy (WorkspaceItemRow.custom_analysis row))
    (WorkspaceItemRow.is_edited row)
    (WorkspaceItemRow.created_at row) (WorkspaceItemRow.updated_at row).

(** [SELECT * FROM rss_feeds ORDER BY name ASC] *)
Definition getRSSFeeds (db : D1) : list RSSFeed.t :=
  map mapRSSFeedRow
    (sort_by (fun x y => String.leb (RSSFeedRow.name x) (RSSFeedRow.name y))
             (rss_feeds db)).

(** [SELECT * FROM rss_feeds WHERE id = ?] with [.first()] *)
Definition getRSSFeed (db : D1) (id : string) : option RSSFeed.t :=
  option_map mapRSSFeedRow
    (List.find (fun r => String.eqb (RSSFeedRow.id r) id) (rss_feeds db)).

(** [updateRSSFeed(id, { lastFetched })], the one patch the fetcher
    sends: [UPDATE rss_feeds SET last_fetched = ? WHERE id = ?], after
    which the trigger of the table stamps [updated_at]. *)
Definition updateRSSFeed (c : Call) (db : D1) (id : string)
    (lastFetched : string) : option RSSFeed.t * D1 :=
  match getRSSFeed db id with
  | None => (None, db)
  | Some _ =>
      let db' :=
        set_rss_feeds db
          (map (fun r =>
                  if String.eqb (RSSFeedRow.id r) id then
                    RSSFeedRow.mk (RSSFeedRow.id r) (RSSFeedRow.name r)
                      (RSSFeedRow.url r) (RSSFeedRow.category r)
                      (RSSFeedRow.is_active r) (Some lastFetched)
                      (RSSFeedRow.created_at r) (datetime_now c)
                  else r)
               (rss_feeds db)) in
      (getRSSFeed db' id, db')
  end.

(** [SELECT ... WHERE is_archived = 0 ORDER BY published_at DESC],
    with [LIMIT ?] when [options.limit] is truthy; a negative LIMIT
    is no limit in SQLite.  [getArticles({ limit })] is the one shape
    of options that the search sends. *)
Definition getArticles (db : D1) (limit : Z) : list Article.t :=
  let rows :=
    sort_by (fun x y => String.leb (ArticleRow.published_at y)
                                   (ArticleRow.published_at x))
            (List.filter (fun a => negb (ArticleRow.is_archived a))
                         (articles db)) in
  let page :=
    if limit =? 0 then rows
    else if limit <? 0 then rows
    else take (Z.to_nat limit) rows in
  map mapArticleRow page.

(** [SELECT * FROM articles WHERE id = ?] *)
Definition getArticle (db : D1) (id : string) : option Article.t :=
  option_map mapArticleRow
    (List.find (fun r => String.eqb (ArticleRow.id r) id) (articles db)).

(** [INSERT INTO articles ...]: the statement is rejected when the
    primary key [id] or the UNIQUE [url] is taken, or when [feed_id]
    references no feed. *)
Definition createArticle (c : Call) (k : nat) (db : D1)
    (article : NewArticle.t) : result (Article.t * D1) :=
  let id := randomUUID c k in
  let now := now c in
  if existsb (fun r => String.eqb (ArticleRow.id r) id) (articles db)
  then Throw "UNIQUE constraint failed: articles.id"
  else if existsb (fun r => String.eqb (ArticleRow.url r)
                              (NewArticle.url article)) (articles db)
  then Throw "UNIQUE constraint failed: articles.url"
  else if negb (existsb (fun f => String.eqb (RSSFeedRow.id f)
                                    (NewArticle.feedId article))
                        (rss_feeds db))
  then Throw "FOREIGN KEY constraint failed"
  else
    let row :=
      ArticleRow.mk id (NewArticle.feedId article)
        (NewArticle.title article) (NewArticle.content article)
        (NewArticle.snippet article) (truthy (NewArticle.author article))
        (NewArticle.publishedAt article) (NewArticle.url article)
        (NewArticle.isRead article) (NewArticle.isArchived article)
        now now
        (truthy (NewArticle.category article))
        (truthy (NewArticle.summary article))
        (truthy (NewArticle.analysis article)) in
    Ok (Article.mk id (NewArticle.feedId article)
          (NewArticle.title article) (NewArticle.content article)
          (NewArticle.snippet article) (NewArticle.author article)
          (NewArticle.publishedAt article) (NewArticle.url article)
          (NewArticle.isRead article) (NewArticle.isArchived article)
          now now
          (NewArticle.category article) (NewArticle.summary article)
          (NewArticle.analysis article),
        set_articles db (articles db ++ [row])).

(** [SELECT * FROM workspace_items ORDER BY order_index ASC] *)
Definition getWorkspaceItems (db : D1) : list WorkspaceItem.t :=
  map mapWorkspaceItemRow
    (sort_by (fun x y => WorkspaceItemRow.order_index x
                         <=? WorkspaceItemRow.order_index y)
             (workspace_items db)).

(** [MAX(order_index)]: NULL on the empty table. *)
Definition sql_max (xs : list Z) : option Z :=
  match xs with
  | [] => None
  | x :: r => Some (fold_left Z.max r x)
  end.

(** [SELECT COALESCE(MAX(order_index), -1) + 1 as next_order] *)
Definition next_order (db : D1) : Z :=
  match sql_max (map WorkspaceItemRow.order_index (workspace_items db)) with
  | None => -1
  | Some m => m
  end + 1.

(** [addToWorkspace]: [orderIndex = maxOrderResult?.next_order || 0];
    the INSERT is rejected when the primary key is taken or the
    article is absent. *)
Definition addToWorkspace (c : Call) (db : D1) (articleId : string)
    : result (WorkspaceItem.t * D1) :=
  let id := randomUUID c 0%nat in
  let now := now c in
  let next := next_order db in
  let orderIndex := if next =? 0 then 0 else next in
  if existsb (fun r => String.eqb (WorkspaceItemRow.id r) id)
             (workspace_items db)
  then Throw "UNIQUE constraint failed: workspace_items.id"
  else if negb (existsb (fun a => String.eqb (ArticleRow.id a) articleId)
                        (articles db))
  then Throw "FOREIGN KEY constraint failed"
  else
    let row := WorkspaceItemRow.mk id articleId orderIndex None None
                 false now now in
    Ok (WorkspaceItem.mk id articleId orderIndex None None false now now,
        set_workspace_items db (workspace_items db ++ [row])).

(** The UPDATE that [updateWorkspaceItem] assembles, on one row. *)
Definition patch_row (c : Call) (updates : WorkspaceItemPatch.t)
    (r : WorkspaceItemRow.t) : WorkspaceItemRow.t :=
  let r1 :=
    match WorkspaceItemPatch.customContent updates with
    | Some v =>
        WorkspaceItemRow.mk (WorkspaceItemRow.id r)
          (WorkspaceItemRow.article_id r) (WorkspaceItemRow.order_index r)
          (Some v) (WorkspaceItemRow.custom_analysis r) true
          (WorkspaceItemRow.created_at r) (WorkspaceItemRow.updated_at r)
    | None => r
    end in
  let r2 :=
    match WorkspaceItemPatch.customAnalysis updates with
    | Some v =>
        WorkspaceItemRow.mk (WorkspaceItemRow.id r1)
          (WorkspaceItemRow.article_id r1) (WorkspaceItemRow.order_index r1)
          (WorkspaceItemRow.custom_content r1) (Some v) true
          (WorkspaceItemRow.created_at r1) (WorkspaceItemRow.updated_at r1)
    | None => r1
    end in
  WorkspaceItemRow.mk (WorkspaceItemRow.id r2)
    (WorkspaceItemRow.article_id r2) (WorkspaceItemRow.order_index r2)
    (WorkspaceItemRow.custom_content r2) (WorkspaceItemRow.custom_analysis r2)
    (WorkspaceItemRow.is_edited r2)
    (WorkspaceItemRow.created_at r2) (datetime_now c).

Definition find_workspace_item (db : D1) (id : string)
    : option WorkspaceItemRow.t :=
  List.find (fun r => String.eqb (WorkspaceItemRow.id r) id)
            (workspace_items db).

(** [updateWorkspaceItem(id, updates)]: [null] for an unknown id; the
    unchanged item when no key is present; otherwise one UPDATE of the
    present keys with [is_edited = 1], and the row read back. *)
Definition updateWorkspaceItem (c : Call) (db : D1) (id : string)
    (updates : WorkspaceItemPatch.t) : option WorkspaceItem.t * D1 :=
  match find_workspace_item db id with
  | None => (None, db)
  | Some existing =>
      match WorkspaceItemPatch.customContent updates,
            WorkspaceItemPatch.customAnalysis updates with
      | None, None => (Some (mapWorkspaceItemRow existing), db)
      | _, _ =>
          let db' :=
            set_workspace_items db
              (map (fun r => if String.eqb (WorkspaceItemRow.id r) id
                             then patch_row c updates r else r)
                   (workspace_items db)) in
          (option_map mapWorkspaceItemRow (find_workspace_item db' id), db')
      end
  end.

End DatabaseService.

(** ** Text helpers of the standard library of JavaScript *)

Module Text.

Definition DQUOTE : string := String (ascii_of_nat 34) EmptyString.
Definition LF : ascii := ascii_of_nat 10.

Fixpoint drop_spaces (s : string) : string :=
  match s with
  | EmptyString => EmptyString
  | String c r => if JS.is_space c then drop_spaces r else s
  end.

Fixpoint rev_onto (s acc : string) : string :=
  match s with
  | EmptyString => acc
  | String c r => rev_onto r (String c acc)
  end.

Definition rev (s : string) : string := rev_onto s EmptyString.

(** [s.trim()] *)
Definition trim (s : string) : string :=
  rev (drop_spaces (rev (drop_spaces s))).

Fixpoint has_char (c : ascii) (s : string) : bool :=
  match s with
  | EmptyString => false
  | String d r => Ascii.eqb d c || has_char c r
  end.

(** [s.replace(/<[^>]*>/g, '')]: a [<] opens a match when a [>]
    follows somewhere, and the match ends at the first such [>]. *)
Fixpoint strip_tags (in_tag : bool) (s : string) : string :=
  match s with
  | EmptyString => EmptyString
  | String c r =>
      if in_tag then
        if Ascii.eqb c ">" then strip_tags false r else strip_tags true r
      else if Ascii.eqb c "<" && has_char ">" r then strip_tags true r
      else String c (strip_tags false r)
  end.

(** [s.replace(/pat/g, rep)] for a literal, non-empty [pat]; [skip]
    counts the characters of a match still to be passed over. *)
Fixpoint replace_from (pat rep : string) (skip : nat) (s : string) : string :=
  match s with
  | EmptyString => EmptyString
  | String c r =>
      match skip with
      | S k => replace_from pat rep k r
      | O =>
          if String.prefix pat s
          then rep +:+ replace_from pat rep (String.length pat - 1)%nat r
          else String c (replace_from pat rep O r)
      end
  end.

Definition replaceAll (pat rep s : string) : string :=
  replace_from pat rep O s.

(** [s.replace(/\s+/g, ' ')] *)
Fixpoint collapse_spaces (in_run : bool) (s : string) : string :=
  match s with
  | EmptyString => EmptyString
  | String c r =>
      if JS.is_space c then
        if in_run then collapse_spaces true r
        else String " " (collapse_spaces true r)
      else String c (collapse_spaces false r)
  end.

(** Leading [StrWhiteSpaceChar]s, a sign, then decimal digits:
    [parseInt(s, 10)], [None] for NaN. *)
Definition digit_of (c : ascii) : option Z :=
  let n := nat_of_ascii c in
  if ((48 <=? n) && (n <=? 57))%nat then Some (Z.of_nat n - 48) else None.

Fixpoint digits_from (acc : option Z) (s : string) : option Z :=
  match s with
  | EmptyString => acc
  | String c r =>
      match digit_of c with
      | Some d =>
          digits_from (Some (10 * match acc with Some a => a | None => 0 end + d)) r
      | None => acc
      end
  end.

Definition parseInt (s : string) : option Z :=
  match drop_spaces s with
  | String "-" r => option_map Z.opp (digits_from None r)
  | String "+" r => digits_from None r
  | t => digits_from None t
  end.

End Text.

(** ** The platform *)

(** The argument of [env.AI.run]. *)
Inductive AIInput :=
  | Chat (system user : string) (max_tokens : option Z)
         (temperature : F64.number)
  | Embed (text : string).

(** What [env.AI.run] gives: a rejection, an object with a [response]
    text, an object with a [data] array, or anything else. *)
Inductive AIResponse :=
  | AI_rejects (msg : string)
  | AI_response (response : string)
  | AI_data (data : list (list F64.number))
  | AI_other.

(** The bindings and built-ins that the model does not look into:
    [parseURL] is rss-parser's [parseURL] ([parsedFeed.items || []] on
    success), [toISOString s] is [new Date(s).toISOString()] ([None]
    when it throws RangeError), [AI_run] is [env.AI.run], [parseFloat]
    the built-in of that name. *)
Record Platform := mkPlatform {
  parseURL : string -> result (list RSSItem.t);
  toISOString : string -> option string;
  AI_run : string -> AIInput -> AIResponse;
  parseFloat : string -> F64.number }.

(** ** services/ai.ts *)

Module AIService.

(** [lastX > maxLength * ratio] *)
Definition beyond (last maxLength : Z) (ratio : F64.number) : bool :=
  F64.gt (F64.of_Z last) (F64.mul (F64.of_Z maxLength) ratio).

Definition truncateText (text : string) (maxLength : Z) : string :=
  if JS.length text <=? maxLength then text
  else
    let truncated := JS.substring0 maxLength text in
    let lastSentence := JS.lastIndexOf "." truncated in
    let lastParagraph := JS.lastIndexOf Text.LF truncated in
    let lastSpace := JS.lastIndexOf " " truncated in
    if beyond lastSentence maxLength F64.c0_7 then
      JS.substring0 (lastSentence + 1) truncated
    else if beyond lastParagraph maxLength F64.c0_5 then
      JS.substring0 lastParagraph truncated
    else if lastSpace >? 0 then
      JS.substring0 lastSpace truncated
    else truncated.

Definition default_prompt : string :=
  "You are a factual, neutral geopolitical analyst. Your task is to summarize the following article. Extract only the key facts, policy statements, and strategic arguments. Avoid speculative language and journalistic flair. Present the summary as a series of bullet points. The summary must be concise and no more than 150 words.".

Definition getSystemPrompt (db : D1) : string :=
  match truthy (settings db !! "ai_system_prompt") with
  | Some v => v
  | None => default_prompt
  end.

Definition getMaxTokens (db : D1) : option Z :=
  match settings db !! "ai_max_tokens" with
  | Some v => Text.parseInt v
  | None => Some 150
  end.

Definition getTemperature (P : Platform) (db : D1) : F64.number :=
  match settings db !! "ai_temperature" with
  | Some v => parseFloat P v
  | None => F64.c0_3
  end.

(** The user message of [summarizeText]. *)
Definition summary_request (text : string) : string :=
  "Please summarize the following article:"
  +:+ String Text.LF (String Text.LF (truncateText text 2000)).

Definition summarizeText (P : Platform) (db : D1) (text : string)
    : result string :=
  let systemPrompt := getSystemPrompt db in
  let maxTokens := getMaxTokens db in
  let temperature := getTemperature P db in
  match AI_run P "@cf/meta/llama-3.1-8b-instruct"
          (Chat systemPrompt (summary_request text) maxTokens temperature) with
  | AI_response r => Ok (Text.trim r)
  | _ => Throw "Failed to generate AI summary"
  end.

Definition generateEmbedding (P : Platform) (text : string)
    : result (list F64.number) :=
  let truncatedText := truncateText text 1000 in
  match AI_run P "@cf/baai/bge-large-en-v1.5" (Embed truncatedText) with
  | AI_data (first :: _) => Ok first
  | _ => Throw "Failed to generate embedding"
  end.

End AIService.

(** ** services/feedFetcher.ts *)

Module FeedFetcher.

Record FetchResult := mkFetchResult {
  success : bool; articlesAdded : Z; error : option string }.

Definition cleanText (text : string) : string :=
  let t1 := Text.strip_tags false text in
  let t2 := Text.replaceAll "&nbsp;" " " t1 in
  let t3 := Text.replaceAll "&amp;" "&" t2 in
  let t4 := Text.replaceAll "&lt;" "<" t3 in
  let t5 := Text.replaceAll "&gt;" ">" t4 in
  let t6 := Text.replaceAll "&quot;" Text.DQUOTE t5 in
  let t7 := Text.replaceAll "&#39;" "'" t6 in
  Text.trim (Text.collapse_spaces false t7).

(** [a || b || ''] on optional texts *)
Definition or_else (a : option string) (b : string) : string :=
  match truthy a with Some s => s | None => b end.

Definition extractContent (item : RSSItem.t) : string :=
  let content :=
    or_else (RSSItem.content item) (or_else (RSSItem.contentSnippet item) "") in
  let content :=
    if String.eqb content "" then or_else (RSSItem.title item) content
    else content in
  cleanText content.

Definition createSnippet (item : RSSItem.t) (maxLength : Z) : string :=
  let content :=
    or_else (RSSItem.contentSnippet item)
      (or_else (RSSItem.content item) (or_else (RSSItem.title item) "")) in
  let cleaned := cleanText content in
  if JS.length cleaned <=? maxLength then cleaned
  else
    let truncated := JS.substring0 maxLength cleaned in
    let lastSentence := JS.lastIndexOf "." truncated in
    let lastSpace := JS.lastIndexOf " " truncated in
    if AIService.beyond lastSentence maxLength F64.c0_7 then
      JS.substring0 (lastSentence + 1) truncated
    else if lastSpace >? 0 then JS.substring0 lastSpace truncated +:+ "..."
    else truncated +:+ "...".

Definition parseDate (P : Platform) (c : Call) (dateString : option string)
    : string :=
  match truthy dateString with
  | None => now c
  | Some s => match toISOString P s with Some d => d | None => now c end
  end.

(** [parseInt(setting.value, 10)], 50 without the row; [None] is NaN. *)
Definition getMaxArticlesPerFeed (db : D1) : option Z :=
  match settings db !! "max_articles_per_feed" with
  | Some v => Text.parseInt v
  | None => Some 50
  end.

(** The ids that the inner SELECT of the clean-up keeps:
    [SELECT id FROM articles WHERE feed_id = ? ORDER BY published_at
    DESC LIMIT ?]. *)
Definition kept_ids (db : D1) (feedId : string) (maxArticles : Z)
    : list string :=
  let rows :=
    sort_by (fun x y => String.leb (ArticleRow.published_at y)
                                   (ArticleRow.published_at x))
            (List.filter (fun a => String.eqb (ArticleRow.feed_id a) feedId)
                         (articles db)) in
  map ArticleRow.id
      (if maxArticles <? 0 then rows else take (Z.to_nat maxArticles) rows).

(** [DELETE FROM articles WHERE feed_id = ? AND id NOT IN (...)].  With
    NaN for the LIMIT the statement is rejected, and the catch of
    [cleanupOldArticles] swallows the error. *)
Definition cleanupOldArticles (db : D1) (feedId : string)
    (maxArticles : option Z) : D1 :=
  match maxArticles with
  | None => db
  | Some n =>
      let keep := kept_ids db feedId n in
      delete_articles
        (fun a => String.eqb (ArticleRow.feed_id a) feedId
                  && negb (existsb (String.eqb (ArticleRow.id a)) keep))
        db
  end.

(** The state of the loop over [recentItems]: the database, the
    counter [articlesAdded], and the number of ids drawn so far. *)
Definition LoopState : Type := D1 * Z * nat.

(** One turn of [for (const item of recentItems)]. *)
Definition process_item (P : Platform) (c : Call) (feed : RSSFeed.t)
    (st : LoopState) (item : RSSItem.t) : LoopState :=
  let '(db, added, k) := st in
  match truthy (RSSItem.link item), truthy (RSSItem.title item) with
  | Some link, Some title =>
      if existsb (fun r => String.eqb (ArticleRow.url r) link) (articles db)
      then st
      else
        let article :=
          NewArticle.mk (RSSFeed.id feed) (cleanText title)
            (extractContent item) (createSnippet item 200)
            (truthy (RSSItem.author item))
            (parseDate P c (RSSItem.pubDate item))
            link false false (Some (RSSFeed.category feed)) None None in
        match DatabaseService.createArticle c k db article with
        | Ok (_, db') => (db', added + 1, S k)
        | Throw _ => (db, added, S k)
        end
  | _, _ => st
  end.

(** The whole loop, from no article added and no id drawn. *)
Definition ingest (P : Platform) (c : Call) (feed : RSSFeed.t)
    (recentItems : list RSSItem.t) (db : D1) : LoopState :=
  fold_left (process_item P c feed) recentItems (db, 0, O).

(** [items.slice(0, maxArticles)]; NaN counts as 0. *)
Definition recent (maxArticles : option Z) (items : list RSSItem.t)
    : list RSSItem.t :=
  match maxArticles with
  | Some n => JS.slice0 n items
  | None => []
  end.

Definition fetchFeed (P : Platform) (c : Call) (db : D1) (feedId : string)
    : FetchResult * D1 :=
  match DatabaseService.getRSSFeed db feedId with
  | Some feed =>
      if RSSFeed.isActive feed then
        match parseURL P (RSSFeed.url feed) with
        | Throw msg => (mkFetchResult false 0 (Some msg), db)
        | Ok items =>
            let maxArticles := getMaxArticlesPerFeed db in
            let recentItems := recent maxArticles items in
            let '(db1, articlesAdded, _) :=
              ingest P c feed recentItems db in
            let db2 := snd (DatabaseService.updateRSSFeed c db1 feedId (now c)) in
            let db3 := cleanupOldArticles db2 feedId maxArticles in
            (mkFetchResult true articlesAdded None, db3)
        end
      else (mkFetchResult false 0 (Some "Feed not found or inactive"), db)
  | None => (mkFetchResult false 0 (Some "Feed not found or inactive"), db)
  end.

End FeedFetcher.

(** ** services/vectorSearch.ts *)

Module VectorSearchService.

Record SearchResult := mkSearchResult {
  articleId : string; score : F64.number; title : string;
  snippet : string; category : option string; publishedAt : string }.

Definition calculateTextSimilarity (query : string) (article : Article.t)
    : F64.number :=
  let queryWords := JS.Set_of (JS.split_whitespace (JS.toLowerCase query)) in
  let articleText :=
    JS.toLowerCase (Article.title article +:+ " " +:+ Article.snippet article
                    +:+ " " +:+ Article.content article) in
  let articleWords := JS.Set_of (JS.split_whitespace articleText) in
  let intersection :=
    JS.Set_of (List.filter (fun word => JS.has articleWords word) queryWords) in
  let union := JS.Set_of (queryWords ++ articleWords) in
  let similarity := F64.div (F64.of_Z (JS.size intersection))
                            (F64.of_Z (JS.size union)) in
  let similarity :=
    if JS.includes (JS.toLowerCase (Article.title article)) query
    then F64.add similarity F64.c0_3 else similarity in
  let similarity :=
    match Article.category article with
    | Some category =>
        if negb (String.eqb category "")
           && JS.includes (JS.toLowerCase category) query
        then F64.add similarity F64.c0_1 else similarity
    | None => similarity
    end in
  F64.Math_min similarity F64.c1_0.

(** The comparator [(a, b) => b.score - a.score] asks for [b] in front
    of [a] exactly when its value is positive. *)
Definition compareFn (a b : SearchResult) : F64.number :=
  F64.sub (score b) (score a).

Definition stays_before (a b : SearchResult) : bool :=
  negb (F64.gt (compareFn a b) F64.zero).

Definition scored (query : string) (article : Article.t) : SearchResult :=
  mkSearchResult (Article.id article)
    (calculateTextSimilarity (JS.toLowerCase query) article)
    (Article.title article) (Article.snippet article)
    (Article.category article) (Article.publishedAt article).

(** The pipeline after the embedding call. *)
Definition text_search (db : D1) (query : string) (limit : Z)
    : list SearchResult :=
  let articles := DatabaseService.getArticles db (limit * 3) in
  JS.slice0 limit
    (sort_by stays_before
       (List.filter (fun r => F64.gt (score r) F64.zero)
                    (map (scored query) articles))).

Definition searchSimilarArticles (P : Platform) (db : D1) (query : string)
    (limit : Z) : result (list SearchResult) :=
  match AIService.generateEmbedding P query with
  | Throw _ => Throw "Failed to perform semantic search"
  | Ok queryEmbedding => Ok (text_search db query limit)
  end.

Definition findSimilarArticles (P : Platform) (db : D1) (articleId : string)
    (limit : Z) : result (list SearchResult) :=
  match DatabaseService.getArticle db articleId with
  | None => Throw "Failed to find similar articles"
  | Some article =>
      let searchQuery := Article.title article +:+ " " +:+ Article.snippet article in
      match searchSimilarArticles P db searchQuery (limit + 1) with
      | Throw _ => Throw "Failed to find similar articles"
      | Ok results =>
          Ok (JS.slice0 limit
                (List.filter
                   (fun r => negb (String.eqb (VectorSearchService.articleId r)
                                              articleId))
                   results))
      end
  end.

End VectorSearchService.

(** ** routes/workspace.ts and routes/reports.ts *)

Module Routes.

(** [UPDATE workspace_items SET order_index = ? WHERE id = ?], and the
    trigger on the rows it touches. *)
Definition set_order (c : Call) (index : Z) (itemId : string) (db : D1) : D1 :=
  set_workspace_items db
    (map (fun r =>
            if String.eqb (WorkspaceItemRow.id r) itemId then
              WorkspaceItemRow.mk (WorkspaceItemRow.id r)
                (WorkspaceItemRow.article_id r) index
                (WorkspaceItemRow.custom_content r)
                (WorkspaceItemRow.custom_analysis r)
                (WorkspaceItemRow.is_edited r)
                (WorkspaceItemRow.created_at r) (datetime_now c)
            else r)
         (workspace_items db)).

(** [itemIds.map((itemId, index) => ...)] from position [index] on,
    run in order by [DB.batch]. *)
Fixpoint reorder_from (c : Call) (index : Z) (itemIds : list string)
    (db : D1) : D1 :=
  match itemIds with
  | [] => db
  | itemId :: rest => reorder_from c (index + 1) rest (set_order c index itemId db)
  end.

(** POST /api/workspace/reorder with an array body *)
Definition reorder (c : Call) (itemIds : list string) (db : D1) : D1 :=
  reorder_from c 0 itemIds db.

(** One row of the three-table join of the export. *)
Record Joined := mkJoined {
  j_order_index : Z;
  j_item : WorkspaceItemRow.t;
  j_article : ArticleRow.t }.

(** The statement of the export that reads the items: [FROM
    report_items ri JOIN workspace_items wi ON ri.workspace_item_id =
    wi.id JOIN articles a ON wi.article_id = a.id WHERE ri.report_id =
    ? ORDER BY ri.order_index ASC].  Its text has one [?]; [bound] are
    the values given to it with [.bind(...)].  D1 runs a statement only
    with one value for each [?] and rejects it otherwise. *)
Definition export_statement (db : D1) (bound : list string)
    : result (list Joined) :=
  match bound with
  | [id] =>
      Ok (sort_by (fun x y => j_order_index x <=? j_order_index y)
            (flat_map
               (fun ri =>
                  if String.eqb (ReportItemRow.report_id ri) id then
                    flat_map
                      (fun wi =>
                         if String.eqb (ReportItemRow.workspace_item_id ri)
                                       (WorkspaceItemRow.id wi)
                         then
                           flat_map
                             (fun a =>
                                if String.eqb (WorkspaceItemRow.article_id wi)
                                              (ArticleRow.id a)
                                then [mkJoined (ReportItemRow.order_index ri)
                                               wi a]
                                else [])
                             (articles db)
                         else [])
                      (workspace_items db)
                  else [])
               (report_items db)))
  | _ => Throw "D1_ERROR: Wrong number of parameter bindings for SQL query."
  end.

Record ExportItem := mkExportItem {
  order : Z; title : string; category : option string;
  publishedDate : string; url : string; summary : option string;
  content : string; analysis : option string; isEdited : bool;
  author : option string }.

(** [items.map((item, index) => ({ order: index + 1, ... }))] *)
Definition export_item (index : Z) (j : Joined) : ExportItem :=
  mkExportItem (index + 1)
    (ArticleRow.title (j_article j)) (ArticleRow.category (j_article j))
    (ArticleRow.published_at (j_article j)) (ArticleRow.url (j_article j))
    (ArticleRow.summary (j_article j))
    (match truthy (WorkspaceItemRow.custom_content (j_item j)) with
     | Some s => s
     | None => ArticleRow.content (j_article j)
     end)
    (WorkspaceItemRow.custom_analysis (j_item j))
    (WorkspaceItemRow.is_edited (j_item j))
    (ArticleRow.author (j_article j)).

End Routes.

(** ** Notions used by the statements *)

(** [chain R l]: each element of [l] is related to its successor. *)
Inductive chain {A : Type} (R : A -> A -> Prop) : list A -> Prop :=
  | chain_nil : chain R []
  | chain_one x : chain R [x]
  | chain_cons x y l : R x y -> chain R (y :: l) -> chain R (x :: y :: l).

(** The index that the last occurrence of [id] has in [itemIds], when
    the first element of [itemIds] has index [index]. *)
Fixpoint last_position (index : Z) (id : string) (itemIds : list string)
    : option Z :=
  match itemIds with
  | [] => None
  | x :: rest =>
      match last_position (index + 1) id rest with
      | Some i => Some i
      | None => if String.eqb id x then Some index else None
      end
  end.

(** A workspace row with another order, as the reorder leaves it. *)
Definition moved (c : Call) (index : Z) (r : WorkspaceItemRow.t)
    : WorkspaceItemRow.t :=
  WorkspaceItemRow.mk (WorkspaceItemRow.id r) (WorkspaceItemRow.article_id r)
    index (WorkspaceItemRow.custom_content r)
    (WorkspaceItemRow.custom_analysis r) (WorkspaceItemRow.is_edited r)
    (WorkspaceItemRow.created_at r) (datetime_now c).

(** A patched field: the supplied value, else the prior one. *)
Definition supplied (new old : option string) : option string :=
  match new with Some v => Some v | None => old end.

(** The key constraints of the [articles] table. *)
Definition urls_unique (db : D1) : Prop :=
  NoDup (map ArticleRow.url (articles db)).

Definition ids_unique (db : D1) : Prop :=
  NoDup (map ArticleRow.id (articles db)).

(** The rows of one feed. *)
Definition articles_of (db : D1) (feedId : string) : list ArticleRow.t :=
  List.filter (fun a => String.eqb (ArticleRow.feed_id a) feedId) (articles db).

(** ** Sample data for the concrete cases *)

Module Sample.

(** Ids [uuid-], [uuid-i], [uuid-ii], ... *)
Definition call : Call :=
  mkCall (fun k => "uuid-" +:+ String.concat "" (List.repeat "i" k))
         "2025-01-01T00:00:00.000Z" "2025-01-01 00:00:00".

(** A platform whose feed documents are empty and never fail, whose
    dates are already in ISO form, and whose AI binding answers with
    nothing usable. *)
Definition quiet : Platform :=
  mkPlatform (fun _ => Ok []) (fun s => Some s) (fun _ _ => AI_other)
             (fun _ => F64.c0_3).

Definition feed (active : bool) : RSSFeedRow.t :=
  RSSFeedRow.mk "feed_cfr" "Council on Foreign Relations"
    "https://www.cfr.org/rss/feeds/analysis" "Think Tanks" active None
    "2025-01-01 00:00:00" "2025-01-01 00:00:00".

Definition article (id title content published_at url : string)
    (category : option string) : ArticleRow.t :=
  ArticleRow.mk id "feed_cfr" title content "" None published_at url
    false false "2025-01-01 00:00:00" "2025-01-01 00:00:00"
    category None None.

Definition a1 : ArticleRow.t :=
  article "a1" "US-China Trade Relations" "Tariffs and talks."
    "2025-01-02T00:00:00.000Z" "https://www.cfr.org/a1" (Some "Think Tanks").

Definition a2 : ArticleRow.t :=
  article "a2" "Arctic Shipping Lanes" "Ice and routes."
    "2025-01-03T00:00:00.000Z" "https://www.cfr.org/a2" (Some "Think Tanks").

Definition item (id article_id : string) (order : Z)
    (custom_content custom_analysis : option string) : WorkspaceItemRow.t :=
  WorkspaceItemRow.mk id article_id order custom_content custom_analysis
    false "2025-01-01 00:00:00" "2025-01-01 00:00:00".

(** One feed with two articles, and a retention of one article. *)
Definition db (active : bool) : D1 :=
  mkD1 [feed active] [a1; a2] [] [] []
       {[ "max_articles_per_feed" := "1" ]}.

(** A space followed by 2000 letters: 2001 characters whose only
    space is the first character. *)
Definition spaced : string :=
  String " " (string_of_list_ascii (List.repeat "a"%char 2000)).

(** A report on one workspace item whose custom content was saved as
    the empty text. *)
Definition report_db : D1 :=
  mkD1 [feed true] [a1; a2]
       [item "w1" "a1" 0 (Some "") None]
       [ReportRow.mk "r1" "Weekly" None "draft"
          "2025-01-01 00:00:00" "2025-01-01 00:00:00"]
       [ReportItemRow.mk "ri1" "r1" "w1" 0 "2025-01-01 00:00:00"]
       ∅.

End Sample.

(** The order of [ORDER BY published_at DESC]. *)
Definition newer_first (x y : ArticleRow.t) : bool :=
  String.leb (ArticleRow.published_at y) (ArticleRow.published_at x).

(** The truncation as the specification words it: cut after the last
    [.] when its position exceeds 70% of the cap, else at the last
    newline when its position exceeds 50% of the cap, else at the last
    space, else at the cap. *)
Definition truncate_claimed (cap : Z) (text : string) : string :=
  if JS.length text <=? cap then text
  else
    let head := JS.substring0 cap text in
    let dot := JS.lastIndexOf "." head in
    let newline := JS.lastIndexOf Text.LF head in
    let space := JS.lastIndexOf " " head in
    if 7 * cap <? 10 * dot then JS.substring0 (dot + 1) head
    else if cap <? 2 * newline then JS.substring0 newline head
    else if 0 <=? space then JS.substring0 space head
    else head.

(** The same, with the cut at the last space taken only when that
    space is not the first character. *)
Definition truncate_amended (cap : Z) (text : string) : string :=
  if JS.length text <=? cap then text
  else
    let head := JS.substring0 cap text in
    let dot := JS.lastIndexOf "." head in
    let newline := JS.lastIndexOf Text.LF head in
    let space := JS.lastIndexOf " " head in
    if 7 * cap <? 10 * dot then JS.substring0 (dot + 1) head
    else if cap <? 2 * newline then JS.substring0 newline head
    else if 0 <? space then JS.substring0 space head
    else head.

(** The indexes that [lastIndexOf] can give on a text of at most
    [cap] characters. *)
Definition indexes (cap : nat) : list Z :=
  map (fun k => Z.of_nat k - 1) (seq 0 (S cap)).

(** Classes of binary64 values: of sign [+], not NaN, with an exponent
    that the format has; and the same without zero. *)
Definition emin : Z := SpecFloat.emin F64.prec F64.emax.

Definition is_nonneg (x : F64.number) : Prop :=
  match x with
  | S754_zero false => True
  | S754_infinity false => True
  | S754_finite false _ e => emin <= e
  | _ => False
  end.

Definition is_pos (x : F64.number) : Prop :=
  match x with
  | S754_infinity false => True
  | S754_finite false _ e => emin <= e
  | _ => False
  end.

(** A value of sign [s], or NaN. *)
Definition signed (s : bool) (x : F64.number) : Prop :=
  match x with
  | S754_zero s' | S754_infinity s' | S754_finite s' _ _ => s' = s
  | S754_nan => True
  end.





(** The score that the search gives an article for a query. *)
Definition similarity (query : string) (article : Article.t) : F64.number :=
  VectorSearchService.calculateTextSimilarity (JS.toLowerCase query) article.


(** The exact size of a binary64 value, in units of [2 ^ emin]: a value
    with mantissa [m] and exponent [e >= emin] denotes the real number
    [m * 2 ^ e], which is [magnitude * 2 ^ emin]; [None] is infinity. *)
Definition magnitude (x : F64.number) : option Z :=
  match x with
  | S754_finite _ m e => Some (Zpos m * 2 ^ (e - emin))
  | S754_infinity _ => None
  | _ => Some 0
  end.

Definition mag_le (a b : option Z) : Prop :=
  match a, b with
  | _, None => True
  | None, Some _ => False
  | Some x, Some y => x <= y
  end.

Definition nan_or_nonneg (x : F64.number) : Prop :=
  x = S754_nan \/ is_nonneg x.

(** [a] has at least the score of [b], by exact size. *)
Definition score_ge (a b : VectorSearchService.SearchResult) : Prop :=
  mag_le (magnitude (VectorSearchService.score b))
         (magnitude (VectorSearchService.score a)).

(** * The rest of the worker

    The sections above model what the fetcher, the search and the
    workspace need.  What follows is the remainder of
    [services/database.ts] and [services/ai.ts] and the handlers of the
    five routers. *)

(** ** More API types of types.ts *)

(** [Omit<RSSFeed, 'id' | 'createdAt' | 'updatedAt'>] *)
Module NewRSSFeed.
Record t := mk {
  name : string; url : string; category : string;
  isActive : bool; lastFetched : option string }.
End NewRSSFeed.

(** [Partial<RSSFeed>] as [updateRSSFeed] reads it. *)
Module RSSFeedPatch.
Record t := mk {
  name : option string; url : option string; category : option string;
  isActive : option bool; lastFetched : option string }.
End RSSFeedPatch.

(** [Partial<Article>] as [updateArticle] reads it. *)
Module ArticlePatch.
Record t := mk {
  isRead : option bool; isArchived : option bool;
  summary : option string; analysis : option string }.
End ArticlePatch.

(** The options of [getArticles].  For [limit] and [offset], [None] is
    an absent key or NaN: the code tests both for truth only. *)
Module ArticleQuery.
Record t := mk {
  category : option string; status : option string;
  limit : option Z; offset : option Z; feedId : option string }.
End ArticleQuery.

(** ** What [run()] resolves to *)

(** On D1 the object that [run()] resolves to holds [success],
    [results] and [meta]; the number of rows that the statement changed
    is [meta.changes].  The worker reads [result.changes]: the object
    has no such property, and the value read is [undefined] whatever
    the statement did. *)
Module D1Result.

Record t := mk { success : bool; meta_changes : Z }.

(** [result.changes]; [None] is [undefined]. *)
Definition changes (result : t) : option Z := None.

(** [x > 0]: [undefined] converts to NaN, which is above nothing. *)
Definition above_zero (x : option Z) : bool :=
  match x with
  | Some n => 0 <? n
  | None => false
  end.

(** [x === 0]: [undefined] is strictly equal to no number. *)
Definition is_zero (x : option Z) : bool :=
  match x with
  | Some n => n =? 0
  | None => false
  end.

End D1Result.

(** ** More statements on the D1 database *)

Definition set_reports (db : D1) (l : list ReportRow.t) : D1 :=
  mkD1 (rss_feeds db) (articles db) (workspace_items db) l
       (report_items db) (settings db).

Definition set_settings (db : D1) (m : gmap string string) : D1 :=
  mkD1 (rss_feeds db) (articles db) (workspace_items db) (reports db)
       (report_items db) m.

(** [DELETE FROM workspace_items WHERE dead]: the report items of a
    deleted workspace item go. *)
Definition delete_workspace_items (dead : WorkspaceItemRow.t -> bool)
    (db : D1) : D1 :=
  let w_gone := List.filter dead (workspace_items db) in
  let ri_dead ri :=
    existsb (fun w => String.eqb (WorkspaceItemRow.id w)
                        (ReportItemRow.workspace_item_id ri)) w_gone in
  mkD1 (rss_feeds db) (articles db)
       (List.filter (fun w => negb (dead w)) (workspace_items db))
       (reports db)
       (List.filter (fun ri => negb (ri_dead ri)) (report_items db))
       (settings db).

(** [DELETE FROM rss_feeds WHERE dead]: the articles of a deleted feed
    go, and with them what [delete_articles] takes along. *)
Definition delete_rss_feeds (dead : RSSFeedRow.t -> bool) (db : D1) : D1 :=
  let gone := List.filter dead (rss_feeds db) in
  let a_dead a :=
    existsb (fun f => String.eqb (RSSFeedRow.id f) (ArticleRow.feed_id a))
            gone in
  delete_articles a_dead
    (set_rss_feeds db (List.filter (fun f => negb (dead f)) (rss_feeds db))).

(** [DELETE FROM reports WHERE dead]: the items of a deleted report go. *)
Definition delete_reports (dead : ReportRow.t -> bool) (db : D1) : D1 :=
  let gone := List.filter dead (reports db) in
  let ri_dead ri :=
    existsb (fun r => String.eqb (ReportRow.id r) (ReportItemRow.report_id ri))
            gone in
  mkD1 (rss_feeds db) (articles db) (workspace_items db)
       (List.filter (fun r => negb (dead r)) (reports db))
       (List.filter (fun ri => negb (ri_dead ri)) (report_items db))
       (settings db).

(** [INSERT INTO report_items ...]: rejected when the primary key or the
    pair [(report_id, workspace_item_id)] is taken, or when a referenced
    row is absent. *)
Definition insert_report_item (row : ReportItemRow.t) (db : D1) : result D1 :=
  if existsb (fun r => String.eqb (ReportItemRow.id r) (ReportItemRow.id row))
             (report_items db)
  then Throw "UNIQUE constraint failed: report_items.id"
  else if existsb
            (fun r => String.eqb (ReportItemRow.report_id r)
                                 (ReportItemRow.report_id row)
                      && String.eqb (ReportItemRow.workspace_item_id r)
                                    (ReportItemRow.workspace_item_id row))
            (report_items db)
  then Throw "UNIQUE constraint failed: report_items.report_id, report_items.workspace_item_id"
  else if negb (existsb (fun r => String.eqb (ReportRow.id r)
                                    (ReportItemRow.report_id row))
                        (reports db))
          || negb (existsb (fun w => String.eqb (WorkspaceItemRow.id w)
                                       (ReportItemRow.workspace_item_id row))
                           (workspace_items db))
  then Throw "FOREIGN KEY constraint failed"
  else Ok (set_report_items db (report_items db ++ [row])).

(** [DB.batch(statements)]: the statements run in order inside one
    transaction, so that a rejection leaves the database as it was
    before the batch. *)
Fixpoint batch (statements : list (D1 -> result D1)) (db : D1) : result D1 :=
  match statements with
  | [] => Ok db
  | s :: rest =>
      match s db with
      | Ok db' => batch rest db'
      | Throw msg => Throw msg
      end
  end.

(** [n.toString()] for a number that holds an integer below [2 ^ 53] in
    size: its decimal digits, with [-] in front of a negative one. *)
Definition Number_toString (n : Z) : string :=
  DecimalString.NilZero.string_of_int (Z.to_int n).

(** ** services/database.ts, continued *)

Module Database.

(** [INSERT INTO rss_feeds (id, name, url, category, is_active,
    created_at, updated_at)]: [last_fetched] stays NULL; the statement
    is rejected when the primary key or the UNIQUE [url] is taken. *)
Definition createRSSFeed (c : Call) (db : D1) (feed : NewRSSFeed.t)
    : result (RSSFeed.t * D1) :=
  let id := randomUUID c 0%nat in
  let now := now c in
  if existsb (fun r => String.eqb (RSSFeedRow.id r) id) (rss_feeds db)
  then Throw "UNIQUE constraint failed: rss_feeds.id"
  else if existsb (fun r => String.eqb (RSSFeedRow.url r) (NewRSSFeed.url feed))
                  (rss_feeds db)
  then Throw "UNIQUE constraint failed: rss_feeds.url"
  else
    let row :=
      RSSFeedRow.mk id (NewRSSFeed.name feed) (NewRSSFeed.url feed)
        (NewRSSFeed.category feed) (NewRSSFeed.isActive feed) None now now in
    Ok (RSSFeed.mk id (NewRSSFeed.name feed) (NewRSSFeed.url feed)
          (NewRSSFeed.category feed) (NewRSSFeed.isActive feed)
          (NewRSSFeed.lastFetched feed) now now,
        set_rss_feeds db (rss_feeds db ++ [row])).

(** The UPDATE that [updateRSSFeed] assembles, on one row, and the
    trigger of the table. *)
Definition patch_feed (c : Call) (updates : RSSFeedPatch.t)
    (r : RSSFeedRow.t) : RSSFeedRow.t :=
  RSSFeedRow.mk (RSSFeedRow.id r)
    (match RSSFeedPatch.name updates with
     | Some v => v | None => RSSFeedRow.name r end)
    (match RSSFeedPatch.url updates with
     | Some v => v | None => RSSFeedRow.url r end)
    (match RSSFeedPatch.category updates with
     | Some v => v | None => RSSFeedRow.category r end)
    (match RSSFeedPatch.isActive updates with
     | Some v => v | None => RSSFeedRow.is_active r end)
    (match RSSFeedPatch.lastFetched updates with
     | Some v => Some v | None => RSSFeedRow.last_fetched r end)
    (RSSFeedRow.created_at r) (datetime_now c).

(** [updateFields.length === 0] *)
Definition no_feed_field (updates : RSSFeedPatch.t) : bool :=
  match RSSFeedPatch.name updates, RSSFeedPatch.url updates,
        RSSFeedPatch.category updates, RSSFeedPatch.isActive updates,
        RSSFeedPatch.lastFetched updates with
  | None, None, None, None, None => true
  | _, _, _, _, _ => false
  end.

(** [updateRSSFeed(id, updates)] for any patch: [null] for an unknown
    id, the unchanged feed when no key is present, else one UPDATE,
    rejected when it would give the row the [url] of another row. *)
Definition updateRSSFeed (c : Call) (db : D1) (id : string)
    (updates : RSSFeedPatch.t) : result (option RSSFeed.t * D1) :=
  match DatabaseService.getRSSFeed db id with
  | None => Ok (None, db)
  | Some existingFeed =>
      if no_feed_field updates then Ok (Some existingFeed, db)
      else if match RSSFeedPatch.url updates with
              | Some u =>
                  existsb (fun r => negb (String.eqb (RSSFeedRow.id r) id)
                                    && String.eqb (RSSFeedRow.url r) u)
                          (rss_feeds db)
              | None => false
              end
      then Throw "UNIQUE constraint failed: rss_feeds.url"
      else
        let db' :=
          set_rss_feeds db
            (map (fun r => if String.eqb (RSSFeedRow.id r) id
                           then patch_feed c updates r else r)
                 (rss_feeds db)) in
        Ok (DatabaseService.getRSSFeed db' id, db')
  end.

(** [deleteRSSFeed(id)]: the DELETE, then [return result.changes > 0]. *)
Definition deleteRSSFeed (db : D1) (id : string) : bool * D1 :=
  let dead r := String.eqb (RSSFeedRow.id r) id in
  let result :=
    D1Result.mk true
      (Z.of_nat (List.length (List.filter dead (rss_feeds db)))) in
  (D1Result.above_zero (D1Result.changes result), delete_rss_feeds dead db).

(** The WHERE clause that [getArticles] assembles. *)
Definition selected (options : ArticleQuery.t) (a : ArticleRow.t) : bool :=
  negb (ArticleRow.is_archived a)
  && match truthy (ArticleQuery.category options) with
     | Some category =>
         match ArticleRow.category a with
         | Some c => String.eqb c category
         | None => false
         end
     | None => true
     end
  && match ArticleQuery.status options with
     | Some s =>
         if String.eqb s "read" then ArticleRow.is_read a
         else if String.eqb s "unread" then negb (ArticleRow.is_read a)
         else true
     | None => true
     end
  && match truthy (ArticleQuery.feedId options) with
     | Some feedId => String.eqb (ArticleRow.feed_id a) feedId
     | None => true
     end.

(** A number that is present and truthy. *)
Definition nonzero (n : option Z) : option Z :=
  match n with
  | Some z => if z =? 0 then None else Some z
  | None => None
  end.

(** [getArticles(options)]: the count of the selected rows, and the
    page of them.  [LIMIT l OFFSET o] skips [o] rows (none for a
    negative [o]) and gives [l] rows (all for a negative [l]); the
    query that ends in [OFFSET ?] without a LIMIT is rejected by
    SQLite's parser. *)
Definition getArticles (db : D1) (options : ArticleQuery.t)
    : result (list Article.t * Z) :=
  let chosen := List.filter (selected options) (articles db) in
  let total := Z.of_nat (List.length chosen) in
  let rows := sort_by newer_first chosen in
  match nonzero (ArticleQuery.limit options),
        nonzero (ArticleQuery.offset options) with
  | None, None => Ok (map DatabaseService.mapArticleRow rows, total)
  | None, Some _ =>
      Throw ("near " +:+ Text.DQUOTE +:+ "OFFSET" +:+ Text.DQUOTE
             +:+ ": syntax error")
  | Some l, o =>
      let rest :=
        match o with
        | Some o => drop (Z.to_nat o) rows
        | None => rows
        end in
      let page := if l <? 0 then rest else take (Z.to_nat l) rest in
      Ok (map DatabaseService.mapArticleRow page, total)
  end.

(** The UPDATE that [updateArticle] assembles, on one row, and the
    trigger of the table. *)
Definition patch_article (c : Call) (updates : ArticlePatch.t)
    (r : ArticleRow.t) : ArticleRow.t :=
  ArticleRow.mk (ArticleRow.id r) (ArticleRow.feed_id r) (ArticleRow.title r)
    (ArticleRow.content r) (ArticleRow.snippet r) (ArticleRow.author r)
    (ArticleRow.published_at r) (ArticleRow.url r)
    (match ArticlePatch.isRead updates with
     | Some v => v | None => ArticleRow.is_read r end)
    (match ArticlePatch.isArchived updates with
     | Some v => v | None => ArticleRow.is_archived r end)
    (ArticleRow.created_at r) (datetime_now c)
    (ArticleRow.category r)
    (match ArticlePatch.summary updates with
     | Some v => Some v | None => ArticleRow.summary r end)
    (match ArticlePatch.analysis updates with
     | Some v => Some v | None => ArticleRow.analysis r end).

Definition no_article_field (updates : ArticlePatch.t) : bool :=
  match ArticlePatch.isRead updates, ArticlePatch.isArchived updates,
        ArticlePatch.summary updates, ArticlePatch.analysis updates with
  | None, None, None, None => true
  | _, _, _, _ => false
  end.

Definition updateArticle (c : Call) (db : D1) (id : string)
    (updates : ArticlePatch.t) : option Article.t * D1 :=
  match DatabaseService.getArticle db id with
  | None => (None, db)
  | Some existingArticle =>
      if no_article_field updates then (Some existingArticle, db)
      else
        let db' :=
          set_articles db
            (map (fun r => if String.eqb (ArticleRow.id r) id
                           then patch_article c updates r else r)
                 (articles db)) in
        (DatabaseService.getArticle db' id, db')
  end.

(** [removeFromWorkspace(id)]: the DELETE, then
    [return result.changes > 0]. *)
Definition removeFromWorkspace (db : D1) (id : string) : bool * D1 :=
  let dead r := String.eqb (WorkspaceItemRow.id r) id in
  let result :=
    D1Result.mk true
      (Z.of_nat (List.length (List.filter dead (workspace_items db)))) in
  (D1Result.above_zero (D1Result.changes result),
   delete_workspace_items dead db).

End Database.

(** ** services/ai.ts, continued *)

Module AIConnection.

Record t := mk { success : bool; message : string }.

Definition testText : string :=
  "This is a test message to verify AI functionality.".

Definition testConnection (P : Platform) (db : D1) : t :=
  match AIService.summarizeText P db testText with
  | Ok summary =>
      if String.eqb summary ""
      then mk false "AI connection failed: AI returned empty response"
      else
        mk true
          ("AI connection successful. Test summary: " +:+ Text.DQUOTE
           +:+ JS.substring0 100 summary
           +:+ (if JS.length summary >? 100 then "..." else "")
           +:+ Text.DQUOTE)
  | Throw msg => mk false ("AI connection failed: " +:+ msg)
  end.

End AIConnection.

(** ** The handlers of the routers *)

(** [c.json(body, status)]: the body of a success, or the [error] and
    [message] of a failure. *)
Inductive Reply (A : Type) : Type :=
  | Json (status : Z) (body : A)
  | Failure (status : Z) (error : string) (message : option string).
Arguments Json {A} status body.
Arguments Failure {A} status error message.

Definition status_of {A} (r : Reply A) : Z :=
  match r with
  | Json status _ => status
  | Failure status _ _ => status
  end.

(** *** routes/workspace.ts *)

Module WorkspaceRouter.

(** POST /api/workspace/items *)
Definition post_items (c : Call) (db : D1) (articleId : option string)
    : Reply WorkspaceItem.t * D1 :=
  match truthy articleId with
  | None =>
      (Failure 400 "Missing article ID" (Some "Article ID is required"), db)
  | Some articleId =>
      match DatabaseService.getArticle db articleId with
      | None => (Failure 404 "Article not found" None, db)
      | Some _ =>
          if existsb (fun w => String.eqb (WorkspaceItemRow.article_id w)
                                          articleId)
                     (workspace_items db)
          then (Failure 409 "Article already in workspace"
                  (Some "This article is already added to the workspace"), db)
          else
            match DatabaseService.addToWorkspace c db articleId with
            | Ok (item, db') => (Json 201 item, db')
            | Throw msg =>
                (Failure 500 "Failed to add item to workspace" (Some msg), db)
            end
      end
  end.

(** POST /api/workspace/clear: [DELETE FROM workspace_items] *)
Definition clear (db : D1) : D1 :=
  delete_workspace_items (fun _ => true) db.

End WorkspaceRouter.

(** *** routes/feeds.ts *)

Module FeedsRouter.

(** The body of POST /api/feeds and of PATCH /api/feeds/:id. *)
Record Body := mkBody {
  name : option string; url : option string;
  category : option string; isActive : option bool }.

(** [error.message.includes('UNIQUE constraint failed')] decides
    between 409 and 500. *)
Definition rejected {A} (error msg : string) : Reply A :=
  if JS.includes msg "UNIQUE constraint failed"
  then Failure 409 "Duplicate URL" (Some "A feed with this URL already exists")
  else Failure 500 error (Some msg).

(** POST /api/feeds.  [valid_URL s] says that [new URL(s)] does not
    throw; the request that creates the feed reads the platform as
    [c], the fetch that follows reads it as [c']. *)
Definition post (valid_URL : string -> bool) (P : Platform) (c c' : Call)
    (db : D1) (body : Body) : Reply RSSFeed.t * D1 :=
  match truthy (name body), truthy (url body) with
  | Some name, Some url =>
      if negb (valid_URL url)
      then (Failure 400 "Invalid URL"
              (Some "Please provide a valid RSS feed URL"), db)
      else
        match Database.createRSSFeed c db
                (NewRSSFeed.mk (Text.trim name) (Text.trim url)
                   (FeedFetcher.or_else (option_map Text.trim (category body))
                                        "Uncategorized")
                   (match isActive body with Some b => b | None => true end)
                   None) with
        | Throw msg => (rejected "Failed to create feed" msg, db)
        | Ok (feed, db1) =>
            (Json 201 feed,
             snd (FeedFetcher.fetchFeed P c' db1 (RSSFeed.id feed)))
        end
  | _, _ =>
      (Failure 400 "Missing required fields"
         (Some "Name and URL are required"), db)
  end.

(** PATCH /api/feeds/:id *)
Definition patch (valid_URL : string -> bool) (c : Call) (db : D1)
    (id : string) (body : Body) : Reply RSSFeed.t * D1 :=
  if match truthy (url body) with
     | Some u => negb (valid_URL u)
     | None => false
     end
  then (Failure 400 "Invalid URL"
          (Some "Please provide a valid RSS feed URL"), db)
  else
    match Database.updateRSSFeed c db id
            (RSSFeedPatch.mk (option_map Text.trim (name body))
               (option_map Text.trim (url body))
               (option_map Text.trim (category body))
               (isActive body) None) with
    | Throw msg => (rejected "Failed to update feed" msg, db)
    | Ok (None, db') => (Failure 404 "Feed not found" None, db')
    | Ok (Some feed, db') => (Json 200 feed, db')
    end.

(** DELETE /api/feeds/:id *)
Definition delete (db : D1) (id : string) : Reply bool * D1 :=
  let '(deleted, db') := Database.deleteRSSFeed db id in
  if deleted then (Json 200 true, db')
  else (Failure 404 "Feed not found" None, db').

(** POST /api/feeds/:id/refresh *)
Definition refresh (P : Platform) (c : Call) (db : D1) (id : string)
    : Reply FeedFetcher.FetchResult * D1 :=
  match DatabaseService.getRSSFeed db id with
  | None => (Failure 404 "Feed not found" None, db)
  | Some _ =>
      let '(result, db') := FeedFetcher.fetchFeed P c db id in
      (Json 200 result, db')
  end.

End FeedsRouter.

(** *** routes/articles.ts *)

Module ArticlesRouter.

Record Summary := mkSummary { summary : string; cached : bool }.

(** POST /api/articles/:id/summarize *)
Definition summarize (P : Platform) (c : Call) (db : D1) (id : string)
    : Reply Summary * D1 :=
  match DatabaseService.getArticle db id with
  | None => (Failure 404 "Article not found" None, db)
  | Some article =>
      match truthy (Article.summary article) with
      | Some s => (Json 200 (mkSummary s true), db)
      | None =>
          match AIService.summarizeText P db (Article.content article) with
          | Throw msg =>
              (Failure 500 "Failed to generate summary" (Some msg), db)
          | Ok s =>
              (Json 200 (mkSummary s false),
               snd (Database.updateArticle c db id
                      (ArticlePatch.mk None None (Some s) None)))
          end
      end
  end.

End ArticlesRouter.

(** *** routes/reports.ts *)

Module ReportsRouter.

(** The body of POST /api/reports. *)
Record Body := mkBody {
  title : option string; description : option string;
  status : option string; copyWorkspace : bool }.

(** The [createdReport] of the reply. *)
Record Created := mkCreated {
  id : string; created_title : string;
  created_description : option string; created_status : string;
  createdAt : string; updatedAt : string }.

(** The rows that [workspaceItems.map((item, index) => ...)] binds: the
    first id of the request went to the report. *)
Definition link_rows (c : Call) (reportId : string)
    (workspaceItems : list WorkspaceItem.t) : list ReportItemRow.t :=
  imap (fun index item =>
          ReportItemRow.mk (randomUUID c (S index)) reportId
            (WorkspaceItem.id item) (Z.of_nat index) (now c))
       workspaceItems.

(** POST /api/reports.  The INSERT of the report is rejected when the
    primary key is taken or the CHECK on [status] fails. *)
Definition post (c : Call) (db : D1) (body : Body) : Reply Created * D1 :=
  match truthy (title body) with
  | None =>
      (Failure 400 "Missing title" (Some "Report title is required"), db)
  | Some title =>
      let reportId := randomUUID c 0%nat in
      let now := now c in
      let status :=
        match status body with Some s => s | None => "draft" end in
      if existsb (fun r => String.eqb (ReportRow.id r) reportId) (reports db)
      then (Failure 500 "Failed to create report"
              (Some "UNIQUE constraint failed: reports.id"), db)
      else if negb (String.eqb status "draft" || String.eqb status "published")
      then (Failure 500 "Failed to create report"
              (Some "CHECK constraint failed: status IN ('draft', 'published')"),
            db)
      else
        let row :=
          ReportRow.mk reportId (Text.trim title)
            (truthy (option_map Text.trim (description body))) status
            now now in
        let db1 := set_reports db (reports db ++ [row]) in
        let created :=
          mkCreated reportId (Text.trim title)
            (option_map Text.trim (description body)) status now now in
        if copyWorkspace body then
          match DatabaseService.getWorkspaceItems db1 with
          | [] => (Json 201 created, db1)
          | workspaceItems =>
              match batch (map insert_report_item
                                 (link_rows c reportId workspaceItems)) db1 with
              | Ok db2 => (Json 201 created, db2)
              | Throw msg =>
                  (Failure 500 "Failed to create report" (Some msg), db1)
              end
          end
        else (Json 201 created, db1)
  end.

(** DELETE /api/reports/:id: the DELETE, then the test
    [result.changes === 0]. *)
Definition delete (db : D1) (id : string) : Reply bool * D1 :=
  let dead r := String.eqb (ReportRow.id r) id in
  let result :=
    D1Result.mk true
      (Z.of_nat (List.length (List.filter dead (reports db)))) in
  let db' := delete_reports dead db in
  if D1Result.is_zero (D1Result.changes result)
  then (Failure 404 "Report not found" None, db')
  else (Json 200 true, db').

(** GET /api/reports/:id/export, to the [items] of [exportData].  The
    statement that reads the report is bound to [id]; the statement
    that reads the items is run as it is prepared, with no value
    bound. *)
Definition export (db : D1) (id : string) : Reply (list Routes.ExportItem) :=
  match List.find (fun r => String.eqb (ReportRow.id r) id) (reports db) with
  | None => Failure 404 "Report not found" None
  | Some report =>
      match Routes.export_statement db [] with
      | Throw msg => Failure 500 "Failed to export report" (Some msg)
      | Ok items =>
          Json 200 (imap (fun index item =>
                            Routes.export_item (Z.of_nat index) item)
                         items)
      end
  end.

(** A quoted field of [generateCSV]: every quote inside is doubled. *)
Definition quoted (s : string) : string :=
  Text.DQUOTE
  +:+ Text.replaceAll Text.DQUOTE (Text.DQUOTE +:+ Text.DQUOTE) s
  +:+ Text.DQUOTE.

(** A field that is put between quotes as it is. *)
Definition between_quotes (s : option string) : string :=
  Text.DQUOTE +:+ FeedFetcher.or_else s "" +:+ Text.DQUOTE.


(** One row of [generateCSV]; [toLocaleDateString s] is
    [new Date(s).toLocaleDateString()]. *)
Definition row (toLocaleDateString : string -> string)
    (item : Routes.ExportItem) : list string :=
  [Number_toString (Routes.order item);
   quoted (Routes.title item);
   between_quotes (Routes.category item);
   toLocaleDateString (Routes.publishedDate item);
   Routes.url item;
   quoted (Routes.content item);
   between_quotes (Routes.analysis item)].


End ReportsRouter.

(** *** The settings router (second half of routes/workspace.ts) *)

Module SettingsRouter.

(** The [ai] object of the PATCH body. *)
Record AIBody := mkAIBody {
  provider : option string; systemPrompt : option string;
  maxTokens : option Z; temperature : option F64.number;
  apiKey : option string; model : option string }.

Record Body := mkBody {
  ai : option AIBody; refreshInterval : option Z;
  maxArticlesPerFeed : option Z }.

Definition entry {A} (key : string) (show : A -> string) (v : option A)
    : list (string * string) :=
  match v with
  | Some x => [(key, show x)]
  | None => []
  end.

(** The list [updates] of the handler; [show] is [toString] on a
    number that may hold a fraction. *)
Definition updates (show : F64.number -> string) (body : Body)
    : list (string * string) :=
  match ai body with
  | Some ai =>
      entry "ai_provider" (fun s => s) (provider ai)
      ++ entry "ai_system_prompt" (fun s => s) (systemPrompt ai)
      ++ entry "ai_max_tokens" Number_toString (maxTokens ai)
      ++ entry "ai_temperature" show (temperature ai)
      ++ entry "ai_api_key" (fun s => s) (apiKey ai)
      ++ entry "ai_model" (fun s => s) (model ai)
  | None => []
  end
  ++ entry "refresh_interval" Number_toString (refreshInterval body)
  ++ entry "max_articles_per_feed" Number_toString (maxArticlesPerFeed body).

(** [INSERT INTO settings ... ON CONFLICT(key) DO UPDATE SET value =
    excluded.value] *)
Definition upsert (kv : string * string) (db : D1) : D1 :=
  set_settings db (<[ fst kv := snd kv ]> (settings db)).

(** PATCH /api/settings *)
Definition patch (show : F64.number -> string) (db : D1) (body : Body)
    : Reply bool * D1 :=
  match updates show body with
  | [] =>
      (Failure 400 "No updates provided"
         (Some "At least one setting must be updated"), db)
  | us => (Json 200 true, fold_left (fun d kv => upsert kv d) us db)
  end.

Definition defaultSettings : list (string * string) :=
  [("ai_provider", "cloudflare");
   ("ai_system_prompt",
    "You are a factual, neutral geopolitical analyst. Your task is to summarize the following article. Extract only the key facts, policy statements, and strategic arguments. Avoid speculative language and journalistic flair. Present the summary as a series of bullet points. The summary must be concise and no more than 150 words.");
   ("ai_max_tokens", "150");
   ("ai_temperature", "0.3");
   ("refresh_interval", "30");
   ("max_articles_per_feed", "50")].

(** POST /api/settings/reset: [DELETE FROM settings], then the six
    INSERTs. *)
Definition reset (db : D1) : D1 :=
  fold_left (fun d kv => upsert kv d) defaultSettings (set_settings db ∅).

(** The [structuredSettings] of GET /api/settings. *)
Record AIView := mkAIView {
  view_provider : string; view_systemPrompt : string;
  view_maxTokens : option Z; view_temperature : F64.number;
  view_apiKey : option string; view_model : option string }.

Record View := mkView {
  view_ai : AIView; view_refreshInterval : option Z;
  view_maxArticlesPerFeed : option Z }.

Definition get (P : Platform) (db : D1) : View :=
  let setting key fallback :=
    FeedFetcher.or_else (settings db !! key) fallback in
  mkView
    (mkAIView
       (setting "ai_provider" "cloudflare")
       (setting "ai_system_prompt"
          "You are a factual, neutral geopolitical analyst...")
       (Text.parseInt (setting "ai_max_tokens" "150"))
       (parseFloat P (setting "ai_temperature" "0.3"))
       (truthy (settings db !! "ai_api_key"))
       (truthy (settings db !! "ai_model")))
    (Text.parseInt (setting "refresh_interval" "30"))
    (Text.parseInt (setting "max_articles_per_feed" "50")).

End SettingsRouter.

(** ** Notions used by the further properties *)

(** The text that [createSnippet] starts from. *)
Definition snippet_source (item : RSSItem.t) : string :=
  FeedFetcher.or_else (RSSItem.contentSnippet item)
    (FeedFetcher.or_else (RSSItem.content item)
       (FeedFetcher.or_else (RSSItem.title item) "")).

(** The row that one turn of the loop of [fetchFeed] stores for [item]
    of [feed]. *)
Definition stored_for (P : Platform) (c : Call) (feed : RSSFeed.t)
    (item : RSSItem.t) (row : ArticleRow.t) : Prop :=
  truthy (RSSItem.link item) = Some (ArticleRow.url row)
  /\ (exists title, truthy (RSSItem.title item) = Some title
                    /\ ArticleRow.title row = FeedFetcher.cleanText title)
  /\ ArticleRow.content row = FeedFetcher.extractContent item
  /\ ArticleRow.snippet row = FeedFetcher.createSnippet item 200
  /\ ArticleRow.published_at row = FeedFetcher.parseDate P c (RSSItem.pubDate item)
  /\ ArticleRow.feed_id row = RSSFeed.id feed
  /\ ArticleRow.category row = truthy (Some (RSSFeed.category feed))
  /\ ArticleRow.is_read row = false
  /\ ArticleRow.is_archived row = false
  /\ ArticleRow.summary row = None
  /\ ArticleRow.analysis row = None.

(** The feed row after [UPDATE rss_feeds SET last_fetched = ?]. *)
Definition stamped (c : Call) (r : RSSFeedRow.t) : RSSFeedRow.t :=
  RSSFeedRow.mk (RSSFeedRow.id r) (RSSFeedRow.name r) (RSSFeedRow.url r)
    (RSSFeedRow.category r) (RSSFeedRow.is_active r) (Some (now c))
    (RSSFeedRow.created_at r) (datetime_now c).

(** ** More sample data *)

Module Cases.

Definition entry : RSSItem.t :=
  RSSItem.mk (Some "Sea Lanes  of the <b>North</b>")
    (Some "https://www.cfr.org/a3") (Some "<p>Ice &amp; routes.</p>")
    None None (Some "2025-01-04T00:00:00.000Z") None.

(** A platform whose feed documents hold the one entry above. *)
Definition one_entry : Platform :=
  mkPlatform (fun _ => Ok [entry]) (fun s => Some s) (fun _ _ => AI_other)
             (fun _ => F64.c0_3).

(** A workspace with the two sample articles, in the order a1, a2. *)
Definition desk : D1 :=
  mkD1 [Sample.feed true] [Sample.a1; Sample.a2]
       [Sample.item "w1" "a1" 0 None None; Sample.item "w2" "a2" 1 None None]
       [] [] ∅.

(** A platform whose AI binding answers every call with one sentence. *)
Definition analyst : Platform :=
  mkPlatform (fun _ => Ok []) (fun s => Some s)
             (fun _ _ => AI_response " Tariffs stay; talks go on. ")
             (fun _ => F64.c0_3).

(** A platform whose AI binding answers every call with one vector. *)
Definition embedder : Platform :=
  mkPlatform (fun _ => Ok []) (fun s => Some s)
             (fun _ _ => AI_data [[F64.zero]])
             (fun _ => F64.c0_3).

End Cases.

(** The foreign keys of schema.sql: every [feed_id] of an article is
    the id of a feed, every [article_id] of a workspace item the id of
    an article, and a report item names a report and a workspace
    item. *)
Definition references_hold (db : D1) : Prop :=
  incl (map ArticleRow.feed_id (articles db))
       (map RSSFeedRow.id (rss_feeds db))
  /\ incl (map WorkspaceItemRow.article_id (workspace_items db))
          (map ArticleRow.id (articles db))
  /\ incl (map ReportItemRow.report_id (report_items db))
          (map ReportRow.id (reports db))
  /\ incl (map ReportItemRow.workspace_item_id (report_items db))
          (map WorkspaceItemRow.id (workspace_items db)).

(** The workspace holds an article at most once, and its items have
    distinct ids and distinct positions. *)
Definition workspace_distinct (db : D1) : Prop :=
  NoDup (map WorkspaceItemRow.id (workspace_items db))
  /\ NoDup (map WorkspaceItemRow.article_id (workspace_items db))
  /\ NoDup (map WorkspaceItemRow.order_index (workspace_items db)).

(** The key constraints of the [rss_feeds] table. *)
Definition feeds_distinct (db : D1) : Prop :=
  NoDup (map RSSFeedRow.id (rss_feeds db))
  /\ NoDup (map RSSFeedRow.url (rss_feeds db)).

(** The value that a list of updates leaves under [key]: that of the
    last update of the key. *)
Definition last_update (key : string) (us : list (string * string))
    : option string :=
  fold_left (fun acc kv => if String.eqb (fst kv) key then Some (snd kv) else acc)
            us None.

(** The settings table without a row. *)
Definition no_settings (db : D1) : D1 := set_settings db ∅.



(** Evaluates [digit_of] on a character that is given. *)
Ltac read_digit :=
  match goal with
  | |- context [Text.digit_of ?c] =>
      let v := eval vm_compute in (Text.digit_of c) in
      change (Text.digit_of c) with v; cbv iota beta
  end.

(** A text is tidy when it has no white space at either end, and
    inside only single SPACE characters between other characters. *)
Definition starts_space (s : string) : bool :=
  match s with
  | String c _ => JS.is_space c
  | EmptyString => false
  end.

Fixpoint ends_space (s : string) : bool :=
  match s with
  | EmptyString => false
  | String c EmptyString => JS.is_space c
  | String _ r => ends_space r
  end.

Fixpoint single_spaces (s : string) : bool :=
  match s with
  | EmptyString => true
  | String c r =>
      (if JS.is_space c then Ascii.eqb c " " && negb (starts_space r)
       else true)
      && single_spaces r
  end.

Definition tidy (s : string) : bool :=
  negb (starts_space s) && negb (ends_space s) && single_spaces s.

(** A patched flag: the supplied value, else the prior one. *)
Definition supplied_flag (new : option bool) (old : bool) : bool :=
  match new with Some v => v | None => old end.

(** What [updateArticle] leaves of an article row. *)
Definition article_kept (r r' : ArticleRow.t) : Prop :=
  ArticleRow.id r' = ArticleRow.id r
  /\ ArticleRow.feed_id r' = ArticleRow.feed_id r
  /\ ArticleRow.title r' = ArticleRow.title r
  /\ ArticleRow.content r' = ArticleRow.content r
  /\ ArticleRow.snippet r' = ArticleRow.snippet r
  /\ ArticleRow.author r' = ArticleRow.author r
  /\ ArticleRow.published_at r' = ArticleRow.published_at r
  /\ ArticleRow.url r' = ArticleRow.url r
  /\ ArticleRow.category r' = ArticleRow.category r
  /\ ArticleRow.created_at r' = ArticleRow.created_at r.

(** * Properties *)

(** ** Lists, sorting *)

Section ListFacts.
Context {A : Type}.

Lemma insert_by_Permutation (before : A -> A -> bool) x (l : list A) :
  Permutation (insert_by before x l) (x :: l).
Proof.
  induction l as [|y r IH]; simpl; [reflexivity|].
  destruct (before x y); [reflexivity|].
  rewrite IH. apply perm_swap.
Qed.

Lemma sort_by_Permutation (before : A -> A -> bool) (l : list A) :
  Permutation (sort_by before l) l.
Proof.
  induction l as [|x r IH]; simpl; [reflexivity|].
  rewrite insert_by_Permutation. now constructor.
Qed.

Lemma sort_by_length (before : A -> A -> bool) (l : list A) :
  List.length (sort_by before l) = List.length l.
Proof. apply Permutation_length, sort_by_Permutation. Qed.

Lemma sort_by_In (before : A -> A -> bool) (l : list A) x :
  In x (sort_by before l) <-> In x l.
Proof.
  split; apply Permutation_in;
    [|symmetry]; apply sort_by_Permutation.
Qed.

(** Neighbours of a sorted list are in order as soon as [before] never
    fails in both directions. *)
Lemma insert_by_chain (before : A -> A -> bool) x l :
  (forall a b, before a b = false -> before b a = true) ->
  chain (fun a b => before a b = true) l ->
  chain (fun a b => before a b = true) (insert_by before x l).
Proof.
  intros Htot. induction 1 as [|y|y z l Hyz Hl IH]; simpl.
  - constructor.
  - destruct (before x y) eqn:E; repeat constructor; auto.
  - destruct (before x y) eqn:E.
    + repeat constructor; auto.
    + simpl in IH. destruct (before x z) eqn:E2.
      * constructor; [auto|]. constructor; auto.
      * constructor; auto.
Qed.

Lemma sort_by_chain (before : A -> A -> bool) l :
  (forall a b, before a b = false -> before b a = true) ->
  chain (fun a b => before a b = true) (sort_by before l).
Proof.
  intros Htot. induction l as [|x r IH]; simpl.
  - constructor.
  - now apply insert_by_chain.
Qed.

(** With a transitive [before] every earlier element is in order with
    every later one. *)
Lemma chain_StronglySorted (R : A -> A -> Prop) l :
  (forall a b c, R a b -> R b c -> R a c) ->
  chain R l -> StronglySorted R l.
Proof.
  intros Htr. induction 1 as [|x|x y l Hxy Hl IH].
  - constructor.
  - repeat constructor.
  - constructor; [exact IH|].
    inversion IH as [|? ? _ Hall]; subst.
    constructor; [exact Hxy|].
    eapply List.Forall_impl; [|exact Hall]. intros c Hc. simpl in Hc. eauto.
Qed.

End ListFacts.

Lemma chain_impl {A} (R R' : A -> A -> Prop) (l : list A) :
  (forall x y, R x y -> R' x y) -> chain R l -> chain R' l.
Proof. intros H. induction 1; constructor; auto. Qed.

(** ** The order of a new workspace item *)

Lemma fold_max_ge (r : list Z) (x : Z) :
  x <= fold_left Z.max r x /\ Forall (fun y => y <= fold_left Z.max r x) r.
Proof.
  revert x. induction r as [|y r IH]; intros x; simpl.
  - split; [lia|constructor].
  - destruct (IH (Z.max x y)) as [H1 H2]. split; [lia|].
    constructor; [lia|exact H2].
Qed.

Lemma fold_max_In (r : list Z) (x : Z) :
  In (fold_left Z.max r x) (x :: r).
Proof.
  revert x. induction r as [|y r IH]; intros x; [now left|].
  change (fold_left Z.max (y :: r) x) with (fold_left Z.max r (Z.max x y)).
  destruct (IH (Z.max x y)) as [H|H].
  - rewrite <- H.
    destruct (Z.max_spec x y) as [[_ E]|[_ E]]; rewrite E;
      [right; left|left]; reflexivity.
  - right; right; exact H.
Qed.

(** [MAX] gives an element of the column that bounds every other. *)
Lemma sql_max_greatest (xs : list Z) (m : Z) :
  DatabaseService.sql_max xs = Some m ->
  In m xs /\ Forall (fun y => y <= m) xs.
Proof.
  destruct xs as [|x r]; simpl; [discriminate|].
  intros [= <-]. split.
  - apply fold_max_In.
  - destruct (fold_max_ge r x). now constructor.
Qed.

Lemma greatest_unique (xs : list Z) (m m' : Z) :
  In m xs -> Forall (fun y => y <= m) xs ->
  In m' xs -> Forall (fun y => y <= m') xs -> m = m'.
Proof.
  rewrite !List.Forall_forall. intros H1 H2 H3 H4.
  specialize (H2 _ H3). specialize (H4 _ H1). lia.
Qed.

Lemma next_order_empty (db : D1) :
  workspace_items db = [] -> DatabaseService.next_order db = 0.
Proof. unfold DatabaseService.next_order. now intros ->. Qed.

Lemma next_order_max (db : D1) (m : Z) :
  In m (map WorkspaceItemRow.order_index (workspace_items db)) ->
  Forall (fun y => y <= m) (map WorkspaceItemRow.order_index (workspace_items db)) ->
  DatabaseService.next_order db = m + 1.
Proof.
  unfold DatabaseService.next_order. intros Hin Hmax.
  destruct (DatabaseService.sql_max _) as [m'|] eqn:E.
  - apply sql_max_greatest in E as [E1 E2].
    now rewrite (greatest_unique _ _ _ E1 E2 Hin Hmax).
  - destruct (map _ _); [contradiction|discriminate].
Qed.

(** C1. For every workspace state, [addToWorkspace] gives the new item
    the order [m + 1], where [m] is the greatest order among the
    existing items, and the order 0 when the workspace is empty.  The
    item is returned, and stored as the last row, whenever the INSERT
    is accepted (a fresh id for an existing article). *)
Theorem addToWorkspace_order (c : Call) (db : D1) (articleId : string) :
  existsb (fun r => String.eqb (WorkspaceItemRow.id r) (randomUUID c 0%nat))
          (workspace_items db) = false ->
  existsb (fun a => String.eqb (ArticleRow.id a) articleId) (articles db) = true ->
  exists item db',
    DatabaseService.addToWorkspace c db articleId = Ok (item, db')
    /\ (workspace_items db = [] -> WorkspaceItem.order item = 0)
    /\ (forall m,
          In m (map WorkspaceItemRow.order_index (workspace_items db)) ->
          Forall (fun y => y <= m)
                 (map WorkspaceItemRow.order_index (workspace_items db)) ->
          WorkspaceItem.order item = m + 1)
    /\ WorkspaceItem.articleId item = articleId
    /\ workspace_items db' =
         (workspace_items db ++
          [WorkspaceItemRow.mk (WorkspaceItem.id item) articleId
             (WorkspaceItem.order item) None None false (now c) (now c)])%list.
Proof.
  intros Hid Hart. unfold DatabaseService.addToWorkspace.
  rewrite Hid, Hart. simpl.
  eexists _, _. split; [reflexivity|]. simpl.
  assert (Hor : (if DatabaseService.next_order db =? 0 then 0
                 else DatabaseService.next_order db)
                = DatabaseService.next_order db).
  { destruct (Z.eqb_spec (DatabaseService.next_order db) 0); congruence. }
  rewrite Hor. repeat split.
  - apply next_order_empty.
  - intros m. apply next_order_max.
Qed.


(** ** Reordering the workspace *)

Lemma set_order_rows (c : Call) (index : Z) (itemId : string) (db : D1) :
  workspace_items (Routes.set_order c index itemId db)
  = map (fun r => if String.eqb (WorkspaceItemRow.id r) itemId
                  then moved c index r else r)
        (workspace_items db).
Proof. reflexivity. Qed.

(** After the batch, each row is either untouched or carries the index
    of the last occurrence of its id. *)
Lemma reorder_from_rows (c : Call) (itemIds : list string) :
  forall (index : Z) (db : D1),
    workspace_items (Routes.reorder_from c index itemIds db)
    = map (fun r =>
             match last_position index (WorkspaceItemRow.id r) itemIds with
             | Some i => moved c i r
             | None => r
             end)
          (workspace_items db).
Proof.
  induction itemIds as [|x rest IH]; intros index db; simpl.
  - now rewrite map_id.
  - rewrite IH, set_order_rows, map_map. apply map_ext. intros r.
    destruct (String.eqb (WorkspaceItemRow.id r) x) eqn:E; simpl.
    + destruct (last_position (index + 1) (WorkspaceItemRow.id r) rest);
        reflexivity.
    + destruct (last_position (index + 1) (WorkspaceItemRow.id r) rest);
        reflexivity.
  Qed.

Lemma reorder_from_frame (c : Call) (itemIds : list string) :
  forall (index : Z) (db : D1),
    let db' := Routes.reorder_from c index itemIds db in
    rss_feeds db' = rss_feeds db /\ articles db' = articles db
    /\ reports db' = reports db /\ report_items db' = report_items db
    /\ settings db' = settings db.
Proof.
  induction itemIds as [|x rest IH]; intros index db; simpl.
  - repeat split.
  - destruct (IH (index + 1) (Routes.set_order c index x db))
      as (H1 & H2 & H3 & H4 & H5).
    simpl in *. repeat split; assumption.
Qed.

Lemma last_position_None (id : string) (itemIds : list string) :
  forall index, ~ In id itemIds -> last_position index id itemIds = None.
Proof.
  induction itemIds as [|x rest IH]; intros index Hn; simpl; [reflexivity|].
  rewrite IH by (intros H; apply Hn; now right).
  destruct (String.eqb_spec id x); [|reflexivity].
  exfalso. apply Hn. now left.
Qed.

Lemma last_position_In (id : string) (itemIds : list string) :
  forall index i, last_position index id itemIds = Some i -> In id itemIds.
Proof.
  induction itemIds as [|x rest IH]; intros index i; simpl; [discriminate|].
  destruct (last_position (index + 1) id rest) eqn:E.
  - intros _. right. eapply IH, E.
  - destruct (String.eqb_spec id x); [|discriminate]. now left.
Qed.

Lemma last_position_at (id : string) (itemIds : list string) :
  forall (index : Z) (n : nat),
    itemIds !! n = Some id ->
    (forall m : nat, (n < m)%nat -> itemIds !! m <> Some id) ->
    last_position index id itemIds = Some (index + Z.of_nat n).
Proof.
  induction itemIds as [|x rest IH]; intros index n Hn Hlast;
    [discriminate|].
  simpl. destruct n as [|n].
  - simpl in Hn. injection Hn as ->.
    rewrite last_position_None.
    + rewrite String.eqb_refl. f_equal. lia.
    + intros Hin. apply list_elem_of_In, list_elem_of_lookup in Hin as [m Hm].
      apply (Hlast (S m)); [lia|exact Hm].
  - simpl in Hn.
    rewrite (IH (index + 1) n Hn).
    + f_equal. lia.
    + intros m Hm. apply (Hlast (S m)). lia.
Qed.

(** C2. For every list [itemIds] and every workspace, the reorder gives
    a row whose id occurs in the list the index of that occurrence (of
    the last one, when the unvalidated list repeats the id); a row
    whose id is not in the list is left as it was; no row changes its
    id, article, texts, edited flag or creation time, and no other
    table changes. *)
Theorem reorder_sets_index (c : Call) (itemIds : list string) (db : D1) :
  let db' := Routes.reorder c itemIds db in
  List.Forall2
    (fun r r' =>
       (~ In (WorkspaceItemRow.id r) itemIds -> r' = r)
       /\ (forall i : nat,
             itemIds !! i = Some (WorkspaceItemRow.id r) ->
             (forall j : nat, (i < j)%nat ->
                              itemIds !! j <> Some (WorkspaceItemRow.id r)) ->
             WorkspaceItemRow.order_index r' = Z.of_nat i)
       /\ WorkspaceItemRow.id r' = WorkspaceItemRow.id r
       /\ WorkspaceItemRow.article_id r' = WorkspaceItemRow.article_id r
       /\ WorkspaceItemRow.custom_content r' = WorkspaceItemRow.custom_content r
       /\ WorkspaceItemRow.custom_analysis r' = WorkspaceItemRow.custom_analysis r
       /\ WorkspaceItemRow.is_edited r' = WorkspaceItemRow.is_edited r
       /\ WorkspaceItemRow.created_at r' = WorkspaceItemRow.created_at r)
    (workspace_items db) (workspace_items db')
  /\ rss_feeds db' = rss_feeds db /\ articles db' = articles db
  /\ reports db' = reports db /\ report_items db' = report_items db
  /\ settings db' = settings db.
Proof.
  split; [|apply reorder_from_frame].
  unfold Routes.reorder. rewrite reorder_from_rows.
  induction (workspace_items db) as [|r rows IH]; simpl; constructor;
    [|exact IH].
  split; [|split].
  - intros Hn. now rewrite last_position_None.
  - intros i Hi Hlast.
    rewrite (last_position_at _ _ 0 i Hi Hlast). simpl. lia.
  - destruct (last_position 0 (WorkspaceItemRow.id r) itemIds);
      repeat split; reflexivity.
Qed.

(** ** Editing a workspace item *)

Lemma find_map_same_id (f : WorkspaceItemRow.t -> WorkspaceItemRow.t)
    (id : string) (rows : list WorkspaceItemRow.t) :
  (forall r, WorkspaceItemRow.id (f r) = WorkspaceItemRow.id r) ->
  List.find (fun r => String.eqb (WorkspaceItemRow.id r) id) (map f rows)
  = option_map f
      (List.find (fun r => String.eqb (WorkspaceItemRow.id r) id) rows).
Proof.
  intros Hid. induction rows as [|r rows IH]; simpl; [reflexivity|].
  rewrite Hid. destruct (String.eqb (WorkspaceItemRow.id r) id);
    [reflexivity|exact IH].
Qed.

Lemma find_some_id (id : string) (rows : list WorkspaceItemRow.t) r :
  List.find (fun r => String.eqb (WorkspaceItemRow.id r) id) rows = Some r ->
  WorkspaceItemRow.id r = id.
Proof.
  intros H. apply List.find_some in H as [_ H]. now apply String.eqb_eq.
Qed.

(** What the assembled UPDATE does to the row it reaches. *)
Lemma patch_row_fields (c : Call) (updates : WorkspaceItemPatch.t)
    (r : WorkspaceItemRow.t) :
  (WorkspaceItemPatch.customContent updates <> None
   \/ WorkspaceItemPatch.customAnalysis updates <> None) ->
  let r' := DatabaseService.patch_row c updates r in
  WorkspaceItemRow.custom_content r'
    = supplied (WorkspaceItemPatch.customContent updates)
               (WorkspaceItemRow.custom_content r)
  /\ WorkspaceItemRow.custom_analysis r'
    = supplied (WorkspaceItemPatch.customAnalysis updates)
               (WorkspaceItemRow.custom_analysis r)
  /\ WorkspaceItemRow.is_edited r' = true
  /\ WorkspaceItemRow.id r' = WorkspaceItemRow.id r
  /\ WorkspaceItemRow.article_id r' = WorkspaceItemRow.article_id r
  /\ WorkspaceItemRow.order_index r' = WorkspaceItemRow.order_index r
  /\ WorkspaceItemRow.created_at r' = WorkspaceItemRow.created_at r.
Proof.
  unfold DatabaseService.patch_row.
  destruct updates as [[cc|] [ca|]]; simpl; intros [H|H];
    try congruence; repeat split; reflexivity.
Qed.

Lemma patch_row_id (c : Call) (updates : WorkspaceItemPatch.t)
    (r : WorkspaceItemRow.t) :
  WorkspaceItemRow.id (DatabaseService.patch_row c updates r)
  = WorkspaceItemRow.id r.
Proof. destruct updates as [[cc|] [ca|]]; reflexivity. Qed.

(** C8. For every existing workspace item, [updateWorkspaceItem] with
    [customContent] or [customAnalysis] (or both) defined stores exactly
    the supplied texts, keeps the text whose key is absent, and sets the
    edited flag; id, article and order of the item stay as they were,
    every other row and every other table is untouched, and the item
    handed back is the stored row. *)
Theorem updateWorkspaceItem_partial (c : Call) (db : D1) (id : string)
    (updates : WorkspaceItemPatch.t) (existing : WorkspaceItemRow.t) :
  DatabaseService.find_workspace_item db id = Some existing ->
  (WorkspaceItemPatch.customContent updates <> None
   \/ WorkspaceItemPatch.customAnalysis updates <> None) ->
  exists item db',
    DatabaseService.updateWorkspaceItem c db id updates = (Some item, db')
    /\ List.Forall2
         (fun r r' =>
            if String.eqb (WorkspaceItemRow.id r) id then
              WorkspaceItemRow.custom_content r'
                = supplied (WorkspaceItemPatch.customContent updates)
                           (WorkspaceItemRow.custom_content r)
              /\ WorkspaceItemRow.custom_analysis r'
                = supplied (WorkspaceItemPatch.customAnalysis updates)
                           (WorkspaceItemRow.custom_analysis r)
              /\ WorkspaceItemRow.is_edited r' = true
              /\ WorkspaceItemRow.id r' = WorkspaceItemRow.id r
              /\ WorkspaceItemRow.article_id r' = WorkspaceItemRow.article_id r
              /\ WorkspaceItemRow.order_index r' = WorkspaceItemRow.order_index r
              /\ WorkspaceItemRow.created_at r' = WorkspaceItemRow.created_at r
            else r' = r)
         (workspace_items db) (workspace_items db')
    /\ rss_feeds db' = rss_feeds db /\ articles db' = articles db
    /\ reports db' = reports db /\ report_items db' = report_items db
    /\ settings db' = settings db
    /\ WorkspaceItem.isEdited item = true
    /\ WorkspaceItem.id item = id
    /\ WorkspaceItem.articleId item = WorkspaceItemRow.article_id existing
    /\ WorkspaceItem.order item = WorkspaceItemRow.order_index existing
    /\ WorkspaceItem.customContent item
       = truthy (supplied (WorkspaceItemPatch.customContent updates)
                          (WorkspaceItemRow.custom_content existing))
    /\ WorkspaceItem.customAnalysis item
       = truthy (supplied (WorkspaceItemPatch.customAnalysis updates)
                          (WorkspaceItemRow.custom_analysis existing)).
Proof.
  intros Hfind Hsome.
  pose proof (find_some_id _ _ _ Hfind) as Hid.
  pose proof (patch_row_fields c updates existing Hsome)
    as (F1 & F2 & F3 & F4 & F5 & F6 & F7).
  exists (DatabaseService.mapWorkspaceItemRow
            (DatabaseService.patch_row c updates existing)).
  exists (set_workspace_items db
            (map (fun r => if String.eqb (WorkspaceItemRow.id r) id
                           then DatabaseService.patch_row c updates r else r)
                 (workspace_items db))).
  split.
  - unfold DatabaseService.updateWorkspaceItem. rewrite Hfind.
    assert (Hback :
      DatabaseService.find_workspace_item
        (set_workspace_items db
           (map (fun r => if String.eqb (WorkspaceItemRow.id r) id
                          then DatabaseService.patch_row c updates r else r)
                (workspace_items db))) id
      = Some (DatabaseService.patch_row c updates existing)).
    { unfold DatabaseService.find_workspace_item in *. simpl.
      rewrite find_map_same_id.
      - rewrite Hfind. simpl. rewrite <- Hid at 1.
        now rewrite String.eqb_refl.
      - intros r. destruct (String.eqb (WorkspaceItemRow.id r) id);
          [apply patch_row_id|reflexivity]. }
    destruct updates as [[cc|] [ca|]]; simpl in *;
      try (rewrite Hback; reflexivity).
    destruct Hsome; congruence.
  - split.
    + simpl. induction (workspace_items db) as [|r rows IH]; simpl;
        constructor; [|exact IH].
      destruct (String.eqb (WorkspaceItemRow.id r) id); [|reflexivity].
      apply patch_row_fields, Hsome.
    + repeat split; try reflexivity;
        unfold DatabaseService.mapWorkspaceItemRow;
        cbn -[DatabaseService.patch_row]; congruence.
Qed.

(** ** Articles are keyed by their url *)

Lemma existsb_eqb_In {A} (f : A -> string) (x : string) (l : list A) :
  existsb (fun r => String.eqb (f r) x) l = true <-> In x (map f l).
Proof.
  rewrite existsb_exists, in_map_iff. split.
  - intros (r & Hin & E). apply String.eqb_eq in E. eauto.
  - intros (r & E & Hin). exists r. split; [exact Hin|].
    now apply String.eqb_eq.
Qed.

Lemma existsb_eqb_not_In {A} (f : A -> string) (x : string) (l : list A) :
  existsb (fun r => String.eqb (f r) x) l = false <-> ~ In x (map f l).
Proof.
  rewrite <- existsb_eqb_In. now destruct (existsb _ l).
Qed.

Lemma NoDup_map_snoc {A} (f : A -> string) (l : list A) (x : A) :
  NoDup (map f l) -> ~ In (f x) (map f l) -> NoDup (map f (l ++ [x])).
Proof.
  intros Hnd Hn. rewrite map_app. simpl.
  apply NoDup_app. split; [exact Hnd|]. split.
  - intros y Hy Hy'. apply list_elem_of_In in Hy.
    apply list_elem_of_singleton in Hy'. subst. contradiction.
  - apply NoDup_singleton.
Qed.

Lemma NoDup_map_filter {A} (f : A -> string) (p : A -> bool) (l : list A) :
  NoDup (map f l) -> NoDup (map f (List.filter p l)).
Proof.
  induction l as [|x l IH]; simpl; [auto|].
  rewrite NoDup_cons. intros [Hx Hl].
  destruct (p x); simpl; [|auto].
  apply NoDup_cons. split; [|auto].
  intros Hin. apply Hx.
  apply list_elem_of_In in Hin. apply list_elem_of_In.
  apply in_map_iff in Hin as (y & E & Hy).
  apply filter_In in Hy as [Hy _]. apply in_map_iff. eauto.
Qed.

(** The INSERT keeps both keys, and fails on a url that is taken. *)
Lemma createArticle_keys (c : Call) (k : nat) (db db' : D1)
    (article : NewArticle.t) (a : Article.t) :
  DatabaseService.createArticle c k db article = Ok (a, db') ->
  (urls_unique db -> urls_unique db')
  /\ (ids_unique db -> ids_unique db')
  /\ rss_feeds db' = rss_feeds db /\ settings db' = settings db
  /\ exists row, articles db' = (articles db ++ [row])%list
                 /\ ArticleRow.url row = NewArticle.url article
                 /\ ArticleRow.feed_id row = NewArticle.feedId article.
Proof.
  unfold DatabaseService.createArticle.
  destruct (existsb _ (articles db)) eqn:Eid; [discriminate|].
  destruct (existsb (fun r => String.eqb (ArticleRow.url r) _) _) eqn:Eurl;
    [discriminate|].
  destruct (negb _); [discriminate|].
  intros [= <- <-]. unfold urls_unique, ids_unique. simpl.
  apply existsb_eqb_not_In in Eid, Eurl.
  split; [|split; [|split; [|split]]]; try reflexivity.
  - intros H. now apply NoDup_map_snoc.
  - intros H. now apply NoDup_map_snoc.
  - eexists. split; [reflexivity|]. split; reflexivity.
Qed.

Lemma createArticle_taken_url (c : Call) (k : nat) (db : D1)
    (article : NewArticle.t) :
  In (NewArticle.url article) (map ArticleRow.url (articles db)) ->
  exists msg, DatabaseService.createArticle c k db article = Throw msg.
Proof.
  intros Hin. apply existsb_eqb_In in Hin.
  unfold DatabaseService.createArticle. rewrite Hin.
  destruct (existsb (fun r => String.eqb (ArticleRow.id r) _) _);
    eexists; reflexivity.
Qed.

(** One turn of the loop either leaves the table alone or appends one
    row of the feed with a url that was not there. *)
Lemma process_item_cases (P : Platform) (c : Call) (feed : RSSFeed.t)
    (db : D1) (added : Z) (k : nat) (item : RSSItem.t) :
  let '(db', added', k') :=
    FeedFetcher.process_item P c feed (db, added, k) item in
  rss_feeds db' = rss_feeds db /\ settings db' = settings db
  /\ (urls_unique db -> urls_unique db')
  /\ (ids_unique db -> ids_unique db')
  /\ ((db' = db /\ added' = added)
      \/ (added' = added + 1
          /\ exists row link,
               articles db' = (articles db ++ [row])%list
               /\ truthy (RSSItem.link item) = Some link
               /\ ArticleRow.url row = link
               /\ ArticleRow.feed_id row = RSSFeed.id feed
               /\ ~ In link (map ArticleRow.url (articles db)))).
Proof.
  unfold FeedFetcher.process_item.
  destruct (truthy (RSSItem.link item)) as [link|];
    [|repeat split; auto].
  destruct (truthy (RSSItem.title item)) as [title|];
    [|repeat split; auto].
  destruct (existsb _ (articles db)) eqn:Eurl; [repeat split; auto|].
  destruct (DatabaseService.createArticle _ _ _ _) as [[a db']|msg] eqn:E;
    [|repeat split; auto].
  apply createArticle_keys in E as (H1 & H2 & H3 & H4 & row & H5 & H6 & H7).
  simpl in *. repeat split; auto.
  right. split; [reflexivity|]. exists row, link.
  repeat split; auto. now apply existsb_eqb_not_In.
Qed.

Lemma process_items_keys (P : Platform) (c : Call) (feed : RSSFeed.t)
    (items : list RSSItem.t) :
  forall (db : D1) (added : Z) (k : nat),
    let '(db', _, _) :=
      fold_left (FeedFetcher.process_item P c feed) items (db, added, k) in
    rss_feeds db' = rss_feeds db /\ settings db' = settings db
    /\ (urls_unique db -> urls_unique db')
    /\ (ids_unique db -> ids_unique db').
Proof.
  induction items as [|item items IH]; intros db added k; cbn [fold_left].
  - repeat split; auto.
  - pose proof (process_item_cases P c feed db added k item) as H.
    destruct (FeedFetcher.process_item P c feed (db, added, k) item)
      as [[db1 added1] k1].
    destruct H as (H1 & H2 & H3 & H4 & _).
    specialize (IH db1 added1 k1).
    destruct (fold_left (FeedFetcher.process_item P c feed) items
                (db1, added1, k1)) as [[db2 added2] k2].
    destruct IH as (I1 & I2 & I3 & I4).
    repeat split; try congruence; auto.
Qed.

Lemma updateRSSFeed_frame (c : Call) (db : D1) (id lastFetched : string) :
  let db' := snd (DatabaseService.updateRSSFeed c db id lastFetched) in
  articles db' = articles db /\ settings db' = settings db
  /\ workspace_items db' = workspace_items db
  /\ report_items db' = report_items db.
Proof.
  unfold DatabaseService.updateRSSFeed.
  destruct (DatabaseService.getRSSFeed db id); simpl; repeat split.
Qed.

Lemma cleanupOldArticles_keys (db : D1) (feedId : string) (n : option Z) :
  let db' := FeedFetcher.cleanupOldArticles db feedId n in
  (urls_unique db -> urls_unique db') /\ (ids_unique db -> ids_unique db')
  /\ settings db' = settings db.
Proof.
  unfold FeedFetcher.cleanupOldArticles, urls_unique, ids_unique.
  destruct n as [n|]; simpl; [|auto].
  repeat split; try apply NoDup_map_filter.
Qed.

Lemma fetchFeed_keys (P : Platform) (c : Call) (db : D1) (feedId : string) :
  let db' := snd (FeedFetcher.fetchFeed P c db feedId) in
  (urls_unique db -> urls_unique db') /\ (ids_unique db -> ids_unique db')
  /\ settings db' = settings db.
Proof.
  unfold FeedFetcher.fetchFeed.
  destruct (DatabaseService.getRSSFeed db feedId) as [feed|]; [|simpl; auto].
  destruct (RSSFeed.isActive feed); [|simpl; auto].
  destruct (parseURL P (RSSFeed.url feed)) as [items|msg]; [|simpl; auto].
  pose proof (process_items_keys P c feed
                (FeedFetcher.recent (FeedFetcher.getMaxArticlesPerFeed db) items)
                db 0 O) as H.
  unfold FeedFetcher.ingest.
  destruct (fold_left (FeedFetcher.process_item P c feed) _ (db, 0, O))
    as [[db1 added] k].
  destruct H as (H1 & H2 & H3 & H4). simpl.
  pose proof (updateRSSFeed_frame c db1 feedId (now c)) as (U1 & U2 & _).
  pose proof (cleanupOldArticles_keys
                (snd (DatabaseService.updateRSSFeed c db1 feedId (now c)))
                feedId (FeedFetcher.getMaxArticlesPerFeed db)) as (C1 & C2 & C3).
  unfold urls_unique, ids_unique in *. simpl in *.
  rewrite U1 in C1, C2.
  repeat split; auto. congruence.
Qed.

(** C4. The urls of the articles are pairwise distinct, and [fetchFeed]
    keeps them so; an INSERT with a url that is taken is rejected; and
    inside [fetchFeed] the turn of the loop for an entry whose link
    equals the url of an existing row is a no-op: the database, and so
    the articles table, is the same afterwards, and nothing is counted
    as added. *)
Theorem fetchFeed_dedup_by_url (P : Platform) (c : Call) (db : D1) :
  urls_unique db ->
  (forall feedId, urls_unique (snd (FeedFetcher.fetchFeed P c db feedId)))
  /\ (forall k article,
        In (NewArticle.url article) (map ArticleRow.url (articles db)) ->
        exists msg, DatabaseService.createArticle c k db article = Throw msg)
  /\ (forall feed added k item link,
        RSSItem.link item = Some link ->
        In link (map ArticleRow.url (articles db)) ->
        FeedFetcher.process_item P c feed (db, added, k) item
        = (db, added, k)).
Proof.
  intros Hu. split; [|split].
  - intros feedId. now apply fetchFeed_keys.
  - intros k article. apply createArticle_taken_url.
  - intros feed added k item link Hlink Hin.
    unfold FeedFetcher.process_item. rewrite Hlink. simpl.
    destruct (String.eqb link ""); [reflexivity|].
    destruct (truthy (RSSItem.title item)); [|reflexivity].
    apply existsb_eqb_In in Hin. now rewrite Hin.
Qed.

(** ** The result of a fetch *)

Lemma process_item_no_link (P : Platform) (c : Call) (feed : RSSFeed.t)
    (st : FeedFetcher.LoopState) (item : RSSItem.t) :
  truthy (RSSItem.link item) = None \/ truthy (RSSItem.title item) = None ->
  FeedFetcher.process_item P c feed st item = st.
Proof.
  destruct st as [[db added] k]. unfold FeedFetcher.process_item.
  intros [H|H]; rewrite H; [reflexivity|].
  now destruct (truthy (RSSItem.link item)).
Qed.

(** An INSERT that is rejected (here: the drawn id is taken) is caught:
    the entry is passed over, the table and the counter stay. *)
Lemma process_item_insert_fails (P : Platform) (c : Call) (feed : RSSFeed.t)
    (db : D1) (added : Z) (k : nat) (item : RSSItem.t) (link title : string) :
  truthy (RSSItem.link item) = Some link ->
  truthy (RSSItem.title item) = Some title ->
  existsb (fun r => String.eqb (ArticleRow.url r) link) (articles db) = false ->
  existsb (fun r => String.eqb (ArticleRow.id r) (randomUUID c k))
          (articles db) = true ->
  FeedFetcher.process_item P c feed (db, added, k) item = (db, added, S k).
Proof.
  intros Hl Ht Hurl Hid. unfold FeedFetcher.process_item.
  rewrite Hl, Ht, Hurl.
  unfold DatabaseService.createArticle. now rewrite Hid.
Qed.

(** C5, as the code has it.  [fetchFeed] never throws.  It returns
    [success: false] with the message 'Feed not found or inactive', and
    leaves the database alone, when the feed is missing or inactive; it
    returns [success: false] with the message of the exception, and
    leaves the database alone, when fetching the feed document throws;
    these are the only results with [success: false].  Whatever the
    entries of a document that was fetched (without link or title, or
    with an INSERT that is rejected), the result is [success: true]
    without a message. *)
Theorem fetchFeed_result (P : Platform) (c : Call) (db : D1) (feedId : string) :
  let r := fst (FeedFetcher.fetchFeed P c db feedId) in
  let db' := snd (FeedFetcher.fetchFeed P c db feedId) in
  (* missing or inactive *)
  ((DatabaseService.getRSSFeed db feedId = None
    \/ exists feed, DatabaseService.getRSSFeed db feedId = Some feed
                    /\ RSSFeed.isActive feed = false) ->
   r = FeedFetcher.mkFetchResult false 0 (Some "Feed not found or inactive")
   /\ db' = db)
  (* the document cannot be fetched *)
  /\ (forall feed msg,
        DatabaseService.getRSSFeed db feedId = Some feed ->
        RSSFeed.isActive feed = true ->
        parseURL P (RSSFeed.url feed) = Throw msg ->
        r = FeedFetcher.mkFetchResult false 0 (Some msg) /\ db' = db)
  (* the document is fetched *)
  /\ (forall feed items,
        DatabaseService.getRSSFeed db feedId = Some feed ->
        RSSFeed.isActive feed = true ->
        parseURL P (RSSFeed.url feed) = Ok items ->
        FeedFetcher.success r = true /\ FeedFetcher.error r = None)
  (* nothing else fails *)
  /\ (FeedFetcher.success r = false ->
      (DatabaseService.getRSSFeed db feedId = None
       /\ FeedFetcher.error r = Some "Feed not found or inactive")
      \/ (exists feed,
            DatabaseService.getRSSFeed db feedId = Some feed
            /\ RSSFeed.isActive feed = false
            /\ FeedFetcher.error r = Some "Feed not found or inactive")
      \/ (exists feed msg,
            DatabaseService.getRSSFeed db feedId = Some feed
            /\ RSSFeed.isActive feed = true
            /\ parseURL P (RSSFeed.url feed) = Throw msg
            /\ FeedFetcher.error r = Some msg))
  (* entries that are skipped *)
  /\ (forall feed st item,
        truthy (RSSItem.link item) = None \/ truthy (RSSItem.title item) = None ->
        FeedFetcher.process_item P c feed st item = st)
  /\ (forall feed db0 added k item link title,
        truthy (RSSItem.link item) = Some link ->
        truthy (RSSItem.title item) = Some title ->
        existsb (fun r => String.eqb (ArticleRow.url r) link) (articles db0)
        = false ->
        existsb (fun r => String.eqb (ArticleRow.id r) (randomUUID c k))
                (articles db0) = true ->
        FeedFetcher.process_item P c feed (db0, added, k) item
        = (db0, added, S k)).
Proof.
  assert (Hskip : forall feed st item,
        truthy (RSSItem.link item) = None \/ truthy (RSSItem.title item) = None ->
        FeedFetcher.process_item P c feed st item = st)
    by (intros; now apply process_item_no_link).
  assert (Hfail : forall feed db0 added k item link title,
        truthy (RSSItem.link item) = Some link ->
        truthy (RSSItem.title item) = Some title ->
        existsb (fun r => String.eqb (ArticleRow.url r) link) (articles db0)
        = false ->
        existsb (fun r => String.eqb (ArticleRow.id r) (randomUUID c k))
                (articles db0) = true ->
        FeedFetcher.process_item P c feed (db0, added, k) item
        = (db0, added, S k))
    by (intros; eapply process_item_insert_fails; eauto).
  revert Hskip Hfail.
  generalize (forall feed st item,
        truthy (RSSItem.link item) = None \/ truthy (RSSItem.title item) = None ->
        FeedFetcher.process_item P c feed st item = st).
  generalize (forall feed db0 added k item link title,
        truthy (RSSItem.link item) = Some link ->
        truthy (RSSItem.title item) = Some title ->
        existsb (fun r => String.eqb (ArticleRow.url r) link) (articles db0)
        = false ->
        existsb (fun r => String.eqb (ArticleRow.id r) (randomUUID c k))
                (articles db0) = true ->
        FeedFetcher.process_item P c feed (db0, added, k) item
        = (db0, added, S k)).
  intros Q2 Q1 Hskip Hfail.
  cbv zeta. unfold FeedFetcher.fetchFeed.
  destruct (DatabaseService.getRSSFeed db feedId) as [feed|] eqn:Ef.
  - destruct (RSSFeed.isActive feed) eqn:Ea.
    + destruct (parseURL P (RSSFeed.url feed)) as [items|msg] eqn:Ep.
      * destruct (FeedFetcher.ingest P c feed _ db) as [[db1 added] k].
        simpl. split; [|split; [|split; [|split; [|split]]]]; try assumption.
        -- intros [H|(f & [= <-] & H)]; congruence.
        -- intros f msg [= <-] _ H. congruence.
        -- intros f its [= <-] _ _. split; reflexivity.
        -- discriminate.
      * simpl. split; [|split; [|split; [|split; [|split]]]]; try assumption.
        -- intros [H|(f & [= <-] & H)]; congruence.
        -- intros f m [= <-] _ H. rewrite Ep in H. injection H as ->.
           split; reflexivity.
        -- intros f its [= <-] _ H. congruence.
        -- intros _. right. right. exists feed, msg. repeat split; auto.
    + simpl. split; [|split; [|split; [|split; [|split]]]]; try assumption.
      * intros _. split; reflexivity.
      * intros f msg [= <-] H. congruence.
      * intros f its [= <-] H. congruence.
      * intros _. right. left. exists feed. repeat split; auto.
  - simpl. split; [|split; [|split; [|split; [|split]]]]; try assumption.
    + intros _. split; reflexivity.
    + intros f msg H. discriminate.
    + intros f its H. discriminate.
    + intros _. left. split; reflexivity.
Qed.

(** C5 as it is worded fails: for a feed that exists but is inactive the
    result is [success: false] together with an error message, although
    nothing at feed level throws (the platform at hand never throws). *)
Lemma fetchFeed_message_without_throw :
  let r := fst (FeedFetcher.fetchFeed Sample.quiet Sample.call
                  (Sample.db false) "feed_cfr") in
  FeedFetcher.success r = false
  /\ FeedFetcher.error r = Some "Feed not found or inactive"
  /\ (forall url, exists items, parseURL Sample.quiet url = Ok items).
Proof.
  repeat split. intros url. now exists [].
Qed.

(** ** Retention *)

Lemma ascii_compare_trans_lt (a b d : ascii) :
  Ascii.compare a b = Lt -> Ascii.compare b d = Lt -> Ascii.compare a d = Lt.
Proof. unfold Ascii.compare. rewrite !N.compare_lt_iff. lia. Qed.

Lemma string_compare_trans_lt (s1 : string) :
  forall s2 s3,
    String.compare s1 s2 = Lt -> String.compare s2 s3 = Lt ->
    String.compare s1 s3 = Lt.
Proof.
  induction s1 as [|a s1 IH]; intros [|b s2] [|d s3]; simpl;
    try discriminate; auto.
  destruct (Ascii.compare a b) eqn:Eab; try discriminate;
    destruct (Ascii.compare b d) eqn:Ebd; try discriminate.
  - apply Ascii.compare_eq_iff in Eab, Ebd. subst.
    assert (E : Ascii.compare d d = Eq) by (unfold Ascii.compare; apply N.compare_refl).
    rewrite E. apply IH.
  - apply Ascii.compare_eq_iff in Eab. subst. now rewrite Ebd.
  - apply Ascii.compare_eq_iff in Ebd. subst. now rewrite Eab.
  - now rewrite (ascii_compare_trans_lt _ _ _ Eab Ebd).
Qed.

Lemma string_compare_refl (s : string) : String.compare s s = Eq.
Proof.
  induction s as [|a s IH]; simpl; [reflexivity|].
  assert (E : Ascii.compare a a = Eq)
    by (unfold Ascii.compare; apply N.compare_refl).
  now rewrite E.
Qed.

Lemma string_leb_trans (s1 s2 s3 : string) :
  String.leb s1 s2 = true -> String.leb s2 s3 = true ->
  String.leb s1 s3 = true.
Proof.
  unfold String.leb.
  destruct (String.compare s1 s2) eqn:E12; try discriminate;
    destruct (String.compare s2 s3) eqn:E23; try discriminate; intros _ _.
  - apply String.compare_eq_iff in E12, E23. subst.
    now rewrite string_compare_refl.
  - apply String.compare_eq_iff in E12. subst. now rewrite E23.
  - apply String.compare_eq_iff in E23. subst. now rewrite E12.
  - now rewrite (string_compare_trans_lt _ _ _ E12 E23).
Qed.

Lemma newer_first_sorted (l : list ArticleRow.t) :
  StronglySorted (fun x y => newer_first x y = true) (sort_by newer_first l).
Proof.
  apply chain_StronglySorted.
  - unfold newer_first. intros a b d H1 H2. eapply string_leb_trans; eauto.
  - apply sort_by_chain. unfold newer_first. intros a b H.
    destruct (String.leb_total (ArticleRow.published_at a)
                               (ArticleRow.published_at b)); congruence.
Qed.

Lemma Permutation_filter_bool {A} (p : A -> bool) (l l' : list A) :
  Permutation l l' -> Permutation (List.filter p l) (List.filter p l').
Proof.
  induction 1 as [|x l l' _ IH|x y l|l l' l'' _ IH1 _ IH2]; simpl.
  - reflexivity.
  - destruct (p x); [now constructor|exact IH].
  - destruct (p x), (p y); try reflexivity. apply perm_swap.
  - now transitivity (List.filter p l').
Qed.

Lemma filter_all {A} (p : A -> bool) (l : list A) :
  (forall x, In x l -> p x = true) -> List.filter p l = l.
Proof.
  induction l as [|x l IH]; simpl; intros H; [reflexivity|].
  rewrite (H x) by now left. f_equal. apply IH. intros; apply H. now right.
Qed.

Lemma filter_none {A} (p : A -> bool) (l : list A) :
  (forall x, In x l -> p x = false) -> List.filter p l = [].
Proof.
  induction l as [|x l IH]; simpl; intros H; [reflexivity|].
  rewrite (H x) by now left. apply IH. intros; apply H. now right.
Qed.

Lemma existsb_id_In (a : ArticleRow.t) (keep : list string) :
  existsb (String.eqb (ArticleRow.id a)) keep = true
  <-> In (ArticleRow.id a) keep.
Proof.
  rewrite existsb_exists. split.
  - intros (x & Hin & E). apply String.eqb_eq in E. now subst.
  - intros H. exists (ArticleRow.id a). split; [exact H|apply String.eqb_refl].
Qed.

(** The rows of the feed that the clean-up leaves are those whose id
    the inner SELECT kept; the rows of other feeds all stay. *)
Lemma cleanup_articles_of (db : D1) (feedId : string) (n : Z) :
  articles_of (FeedFetcher.cleanupOldArticles db feedId (Some n)) feedId
  = List.filter
      (fun a => existsb (String.eqb (ArticleRow.id a))
                        (FeedFetcher.kept_ids db feedId n))
      (articles_of db feedId).
Proof.
  unfold articles_of, FeedFetcher.cleanupOldArticles. simpl.
  generalize (FeedFetcher.kept_ids db feedId n). intros keep.
  induction (articles db) as [|a l IH]; simpl; [reflexivity|].
  destruct (String.eqb (ArticleRow.feed_id a) feedId) eqn:E; simpl.
  - destruct (existsb (String.eqb (ArticleRow.id a)) keep); simpl.
    + rewrite E. now f_equal.
    + exact IH.
  - rewrite E. exact IH.
Qed.

Lemma cleanup_other_feeds (db : D1) (feedId other : string) (n : option Z) :
  other <> feedId ->
  articles_of (FeedFetcher.cleanupOldArticles db feedId n) other
  = articles_of db other.
Proof.
  intros Hne. unfold articles_of, FeedFetcher.cleanupOldArticles.
  destruct n as [n|]; [|reflexivity]. simpl.
  generalize (FeedFetcher.kept_ids db feedId n). intros keep.
  induction (articles db) as [|a l IH]; simpl; [reflexivity|].
  destruct (String.eqb_spec (ArticleRow.feed_id a) feedId) as [E|E]; simpl.
  - destruct (String.eqb_spec (ArticleRow.feed_id a) other) as [E'|E'];
      [congruence|].
    destruct (existsb _ keep); simpl; [|exact IH].
    destruct (String.eqb_spec (ArticleRow.feed_id a) other); [congruence|].
    exact IH.
  - destruct (String.eqb (ArticleRow.feed_id a) other); [now f_equal|exact IH].
Qed.

(** With unique ids and a non-negative limit, the rows that stay are the
    first [n] of the feed's rows in the order of the SELECT. *)
Lemma cleanup_survivors (db : D1) (feedId : string) (n : Z) :
  ids_unique db -> 0 <= n ->
  Permutation
    (articles_of (FeedFetcher.cleanupOldArticles db feedId (Some n)) feedId)
    (take (Z.to_nat n) (sort_by newer_first (articles_of db feedId))).
Proof.
  intros Hids Hn. rewrite cleanup_articles_of.
  unfold FeedFetcher.kept_ids. fold (articles_of db feedId).
  fold newer_first.
  destruct (Z.ltb_spec n 0) as [|_]; [lia|].
  set (L := articles_of db feedId).
  set (S := sort_by newer_first L).
  assert (HndL : NoDup (map ArticleRow.id L)).
  { unfold L, articles_of. apply NoDup_map_filter, Hids. }
  assert (HP : Permutation L S) by (symmetry; apply sort_by_Permutation).
  assert (HndS : NoDup (map ArticleRow.id S)).
  { assert (HPm : Permutation (map ArticleRow.id L) (map ArticleRow.id S))
      by now apply Permutation_map.
    now rewrite <- HPm. }
  rewrite (Permutation_filter_bool _ _ _ HP).
  assert (Htd : S = (take (Z.to_nat n) S ++ drop (Z.to_nat n) S)%list)
    by now rewrite take_drop.
  set (T := take (Z.to_nat n) S) in *.
  set (D := drop (Z.to_nat n) S) in *.
  rewrite Htd in HndS.
  rewrite map_app in HndS. apply NoDup_app in HndS as (_ & Hdisj & _).
  rewrite Htd, List.filter_app, filter_all, filter_none.
  - now rewrite app_nil_r.
  - intros x Hx.
    destruct (existsb _ _) eqn:E; [|reflexivity].
    apply existsb_id_In in E. exfalso.
    apply (Hdisj (ArticleRow.id x)).
    + now apply list_elem_of_In.
    + apply list_elem_of_In, in_map, Hx.
  - intros x Hx. apply existsb_id_In, in_map, Hx.
Qed.

Lemma StronglySorted_app_order {A} (R : A -> A -> Prop) (l1 l2 : list A) :
  StronglySorted R (l1 ++ l2) ->
  forall x y, In x l1 -> In y l2 -> R x y.
Proof.
  induction l1 as [|a l1 IH]; simpl; intros Hs x y Hx Hy; [contradiction|].
  inversion Hs as [|? ? Hs' Hall]; subst.
  destruct Hx as [<-|Hx].
  - rewrite List.Forall_forall in Hall. apply Hall, in_or_app. now right.
  - now apply IH.
Qed.

(** C3, as the code has it.  When the feed exists, is active, and its
    document can be fetched, and the setting is a non-negative integer
    [n], [fetchFeed] leaves at most [n] articles for that feed: the
    clean-up keeps the first [n] of the feed's rows in the order of
    [published_at DESC] and deletes the others, so every deleted row
    was published no later than every row that stays; rows of other
    feeds are not trimmed; without a stored setting [n] is 50.  (When the feed is missing or inactive or
    the document cannot be fetched, [fetchFeed] returns before the
    clean-up.) *)
Theorem fetchFeed_trims (P : Platform) (c : Call) (db : D1) (feedId : string)
    (feed : RSSFeed.t) (items : list RSSItem.t) (n : Z) :
  ids_unique db ->
  DatabaseService.getRSSFeed db feedId = Some feed ->
  RSSFeed.isActive feed = true ->
  parseURL P (RSSFeed.url feed) = Ok items ->
  FeedFetcher.getMaxArticlesPerFeed db = Some n ->
  0 <= n ->
  let db1 :=
    fst (fst (FeedFetcher.ingest P c feed (FeedFetcher.recent (Some n) items) db)) in
  let r := fst (FeedFetcher.fetchFeed P c db feedId) in
  let db' := snd (FeedFetcher.fetchFeed P c db feedId) in
  FeedFetcher.success r = true
  /\ FeedFetcher.getMaxArticlesPerFeed db' = Some n
  /\ Z.of_nat (List.length (articles_of db' feedId)) <= n
  /\ Permutation (articles_of db' feedId)
       (take (Z.to_nat n) (sort_by newer_first (articles_of db1 feedId)))
  /\ (forall kept gone,
        In kept (articles_of db' feedId) ->
        In gone (articles_of db1 feedId) ->
        ~ In gone (articles_of db' feedId) ->
        String.leb (ArticleRow.published_at gone)
                   (ArticleRow.published_at kept) = true)
  /\ (forall other, other <> feedId ->
        articles_of db' other = articles_of db1 other)
  /\ (settings db !! "max_articles_per_feed" = None -> n = 50).
Proof.
  intros Hids Hfeed Hact Hparse Hmax Hn. cbv zeta.
  assert (Hdefault : settings db !! "max_articles_per_feed" = None -> n = 50).
  { intros E. unfold FeedFetcher.getMaxArticlesPerFeed in Hmax.
    rewrite E in Hmax. congruence. }
  pose proof (fetchFeed_keys P c db feedId) as (_ & _ & Hset). simpl in Hset.
  assert (Hmax' : FeedFetcher.getMaxArticlesPerFeed
                    (snd (FeedFetcher.fetchFeed P c db feedId)) = Some n).
  { unfold FeedFetcher.getMaxArticlesPerFeed in *. now rewrite Hset. }
  revert Hmax'. unfold FeedFetcher.fetchFeed.
  rewrite Hfeed, Hact, Hparse, Hmax.
  pose proof (process_items_keys P c feed
                (FeedFetcher.recent (Some n) items) db 0 O) as Hk.
  unfold FeedFetcher.ingest.
  destruct (fold_left (FeedFetcher.process_item P c feed) _ (db, 0, O))
    as [[db1 added] k].
  destruct Hk as (_ & _ & _ & Hids1). specialize (Hids1 Hids).
  cbn [fst snd].
  pose proof (updateRSSFeed_frame c db1 feedId (now c)) as (Ha & _).
  set (db2 := snd (DatabaseService.updateRSSFeed c db1 feedId (now c))) in *.
  assert (Hof : forall f, articles_of db2 f = articles_of db1 f).
  { intros f. unfold articles_of. now rewrite Ha. }
  assert (Hids2 : ids_unique db2) by (unfold ids_unique; now rewrite Ha).
  pose proof (cleanup_survivors db2 feedId n Hids2 Hn) as HP.
  rewrite Hof in HP.
  intros Hmax'. split; [reflexivity|]. split; [exact Hmax'|].
  split; [|split; [exact HP|split; [|split; [|exact Hdefault]]]].
  - rewrite (Permutation_length HP), length_take. lia.
  - intros kept gone Hkept Hgone Hngone.
    pose proof (newer_first_sorted (articles_of db1 feedId)) as Hs.
    rewrite <- (take_drop (Z.to_nat n)) in Hs.
    apply (StronglySorted_app_order _ _ _ Hs kept gone).
    + eapply Permutation_in; [exact HP|exact Hkept].
    + assert (Hin : In gone (sort_by newer_first (articles_of db1 feedId)))
        by now apply sort_by_In.
      rewrite <- (take_drop (Z.to_nat n)) in Hin.
      apply in_app_or in Hin as [Hin|Hin]; [|exact Hin].
      exfalso. apply Hngone.
      eapply Permutation_in; [symmetry; exact HP|exact Hin].
  - intros other Hne. rewrite cleanup_other_feeds by exact Hne. apply Hof.
Qed.

(** C3 as it is worded fails: for a feed that is inactive, [fetchFeed]
    completes and two articles of the feed remain under a setting of 1. *)
Lemma fetchFeed_inactive_not_trimmed :
  let db' := snd (FeedFetcher.fetchFeed Sample.quiet Sample.call
                    (Sample.db false) "feed_cfr") in
  FeedFetcher.getMaxArticlesPerFeed db' = Some 1
  /\ ~ (Z.of_nat (List.length (articles_of db' "feed_cfr")) <= 1).
Proof.
  split; [reflexivity|]. vm_compute. intros H. apply H. reflexivity.
Qed.

(** ** Exporting a report *)

(** C9.  The export never lists an item.  The handler binds the id to
    the statement that reads the report, and runs the statement that
    reads the items with no value bound for its [?]: D1 rejects it, and
    the handler answers 500 [Failed to export report] for every stored
    report, and 404 for an unknown one.  With the id bound, the same
    statement is accepted.  The sample report has an item to list, and
    its export is the 500. *)
Theorem export_unbound_parameter (db : D1) (id : string) :
  (forall items, ReportsRouter.export db id <> Json 200 items)
  /\ (In id (map ReportRow.id (reports db)) ->
      ReportsRouter.export db id
      = Failure 500 "Failed to export report"
          (Some "D1_ERROR: Wrong number of parameter bindings for SQL query."))
  /\ (~ In id (map ReportRow.id (reports db)) ->
      ReportsRouter.export db id = Failure 404 "Report not found" None)
  /\ (exists rows, Routes.export_statement db [id] = Ok rows)
  /\ (exists j,
        Routes.export_statement Sample.report_db ["r1"] = Ok [j]
        /\ status_of (ReportsRouter.export Sample.report_db "r1") = 500).
Proof.
  unfold ReportsRouter.export.
  destruct (List.find (fun r => String.eqb (ReportRow.id r) id) (reports db))
    as [report|] eqn:Efind.
  - apply find_some in Efind as [Hin Eid]. apply String.eqb_eq in Eid.
    split; [discriminate|]. split; [reflexivity|].
    split; [|split].
    + intros Hout. exfalso. apply Hout. rewrite <- Eid. now apply in_map.
    + eexists. reflexivity.
    + eexists. split; reflexivity.
  - split; [discriminate|]. split; [|split; [reflexivity|split]].
    + intros Hin. apply in_map_iff in Hin as (r & Er & Hr).
      pose proof (find_none _ _ Efind r Hr) as Hno. cbn in Hno.
      rewrite Er, String.eqb_refl in Hno. discriminate.
    + eexists. reflexivity.
    + eexists. split; reflexivity.
Qed.

(** ** The embedding call in front of the search *)

(** [generateEmbedding] succeeds exactly when the binding answers with a
    [data] array that has a first vector. *)
Lemma generateEmbedding_Ok (P : Platform) (text : string)
    (v : list F64.number) :
  AIService.generateEmbedding P text = Ok v
  <-> exists rest,
        AI_run P "@cf/baai/bge-large-en-v1.5"
               (Embed (AIService.truncateText text 1000))
        = AI_data (v :: rest).
Proof.
  unfold AIService.generateEmbedding.
  destruct (AI_run P _ _) as [msg|resp|[|first rest]|]; split;
    try discriminate; try (intros [? ?]; discriminate).
  - intros [= <-]. now exists rest.
  - intros [rest' [= <- _]]. reflexivity.
Qed.

Lemma generateEmbedding_Throw (P : Platform) (text : string) (msg : string) :
  AIService.generateEmbedding P text = Throw msg ->
  msg = "Failed to generate embedding".
Proof.
  unfold AIService.generateEmbedding.
  destruct (AI_run P _ _) as [m|resp|[|first rest]|]; intros [= <-];
    reflexivity.
Qed.

(** C10. For every query, [searchSimilarArticles] starts with
    [generateEmbedding] on the query and throws 'Failed to perform
    semantic search' whenever that call fails; when the call succeeds
    the result is the text search, in which the embedding does not
    occur, so two platforms whose embedding calls succeed give the same
    results; and [findSimilarArticles] returns only when the embedding
    call for its query (title and snippet of the article) succeeded,
    and throws 'Failed to find similar articles' when it failed. *)
Theorem search_requires_embedding (P : Platform) (db : D1) (query : string)
    (limit : Z) :
  (forall msg,
     AIService.generateEmbedding P query = Throw msg ->
     VectorSearchService.searchSimilarArticles P db query limit
     = Throw "Failed to perform semantic search")
  /\ (forall v,
        AIService.generateEmbedding P query = Ok v ->
        VectorSearchService.searchSimilarArticles P db query limit
        = Ok (VectorSearchService.text_search db query limit))
  /\ (forall P' v v',
        AIService.generateEmbedding P query = Ok v ->
        AIService.generateEmbedding P' query = Ok v' ->
        VectorSearchService.searchSimilarArticles P db query limit
        = VectorSearchService.searchSimilarArticles P' db query limit)
  /\ (forall results,
        VectorSearchService.searchSimilarArticles P db query limit = Ok results ->
        exists v rest,
          AI_run P "@cf/baai/bge-large-en-v1.5"
                 (Embed (AIService.truncateText query 1000))
          = AI_data (v :: rest))
  /\ (forall articleId results,
        VectorSearchService.findSimilarArticles P db articleId limit = Ok results ->
        exists article v,
          DatabaseService.getArticle db articleId = Some article
          /\ AIService.generateEmbedding P
               (Article.title article +:+ " " +:+ Article.snippet article)
             = Ok v)
  /\ (forall articleId article msg,
        DatabaseService.getArticle db articleId = Some article ->
        AIService.generateEmbedding P
          (Article.title article +:+ " " +:+ Article.snippet article)
        = Throw msg ->
        VectorSearchService.findSimilarArticles P db articleId limit
        = Throw "Failed to find similar articles").
Proof.
  unfold VectorSearchService.findSimilarArticles,
    VectorSearchService.searchSimilarArticles.
  repeat split.
  - intros msg H. now rewrite H.
  - intros v H. now rewrite H.
  - intros P' v v' H H'. now rewrite H, H'.
  - intros results H.
    destruct (AIService.generateEmbedding P query) as [v|msg] eqn:E;
      [|discriminate].
    apply generateEmbedding_Ok in E as [rest E]. eauto.
  - intros articleId results H.
    destruct (DatabaseService.getArticle db articleId) as [article|];
      [|discriminate].
    destruct (AIService.generateEmbedding P _) as [v|msg] eqn:E;
      [|discriminate].
    eauto.
  - intros articleId article msg Ha He. now rewrite Ha, He.
Qed.

(** ** Truncation before the AI calls *)

Lemma substring0_length (s : string) :
  forall n : nat,
    String.length (String.substring 0 n s) = Nat.min n (String.length s).
Proof.
  induction s as [|a s IH]; intros [|n]; simpl; try reflexivity.
  now rewrite IH.
Qed.

Lemma substring0_all (s : string) :
  forall n : nat, (String.length s <= n)%nat -> String.substring 0 n s = s.
Proof.
  induction s as [|a s IH]; intros [|n]; simpl; intros H;
    try reflexivity; try lia.
  f_equal. apply IH. lia.
Qed.

Lemma substring0_twice (s : string) :
  forall m n : nat, (m <= n)%nat ->
    String.substring 0 m (String.substring 0 n s) = String.substring 0 m s.
Proof.
  induction s as [|a s IH]; intros [|m] [|n] H; simpl;
    try reflexivity; try lia.
  f_equal. apply IH. lia.
Qed.

Lemma JS_substring0_length (n : Z) (s : string) :
  JS.length (JS.substring0 n s) = Z.min (Z.max n 0) (JS.length s).
Proof.
  unfold JS.length, JS.substring0. rewrite substring0_length. lia.
Qed.

Lemma lastIndexOf_from_range (c : ascii) (s : string) :
  forall i : Z,
    JS.lastIndexOf_from c i s = -1
    \/ i <= JS.lastIndexOf_from c i s < i + JS.length s.
Proof.
  unfold JS.length.
  induction s as [|d s IH]; intros i; simpl; [now left|].
  destruct (IH (i + 1)) as [E|E].
  - rewrite E. simpl. destruct (Ascii.eqb d c); [right; lia|now left].
  - destruct (Z.leb_spec 0 (JS.lastIndexOf_from c (i + 1) s)).
    + right. lia.
    + destruct (Ascii.eqb d c); [right; lia|now left].
Qed.

Lemma lastIndexOf_range (c : ascii) (s : string) :
  -1 <= JS.lastIndexOf c s < JS.length s.
Proof.
  unfold JS.lastIndexOf.
  destruct (lastIndexOf_from_range c s 0) as [E|E]; [rewrite E|];
    unfold JS.length in *; lia.
Qed.

Lemma indexes_In (cap : nat) (z : Z) :
  -1 <= z < Z.of_nat cap -> In z (indexes cap).
Proof.
  intros H. unfold indexes. apply in_map_iff.
  exists (Z.to_nat (z + 1)). split; [lia|].
  apply in_seq. lia.
Qed.

(** On the indexes that can occur, the two comparisons of binary64
    numbers are the comparisons with 1400 and 1000 (cap 2000), and with
    700 and 500 (cap 1000). *)
Lemma beyond_checked (cap : nat) :
  forallb (fun z =>
             Bool.eqb (AIService.beyond z (Z.of_nat cap) F64.c0_7)
                      (7 * Z.of_nat cap <? 10 * z)
             && Bool.eqb (AIService.beyond z (Z.of_nat cap) F64.c0_5)
                         (Z.of_nat cap <? 2 * z))
          (indexes cap) = true ->
  forall z, -1 <= z < Z.of_nat cap ->
    AIService.beyond z (Z.of_nat cap) F64.c0_7 = (7 * Z.of_nat cap <? 10 * z)
    /\ AIService.beyond z (Z.of_nat cap) F64.c0_5 = (Z.of_nat cap <? 2 * z).
Proof.
  intros Hall z Hz. rewrite forallb_forall in Hall.
  specialize (Hall z (indexes_In cap z Hz)).
  apply andb_prop in Hall as [H1 H2].
  split; now apply eqb_prop.
Qed.

Lemma beyond_2000 (z : Z) :
  -1 <= z < 2000 ->
  AIService.beyond z 2000 F64.c0_7 = (7 * 2000 <? 10 * z)
  /\ AIService.beyond z 2000 F64.c0_5 = (2000 <? 2 * z).
Proof. apply (beyond_checked 2000). vm_compute. reflexivity. Qed.

Lemma beyond_1000 (z : Z) :
  -1 <= z < 1000 ->
  AIService.beyond z 1000 F64.c0_7 = (7 * 1000 <? 10 * z)
  /\ AIService.beyond z 1000 F64.c0_5 = (1000 <? 2 * z).
Proof. apply (beyond_checked 1000). vm_compute. reflexivity. Qed.

Lemma truncateText_amended (text : string) (cap : Z) :
  0 <= cap ->
  (forall z, -1 <= z < cap ->
     AIService.beyond z cap F64.c0_7 = (7 * cap <? 10 * z)
     /\ AIService.beyond z cap F64.c0_5 = (cap <? 2 * z)) ->
  AIService.truncateText text cap = truncate_amended cap text.
Proof.
  intros Hcap Hb. unfold AIService.truncateText, truncate_amended.
  destruct (Z.leb_spec (JS.length text) cap) as [|Hlong]; [reflexivity|].
  assert (Hlen : JS.length (JS.substring0 cap text) <= Z.max cap 0)
    by (rewrite JS_substring0_length; lia).
  assert (Hr : forall c, -1 <= JS.lastIndexOf c (JS.substring0 cap text) < cap).
  { intros c. pose proof (lastIndexOf_range c (JS.substring0 cap text)).
    lia. }
  destruct (Hb _ (Hr "."%char)) as [-> _].
  destruct (Hb _ (Hr Text.LF)) as [_ ->].
  rewrite Z.gtb_ltb. reflexivity.
Qed.

Lemma truncateText_length (text : string) (cap : Z) :
  0 <= cap -> JS.length (AIService.truncateText text cap) <= cap.
Proof.
  intros Hcap. unfold AIService.truncateText.
  destruct (Z.leb_spec (JS.length text) cap) as [|Hlong]; [assumption|].
  assert (Hlen : JS.length (JS.substring0 cap text) <= cap)
    by (rewrite JS_substring0_length; lia).
  repeat match goal with
         | |- context [if ?b then _ else _] => destruct b
         end; try assumption;
    rewrite JS_substring0_length; lia.
Qed.

Lemma truncateText_short (text : string) (cap : Z) :
  JS.length text <= cap -> AIService.truncateText text cap = text.
Proof.
  intros H. unfold AIService.truncateText.
  now destruct (Z.leb_spec (JS.length text) cap); [|lia].
Qed.

(** A 2500-character input whose last sentence end within the first
    2000 characters is at position 1800 is cut right after it. *)
Lemma truncateText_sentence_1800 (text : string) :
  JS.length text = 2500 ->
  JS.lastIndexOf "." (JS.substring0 2000 text) = 1800 ->
  AIService.truncateText text 2000 = JS.substring0 1801 text
  /\ JS.length (AIService.truncateText text 2000) = 1801.
Proof.
  intros Hlen Hdot.
  assert (E : AIService.truncateText text 2000 = JS.substring0 1801 text).
  { rewrite truncateText_amended by (lia || apply beyond_2000).
    unfold truncate_amended. rewrite Hlen, Hdot. simpl.
    unfold JS.substring0. now rewrite substring0_twice by lia. }
  split; [exact E|]. rewrite E, JS_substring0_length. lia.
Qed.

(** C7, as the code has it.  For every input, the truncation of
    [summarizeText] (cap 2000) and of [generateEmbedding] (cap 1000)
    returns an input of at most cap characters unchanged, and
    otherwise cuts the first cap characters after their last [.] when
    its position exceeds 70% of the cap, else before their last
    newline when its position exceeds 50% of the cap, else before
    their last space when that space is not the first character, else
    not at all; the result has at most cap characters; a 2500-character
    input whose last sentence end within the first 2000 characters is
    at position 1800 is cut right after that sentence end. *)
Theorem truncateText_boundaries (text : string) :
  AIService.truncateText text 2000 = truncate_amended 2000 text
  /\ AIService.truncateText text 1000 = truncate_amended 1000 text
  /\ JS.length (AIService.truncateText text 2000) <= 2000
  /\ JS.length (AIService.truncateText text 1000) <= 1000
  /\ (JS.length text <= 2000 -> AIService.truncateText text 2000 = text)
  /\ (JS.length text <= 1000 -> AIService.truncateText text 1000 = text)
  /\ (JS.length text = 2500 ->
      JS.lastIndexOf "." (JS.substring0 2000 text) = 1800 ->
      AIService.truncateText text 2000 = JS.substring0 1801 text
      /\ JS.length (AIService.truncateText text 2000) = 1801)
  /\ AIService.summary_request text
     = "Please summarize the following article:"
       +:+ String Text.LF (String Text.LF (AIService.truncateText text 2000))
  /\ (forall P,
        AIService.generateEmbedding P text
        = match AI_run P "@cf/baai/bge-large-en-v1.5"
                  (Embed (AIService.truncateText text 1000)) with
          | AI_data (first :: _) => Ok first
          | _ => Throw "Failed to generate embedding"
          end).
Proof.
  repeat split.
  - apply truncateText_amended; [lia|apply beyond_2000].
  - apply truncateText_amended; [lia|apply beyond_1000].
  - now apply truncateText_length.
  - now apply truncateText_length.
  - apply truncateText_short.
  - apply truncateText_short.
  - now apply truncateText_sentence_1800.
  - now apply truncateText_sentence_1800.
Qed.

(** C7 as it is worded fails: when the only space of the first 2000
    characters is their first character, the code keeps all 2000
    characters, where a cut at the last space leaves none. *)
Lemma truncateText_leading_space :
  truncate_claimed 2000 Sample.spaced = ""
  /\ JS.length (AIService.truncateText Sample.spaced 2000) = 2000
  /\ AIService.truncateText Sample.spaced 2000
     <> truncate_claimed 2000 Sample.spaced.
Proof.
  assert (E1 : truncate_claimed 2000 Sample.spaced = "")
    by (vm_compute; reflexivity).
  assert (E2 : JS.length (AIService.truncateText Sample.spaced 2000) = 2000)
    by (vm_compute; reflexivity).
  repeat split; try assumption.
  intros H. rewrite E1 in H. rewrite H in E2. discriminate.
Qed.

(** ** Binary64: what rounding keeps *)

Lemma iter_pos_nat {A} (f : A -> A) (p : positive) :
  forall x, SpecFloat.iter_pos f p x = Nat.iter (Pos.to_nat p) f x.
Proof.
  induction p as [p IH|p IH|]; intros x; cbn [SpecFloat.iter_pos].
  - rewrite !IH, Pos2Nat.inj_xI.
    rewrite <- Nat.iter_succ_r, <- Nat.iter_add.
    f_equal. lia.
  - rewrite !IH, Pos2Nat.inj_xO, <- Nat.iter_add. f_equal. lia.
  - reflexivity.
Qed.

Lemma shr_1_m (mrs : shr_record) :
  0 <= shr_m mrs -> shr_m (shr_1 mrs) = Z.div2 (shr_m mrs).
Proof.
  destruct mrs as [[|[p|p|]|p] r s]; simpl; intros H; try reflexivity; lia.
Qed.

Lemma iter_shr_1_m (n : nat) (mrs : shr_record) :
  0 <= shr_m mrs ->
  shr_m (Nat.iter n shr_1 mrs) = shr_m mrs / 2 ^ Z.of_nat n.
Proof.
  intros H. induction n as [|n IH].
  - simpl. now rewrite Z.div_1_r.
  - rewrite Nat.iter_succ, shr_1_m.
    + rewrite IH, Z.div2_div, Nat2Z.inj_succ, Z.pow_succ_r by lia.
      rewrite Z.div_div by lia. f_equal. lia.
    + rewrite IH. apply Z.div_pos; lia.
Qed.

Lemma digits2_pos_bounds (m : positive) :
  2 ^ (Zpos (digits2_pos m) - 1) <= Zpos m < 2 ^ Zpos (digits2_pos m).
Proof.
  induction m as [m IH|m IH|]; simpl digits2_pos.
  - rewrite Pos2Z.inj_succ.
    replace (Z.succ (Zpos (digits2_pos m)) - 1) with (Z.succ (Zpos (digits2_pos m) - 1)) by lia.
    rewrite !Z.pow_succ_r by lia. lia.
  - rewrite Pos2Z.inj_succ.
    replace (Z.succ (Zpos (digits2_pos m)) - 1) with (Z.succ (Zpos (digits2_pos m) - 1)) by lia.
    rewrite !Z.pow_succ_r by lia. lia.
  - simpl. lia.
Qed.

(** A shift to the right by fewer bits than the number has leaves a
    positive number. *)
Lemma shr_positive (m : positive) (l : location) (e n : Z) :
  n < Zpos (digits2_pos m) ->
  0 < shr_m (fst (shr (shr_record_of_loc (Zpos m) l) e n)).
Proof.
  intros Hn.
  assert (Hm : shr_m (shr_record_of_loc (Zpos m) l) = Zpos m)
    by (destruct l as [|[]]; reflexivity).
  unfold shr. destruct n as [|p|p]; simpl fst; try (rewrite Hm; lia).
  rewrite iter_pos_nat, iter_shr_1_m by (rewrite Hm; lia).
  rewrite Hm, positive_nat_Z.
  apply Z.div_str_pos. split; [lia|].
  pose proof (digits2_pos_bounds m) as [Hlo _].
  eapply Z.le_trans; [|exact Hlo]. apply Z.pow_le_mono_r; lia.
Qed.

Lemma shr_nonneg (mrs : shr_record) (e n : Z) :
  0 <= shr_m mrs -> 0 <= shr_m (fst (shr mrs e n)).
Proof.
  intros H. unfold shr. destruct n as [|p|p]; simpl fst; try assumption.
  rewrite iter_pos_nat, iter_shr_1_m by assumption.
  apply Z.div_pos; lia.
Qed.

Lemma emin_val : emin = -1074.
Proof. reflexivity. Qed.

Lemma is_pos_nonneg x : is_pos x -> is_nonneg x.
Proof. destruct x as [[]|[]| |[] m e]; simpl; auto. Qed.

Lemma fexp_spec (k : Z) :
  fexp F64.prec F64.emax k = Z.max (k - 53) (-1074).
Proof. reflexivity. Qed.

Lemma shr_record_of_loc_m (m : Z) (l : location) :
  shr_m (shr_record_of_loc m l) = m.
Proof. destruct l as [|[]]; reflexivity. Qed.

Lemma shr_exp (mrs : shr_record) (e n : Z) :
  snd (shr mrs e n) = if 0 <? n then e + n else e.
Proof. destruct n; reflexivity. Qed.

Lemma shr_fexp_exp (m e : Z) (l : location) :
  emin <= snd (shr_fexp F64.prec F64.emax m e l).
Proof.
  unfold shr_fexp. rewrite shr_exp, fexp_spec, emin_val.
  destruct (Z.ltb_spec 0 (Z.max (Zdigits2 m + e - 53) (-1074) - e)); lia.
Qed.

Lemma shr_fexp_nonneg (m e : Z) (l : location) :
  0 <= m -> 0 <= shr_m (fst (shr_fexp F64.prec F64.emax m e l)).
Proof.
  intros H. unfold shr_fexp. apply shr_nonneg.
  now rewrite shr_record_of_loc_m.
Qed.

Lemma shr_fexp_positive (m : positive) (e : Z) (l : location) :
  emin <= e -> 0 < shr_m (fst (shr_fexp F64.prec F64.emax (Zpos m) e l)).
Proof.
  intros He. unfold shr_fexp. apply shr_positive.
  rewrite fexp_spec. rewrite emin_val in He.
  simpl Zdigits2. lia.
Qed.

Lemma round_nearest_even_ge (m : Z) (l : location) :
  m <= round_nearest_even m l.
Proof.
  unfold round_nearest_even. destruct l as [|[]]; try lia.
  destruct (Z.even m); lia.
Qed.

(** Rounding keeps the sign, and gives NaN only from a negative integer. *)
Lemma binary_round_aux_nonneg (m e : Z) (l : location) :
  0 <= m -> is_nonneg (binary_round_aux F64.prec F64.emax false m e l).
Proof.
  intros Hm. unfold binary_round_aux.
  pose proof (shr_fexp_nonneg m e l Hm) as H1.
  destruct (shr_fexp F64.prec F64.emax m e l) as [mrs' e'].
  simpl in H1.
  pose proof (round_nearest_even_ge (shr_m mrs') (loc_of_shr_record mrs')) as H2.
  set (m2 := round_nearest_even (shr_m mrs') (loc_of_shr_record mrs')) in *.
  pose proof (shr_fexp_nonneg m2 e' loc_Exact ltac:(lia)) as H3.
  pose proof (shr_fexp_exp m2 e' loc_Exact) as H4.
  destruct (shr_fexp F64.prec F64.emax m2 e' loc_Exact) as [mrs'' e''].
  simpl in H3, H4.
  destruct (shr_m mrs'') as [|p|p]; simpl; try lia; auto.
  destruct (e'' <=? _); simpl; auto.
Qed.

Lemma binary_round_aux_positive (m : positive) (e : Z) (l : location) :
  emin <= e -> is_pos (binary_round_aux F64.prec F64.emax false (Zpos m) e l).
Proof.
  intros He. unfold binary_round_aux.
  pose proof (shr_fexp_positive m e l He) as H1.
  pose proof (shr_fexp_exp (Zpos m) e l) as H1e.
  destruct (shr_fexp F64.prec F64.emax (Zpos m) e l) as [mrs' e'].
  simpl in H1, H1e.
  pose proof (round_nearest_even_ge (shr_m mrs') (loc_of_shr_record mrs')) as H2.
  destruct (round_nearest_even (shr_m mrs') (loc_of_shr_record mrs'))
    as [|m2|m2]; try lia.
  pose proof (shr_fexp_positive m2 e' loc_Exact H1e) as H3.
  pose proof (shr_fexp_exp (Zpos m2) e' loc_Exact) as H4.
  destruct (shr_fexp F64.prec F64.emax (Zpos m2) e' loc_Exact) as [mrs'' e''].
  simpl in H3, H4.
  destruct (shr_m mrs'') as [|p|p]; simpl; try lia.
  destruct (e'' <=? _); simpl; auto.
Qed.

Lemma shl_align_exp (m : positive) (e e' : Z) :
  snd (shl_align m e e') = Z.min e e'.
Proof.
  unfold shl_align. destruct (e' - e) eqn:E; simpl; lia.
Qed.

Lemma binary_round_positive (m : positive) (e : Z) :
  emin <= e -> is_pos (binary_round F64.prec F64.emax false m e).
Proof.
  intros He. unfold binary_round.
  pose proof (shl_align_exp m e (fexp F64.prec F64.emax (Zpos (digits2_pos m) + e))) as H.
  destruct (shl_align m e _) as [mz ez]. simpl in H.
  apply binary_round_aux_positive.
  rewrite H, fexp_spec. rewrite emin_val in *. lia.
Qed.

Lemma binary_round_aux_signed (s : bool) (m e : Z) (l : location) :
  signed s (binary_round_aux F64.prec F64.emax s m e l).
Proof.
  unfold binary_round_aux.
  destruct (shr_fexp F64.prec F64.emax m e l) as [mrs' e'].
  destruct (shr_fexp F64.prec F64.emax _ e' loc_Exact) as [mrs'' e''].
  destruct (shr_m mrs''); simpl; auto.
  destruct (e'' <=? _); simpl; auto.
Qed.

Lemma binary_round_signed (s : bool) (m : positive) (e : Z) :
  signed s (binary_round F64.prec F64.emax s m e).
Proof.
  unfold binary_round. destruct (shl_align m e _) as [mz ez].
  apply binary_round_aux_signed.
Qed.

Lemma is_pos_gt_zero (x : spec_float) : is_pos x -> SFltb F64.zero x = true.
Proof. destruct x as [[]|[]| |[] m e]; simpl; intros H; auto; contradiction. Qed.

Lemma signed_true_not_gt (x : spec_float) : signed true x -> SFltb F64.zero x = false.
Proof.
  destruct x as [s|s| |s m e]; simpl; intros H; subst; reflexivity.
Qed.

Lemma gt_zero_signed_false (x : spec_float) :
  SFltb F64.zero x = true -> signed false x /\ x <> S754_zero false.
Proof.
  destruct x as [[]|[]| |[] m e]; simpl; intros H; try discriminate;
    split; auto; discriminate.
Qed.

(** The comparator of the sort never asks for both orders. *)
Lemma sub_antisym (x y : spec_float) :
  SFltb F64.zero (F64.sub x y) = true ->
  SFltb F64.zero (F64.sub y x) = false.
Proof.
  destruct x as [sx|sx| |sx mx ex], y as [sy|sy| |sy my ey];
    try (destruct sx, sy; simpl; auto; discriminate);
    try (destruct sx; simpl; auto; discriminate);
    try (destruct sy; simpl; auto; discriminate);
    try (simpl; auto; discriminate).
  unfold F64.sub, SFsub. rewrite (Z.min_comm ey ex).
  set (X := cond_Zopp sx (Zpos (fst (shl_align mx ex (Z.min ex ey))))).
  set (Y := cond_Zopp sy (Zpos (fst (shl_align my ey (Z.min ex ey))))).
  replace (Y - X) with (- (X - Y)) by lia.
  destruct (X - Y) as [|p|p]; simpl.
  - discriminate.
  - intros _. apply signed_true_not_gt, binary_round_signed.
  - intros H. pose proof (binary_round_signed true p (Z.min ex ey)) as Hs.
    apply signed_true_not_gt in Hs. congruence.
Qed.

Lemma of_Z_positive (u : Z) : 0 < u -> is_pos (F64.of_Z u).
Proof.
  destruct u as [|p|p]; try lia. intros _. unfold F64.of_Z. simpl binary_normalize.
  apply binary_round_positive. rewrite emin_val. lia.
Qed.

Lemma div_nonneg (x y : spec_float) :
  match x with S754_zero false | S754_finite false _ _ => True | _ => False end ->
  is_pos y -> is_nonneg (F64.div x y).
Proof.
  destruct x as [[]|[]| |[] mx ex]; try contradiction;
    destruct y as [[]|[]| |[] my ey]; try contradiction; intros _ Hy;
    try exact I.
  unfold F64.div, SFdiv, SFdiv_core_binary. simpl xorb.
  set (m' := match _ - _ - _ with Z0 => _ | Zpos _ => _ | Zneg _ => _ end).
  assert (Hm' : 0 <= m').
  { unfold m'. destruct (_ - _ - _) eqn:E; try lia.
    apply Z.shiftl_nonneg. lia. }
  pose proof (Z.div_pos m' (Zpos my) Hm' ltac:(lia)) as Hq.
  unfold Z.div in Hq.
  destruct (Z.div_eucl m' (Zpos my)) as [q r]. simpl in Hq.
  now apply binary_round_aux_nonneg.
Qed.


Lemma add_positive (x y : spec_float) :
  is_nonneg x -> is_pos y -> is_pos (F64.add x y).
Proof.
  destruct x as [[]|[]| |[] mx ex]; try contradiction;
    destruct y as [[]|[]| |[] my ey]; try contradiction; intros Hx Hy;
    try exact I; try exact Hy; try exact Hx.
  unfold F64.add, SFadd. simpl cond_Zopp.
  change (Zpos (fst (shl_align mx ex (Z.min ex ey)))
          + Zpos (fst (shl_align my ey (Z.min ex ey))))
    with (Zpos (fst (shl_align mx ex (Z.min ex ey))
                + fst (shl_align my ey (Z.min ex ey)))).
  simpl binary_normalize. apply binary_round_positive.
  simpl in Hx, Hy. lia.
Qed.


(** ** Binary64: exact comparison of scores *)

Lemma mag_le_trans a b c : mag_le a b -> mag_le b c -> mag_le a c.
Proof. destruct a, b, c; simpl; try tauto; lia. Qed.

Lemma Pos_iter_xO (m d : positive) :
  Zpos (Pos.iter xO m d) = Zpos m * 2 ^ Zpos d.
Proof.
  revert m. induction d as [|d IH] using Pos.peano_ind; intros m.
  - simpl. lia.
  - rewrite Pos.iter_succ, Pos2Z.inj_succ, Z.pow_succ_r by lia.
    rewrite Pos2Z.inj_xO, IH. lia.
Qed.

Lemma shl_align_m (m : positive) (e e' : Z) :
  e' <= e -> Zpos (fst (shl_align m e e')) = Zpos m * 2 ^ (e - e').
Proof.
  intros H. unfold shl_align.
  destruct (e' - e) as [|d|d] eqn:E; simpl fst.
  - replace (e - e') with 0 by lia. lia.
  - lia.
  - rewrite Pos_iter_xO. f_equal. f_equal. lia.
Qed.

Lemma of_Z_nonneg (z : Z) : 0 <= z -> is_nonneg (F64.of_Z z).
Proof.
  intros H. destruct (Z.eq_dec z 0) as [->|Hz]; [exact I|].
  apply is_pos_nonneg, of_Z_positive. lia.
Qed.

Lemma div_nan_or_nonneg (x y : spec_float) :
  is_nonneg x -> is_nonneg y -> nan_or_nonneg (F64.div x y).
Proof.
  intros Hx Hy.
  destruct x as [[]|[]| |[] mx ex]; try contradiction;
    destruct y as [[]|[]| |[] my ey]; try contradiction;
    try (left; reflexivity); try (right; exact I).
  right. apply div_nonneg; [exact I|exact Hy].
Qed.

Lemma add_nan_or_nonneg (x y : spec_float) :
  nan_or_nonneg x -> is_pos y -> nan_or_nonneg (F64.add x y).
Proof.
  intros [->|Hx] Hy; [left; reflexivity|].
  right. now apply is_pos_nonneg, add_positive.
Qed.

Lemma Math_min_nan_or_nonneg (x y : spec_float) :
  nan_or_nonneg x -> is_pos y -> nan_or_nonneg (F64.Math_min x y).
Proof.
  intros [->|Hx] Hy; [left; reflexivity|]. right. unfold F64.Math_min.
  destruct x as [[]|[]| |[] mx ex]; try contradiction;
    destruct y as [[]|[]| |[] my ey]; try contradiction; simpl; auto.
  destruct (ex ?= ey); auto.
  destruct (Pos.compare_cont Eq mx my); auto.
Qed.

Lemma nan_or_nonneg_gt_zero (x : spec_float) :
  nan_or_nonneg x -> SFltb F64.zero x = true -> is_pos x.
Proof.
  intros [->|Hx]; [discriminate|].
  destruct x as [[]|[]| |[] mx ex]; simpl in *; try contradiction;
    try discriminate; auto.
Qed.

(** On positive values the comparator decides by the exact magnitudes. *)
Lemma sub_gt_zero_iff (x y : spec_float) :
  is_pos x -> is_pos y ->
  SFltb F64.zero (F64.sub y x) = true
  <-> ~ mag_le (magnitude y) (magnitude x).
Proof.
  destruct x as [[]|[]| |[] mx ex]; try contradiction;
    destruct y as [[]|[]| |[] my ey]; try contradiction; intros Hx Hy;
    cbn [magnitude mag_le].
  - simpl. split; [discriminate|tauto].
  - simpl. split; [discriminate|tauto].
  - simpl. split; [tauto|reflexivity].
  - simpl in Hx, Hy.
    unfold F64.sub, SFsub. simpl cond_Zopp.
    rewrite !shl_align_m by lia.
    set (ez := Z.min ey ex).
    assert (Hscale : forall m e, ez <= e ->
              Zpos m * 2 ^ (e - emin) = Zpos m * 2 ^ (e - ez) * 2 ^ (ez - emin)).
    { intros m e He. rewrite <- Z.mul_assoc, <- Z.pow_add_r by lia.
      do 2 f_equal. lia. }
    rewrite (Hscale my ey), (Hscale mx ex) by lia.
    assert (Hp : 0 < 2 ^ (ez - emin)) by (apply Z.pow_pos_nonneg; lia).
    destruct (Zpos my * 2 ^ (ey - ez) - Zpos mx * 2 ^ (ex - ez)) as [|p|p] eqn:E;
      simpl binary_normalize.
    + split; [discriminate|]. intros H. exfalso. apply H. nia.
    + split; [intros _; nia|]. intros _.
      apply is_pos_gt_zero, binary_round_positive. lia.
    + rewrite (signed_true_not_gt _ (binary_round_signed true p ez)).
      split; [discriminate|]. intros H. exfalso. apply H. nia.
Qed.

(** ** Words and sets *)














(** ** The text search *)

Lemma chain_take {A} (R : A -> A -> Prop) (l : list A) :
  chain R l -> forall n, chain R (take n l).
Proof.
  induction 1 as [|x|x y l Hxy Hl IH]; intros [|n]; simpl; try constructor.
  - destruct n; constructor.
  - specialize (IH n). destruct n as [|n]; simpl in *; constructor; auto.
Qed.

Lemma slice0_take {A} (n : Z) (l : list A) :
  exists k, JS.slice0 n l = take k l.
Proof. unfold JS.slice0. destruct (n <? 0); eauto. Qed.

Lemma slice0_In {A} (n : Z) (l : list A) (x : A) :
  In x (JS.slice0 n l) -> In x l.
Proof.
  destruct (slice0_take n l) as [k ->]. intros H.
  apply list_elem_of_In. apply list_elem_of_In in H.
  now apply (subseteq_take k l).
Qed.

Lemma slice0_length {A} (n : Z) (l : list A) :
  0 <= n -> Z.of_nat (List.length (JS.slice0 n l)) <= n.
Proof.
  intros H. unfold JS.slice0. destruct (Z.ltb_spec n 0); [lia|].
  rewrite length_take. lia.
Qed.

(** The comparator never asks for both orders of a pair. *)
Lemma stays_before_total (a b : VectorSearchService.SearchResult) :
  VectorSearchService.stays_before a b = false ->
  VectorSearchService.stays_before b a = true.
Proof.
  unfold VectorSearchService.stays_before, VectorSearchService.compareFn,
    F64.gt.
  intros H. apply negb_false_iff in H. apply negb_true_iff.
  now apply sub_antisym.
Qed.

Lemma is_pos_c0_3 : is_pos F64.c0_3.
Proof. vm_compute. discriminate. Qed.

Lemma is_pos_c0_1 : is_pos F64.c0_1.
Proof. vm_compute. discriminate. Qed.

Lemma is_pos_c1_0 : is_pos F64.c1_0.
Proof. vm_compute. discriminate. Qed.

Lemma chain_impl_In {A} (R R' : A -> A -> Prop) (l : list A) :
  (forall x y, In x l -> In y l -> R x y -> R' x y) ->
  chain R l -> chain R' l.
Proof.
  intros H Hc. induction Hc as [|x|x y l Hxy Hl IH]; constructor.
  - apply H; simpl; auto.
  - apply IH. intros a b Ha Hb. apply H; simpl; auto.
Qed.

(** A score is NaN or a value of sign [+]. *)
Lemma calculateTextSimilarity_nan_or_nonneg (query : string)
    (article : Article.t) :
  nan_or_nonneg (VectorSearchService.calculateTextSimilarity query article).
Proof.
  unfold VectorSearchService.calculateTextSimilarity.
  apply Math_min_nan_or_nonneg; [|apply is_pos_c1_0].
  set (j := F64.div _ _).
  assert (H0 : nan_or_nonneg j)
    by (apply div_nan_or_nonneg; apply of_Z_nonneg; unfold JS.size; lia).
  set (s1 := if JS.includes _ query then F64.add j F64.c0_3 else j).
  assert (H1 : nan_or_nonneg s1).
  { unfold s1. destruct (JS.includes _ query); [|exact H0].
    apply add_nan_or_nonneg; [exact H0|apply is_pos_c0_3]. }
  destruct (Article.category article) as [c|]; [|exact H1].
  destruct (negb (String.eqb c "") && JS.includes (JS.toLowerCase c) query);
    [|exact H1].
  apply add_nan_or_nonneg; [exact H1|apply is_pos_c0_1].
Qed.

(** On positive scores the comparator of the sort is the exact order. *)
Lemma stays_before_exact (a b : VectorSearchService.SearchResult) :
  is_pos (VectorSearchService.score a) ->
  is_pos (VectorSearchService.score b) ->
  VectorSearchService.stays_before a b = true <-> score_ge a b.
Proof.
  intros Ha Hb.
  unfold VectorSearchService.stays_before, VectorSearchService.compareFn,
    F64.gt, score_ge.
  pose proof (sub_gt_zero_iff _ _ Ha Hb) as H.
  destruct (SFltb F64.zero _); simpl; split; intros H'; try discriminate;
    try reflexivity.
  - exfalso. now apply (proj1 H).
  - destruct (magnitude (VectorSearchService.score b)) as [x|],
             (magnitude (VectorSearchService.score a)) as [y|];
      simpl in *; auto.
    + destruct (Z.le_gt_cases x y); [assumption|].
      exfalso. assert (E : false = true) by (apply H; lia). discriminate.
    + exfalso. assert (E : false = true) by (apply H; tauto). discriminate.
Qed.

Lemma text_search_spec (db : D1) (query : string) (limit : Z) :
  let candidates := DatabaseService.getArticles db (limit * 3) in
  let results := VectorSearchService.text_search db query limit in
  (exists ranked,
     Permutation ranked
       (List.filter (fun r => F64.gt (VectorSearchService.score r) F64.zero)
                    (map (VectorSearchService.scored query) candidates))
     /\ chain (fun a b => VectorSearchService.stays_before a b = true) ranked
     /\ results = JS.slice0 limit ranked)
  /\ (forall r, In r results ->
        F64.gt (VectorSearchService.score r) F64.zero = true
        /\ exists a, In a candidates
                     /\ r = VectorSearchService.scored query a
                     /\ VectorSearchService.score r = similarity query a)
  /\ chain (fun a b => VectorSearchService.stays_before a b = true) results
  /\ (forall r, In r results -> is_pos (VectorSearchService.score r))
  /\ StronglySorted score_ge results
  /\ (0 <= limit -> Z.of_nat (List.length results) <= limit).
Proof.
  cbv zeta. unfold VectorSearchService.text_search.
  set (cands := DatabaseService.getArticles db (limit * 3)).
  set (pos := List.filter _ (map (VectorSearchService.scored query) cands)).
  pose proof (sort_by_chain VectorSearchService.stays_before pos
                stays_before_total) as Hchain.
  assert (Hin : forall r,
            In r (JS.slice0 limit (sort_by VectorSearchService.stays_before pos)) ->
            F64.gt (VectorSearchService.score r) F64.zero = true
            /\ exists a, In a cands
                         /\ r = VectorSearchService.scored query a
                         /\ VectorSearchService.score r = similarity query a).
  { intros r Hr. apply slice0_In, sort_by_In in Hr.
    unfold pos in Hr. apply filter_In in Hr as [Hr Hs].
    split; [exact Hs|].
    apply in_map_iff in Hr as (a & <- & Ha). exists a. repeat split; auto. }
  assert (Hpos : forall r,
            In r (JS.slice0 limit (sort_by VectorSearchService.stays_before pos)) ->
            is_pos (VectorSearchService.score r)).
  { intros r Hr. destruct (Hin r Hr) as (Hgt & a & _ & _ & Hs).
    apply nan_or_nonneg_gt_zero; [|exact Hgt].
    rewrite Hs. apply calculateTextSimilarity_nan_or_nonneg. }
  assert (Hchain' :
            chain (fun a b => VectorSearchService.stays_before a b = true)
                  (JS.slice0 limit (sort_by VectorSearchService.stays_before pos))).
  { destruct (slice0_take limit (sort_by VectorSearchService.stays_before pos))
      as [k ->].
    now apply chain_take. }
  split; [|split; [|split; [|split; [|split]]]].
  - exists (sort_by VectorSearchService.stays_before pos).
    split; [apply sort_by_Permutation|]. split; [exact Hchain|reflexivity].
  - exact Hin.
  - exact Hchain'.
  - exact Hpos.
  - apply chain_StronglySorted.
    + intros a b c. unfold score_ge. intros H1 H2.
      eapply mag_le_trans; eauto.
    + eapply chain_impl_In; [|exact Hchain'].
      intros x y Hx Hy H. apply stays_before_exact; auto.
  - apply slice0_length.
Qed.

(** ** A query against a title that contains it *)








(** ** Concrete cases *)

(** Appending to an empty workspace gives order 0. *)
Lemma addToWorkspace_order_first :
  exists item db',
    DatabaseService.addToWorkspace Sample.call (Sample.db true) "a1"
    = Ok (item, db')
    /\ WorkspaceItem.order item = 0.
Proof.
  destruct (addToWorkspace_order Sample.call (Sample.db true) "a1"
              eq_refl eq_refl)
    as (item & db' & H & Hempty & _).
  exists item, db'. split; [exact H|]. apply Hempty. reflexivity.
Defined.

(** Appending again gives order 1. *)
Example addToWorkspace_twice :
  exists i1 db1 i2 db2,
    DatabaseService.addToWorkspace Sample.call (Sample.db true) "a1"
    = Ok (i1, db1)
    /\ DatabaseService.addToWorkspace
         (mkCall (fun _ => "uuid-2") (now Sample.call)
                 (datetime_now Sample.call)) db1 "a2"
       = Ok (i2, db2)
    /\ WorkspaceItem.order i1 = 0 /\ WorkspaceItem.order i2 = 1.
Proof. do 4 eexists. repeat split; reflexivity. Qed.

(** [reorder([b, a])] on the workspace [a, b] (orders 0, 1) gives [a]
    the order 1 and [b] the order 0. *)
Example reorder_b_a :
  map (fun r => (WorkspaceItemRow.id r, WorkspaceItemRow.order_index r))
      (workspace_items
         (Routes.reorder Sample.call ["b"; "a"]
            (mkD1 [Sample.feed true] [Sample.a1; Sample.a2]
                  [Sample.item "a" "a1" 0 None None;
                   Sample.item "b" "a2" 1 None None] [] [] ∅)))
  = [("a", 1); ("b", 0)].
Proof. reflexivity. Qed.

(** [updateWorkspaceItem(id, {customAnalysis: 'x'})] sets the edited
    flag and leaves the custom content as it was. *)
Lemma updateWorkspaceItem_analysis_only :
  exists item db',
    DatabaseService.updateWorkspaceItem Sample.call Sample.report_db "w1"
      (WorkspaceItemPatch.mk None (Some "x")) = (Some item, db')
    /\ WorkspaceItem.isEdited item = true
    /\ WorkspaceItem.customAnalysis item = Some "x"
    /\ WorkspaceItem.customContent item
       = WorkspaceItem.customContent
           (DatabaseService.mapWorkspaceItemRow
              (Sample.item "w1" "a1" 0 (Some "") None)).
Proof.
  destruct (updateWorkspaceItem_partial Sample.call Sample.report_db "w1"
              (WorkspaceItemPatch.mk None (Some "x"))
              (Sample.item "w1" "a1" 0 (Some "") None) eq_refl)
    as (item & db' & H & _ & _ & _ & _ & _ & _ & He & _ & _ & _ & Hc & Ha).
  - right. discriminate.
  - exists item, db'. repeat split; assumption.
Defined.

Lemma sample_urls_unique : urls_unique (Sample.db true).
Proof. unfold urls_unique. apply (bool_decide_unpack _). vm_compute. exact I. Defined.

Lemma sample_ids_unique : ids_unique (Sample.db true).
Proof. unfold ids_unique. apply (bool_decide_unpack _). vm_compute. exact I. Defined.

(** An entry whose link is the url of the stored article [a1] is passed
    over. *)
Lemma fetchFeed_dedup_sample :
  FeedFetcher.process_item Sample.quiet Sample.call
    (DatabaseService.mapRSSFeedRow (Sample.feed true))
    (Sample.db true, 0, O)
    (RSSItem.mk (Some "US-China Trade Relations")
                (Some "https://www.cfr.org/a1") None None None None None)
  = (Sample.db true, 0, O).
Proof.
  destruct (fetchFeed_dedup_by_url Sample.quiet Sample.call (Sample.db true)
              sample_urls_unique) as (_ & _ & H).
  apply (H _ 0 O _ "https://www.cfr.org/a1"); [reflexivity|].
  simpl. auto.
Defined.

(** A fetch of the active sample feed under a retention of 1 leaves one
    article of the two. *)
Lemma fetchFeed_trims_sample :
  Z.of_nat (List.length
              (articles_of
                 (snd (FeedFetcher.fetchFeed Sample.quiet Sample.call
                         (Sample.db true) "feed_cfr")) "feed_cfr")) <= 1.
Proof.
  destruct (fetchFeed_trims Sample.quiet Sample.call (Sample.db true)
              "feed_cfr" (DatabaseService.mapRSSFeedRow (Sample.feed true))
              [] 1 sample_ids_unique eq_refl eq_refl eq_refl eq_refl)
    as (_ & _ & H & _).
  - lia.
  - exact H.
Defined.

(** The query [trade] on the two sample articles: the first has the
    word in its title, the second has no word and no substring in
    common with the query. *)
Example trade_scores :
  F64.lt (similarity "trade" (DatabaseService.mapArticleRow Sample.a2))
         (similarity "trade" (DatabaseService.mapArticleRow Sample.a1)) = true
  /\ similarity "trade" (DatabaseService.mapArticleRow Sample.a2) = F64.zero.
Proof. split; vm_compute; reflexivity. Qed.


(** * Further properties *)

(** ** Cuts are prefixes *)

Lemma substring0_min (s : string) :
  forall m n : nat,
    String.substring 0 m (String.substring 0 n s)
    = String.substring 0 (Nat.min m n) s.
Proof.
  induction s as [|a s IH]; intros [|m] [|n]; simpl; try reflexivity.
  now rewrite IH.
Qed.

Lemma substring0_prefix (s : string) :
  forall n : nat, String.prefix (String.substring 0 n s) s = true.
Proof.
  induction s as [|a s IH]; intros [|n]; simpl; try reflexivity.
  rewrite IH. now destruct (ascii_dec a a).
Qed.

Lemma JS_substring0_prefix (n : Z) (s : string) :
  String.prefix (JS.substring0 n s) s = true.
Proof. apply substring0_prefix. Qed.

Lemma JS_substring0_nested_prefix (m n : Z) (s : string) :
  String.prefix (JS.substring0 m (JS.substring0 n s)) s = true.
Proof.
  unfold JS.substring0. rewrite substring0_min. apply substring0_prefix.
Qed.

(** X1.  Whatever the cap, [truncateText] gives a prefix of its input:
    it never rewrites a character.  With a cap that is not negative
    the prefix has at most that many characters, and it is the whole
    input exactly when the input fits. *)
Theorem truncateText_prefix (text : string) (maxLength : Z) :
  String.prefix (AIService.truncateText text maxLength) text = true
  /\ (0 <= maxLength ->
      JS.length (AIService.truncateText text maxLength) <= maxLength
      /\ (AIService.truncateText text maxLength = text
          <-> JS.length text <= maxLength)).
Proof.
  split.
  - unfold AIService.truncateText.
    repeat match goal with
           | |- context [if ?b then _ else _] => destruct b
           end;
      try apply JS_substring0_nested_prefix; try apply JS_substring0_prefix.
    pose proof (substring0_prefix text (String.length text)) as H.
    now rewrite substring0_all in H by lia.
  - intros Hcap. split; [now apply truncateText_length|].
    split; [|apply truncateText_short].
    intros E. rewrite <- E at 1. now apply truncateText_length.
Qed.

(** ** Snippets *)

Lemma append_length (s t : string) :
  String.length (s +:+ t) = (String.length s + String.length t)%nat.
Proof. induction s as [|a s IH]; simpl; [reflexivity|now rewrite IH]. Qed.

(** X2.  A snippet is the cleaned text itself when that has at most
    [maxLength] characters.  Otherwise it is a prefix of the cleaned
    text of at most [maxLength] characters, as it is or followed by
    three dots: the cap of 200 gives snippets of up to 203
    characters. *)
Theorem createSnippet_shape (item : RSSItem.t) (maxLength : Z) :
  0 <= maxLength ->
  let cleaned := FeedFetcher.cleanText (snippet_source item) in
  let snippet := FeedFetcher.createSnippet item maxLength in
  (JS.length cleaned <= maxLength -> snippet = cleaned)
  /\ (maxLength < JS.length cleaned ->
      exists head,
        String.prefix head cleaned = true
        /\ JS.length head <= maxLength
        /\ (snippet = head \/ snippet = head +:+ "..."))
  /\ JS.length snippet <= maxLength + 3.
Proof.
  intros Hcap cleaned snippet.
  assert (Happ : forall s, JS.length (s +:+ "...") = JS.length s + 3).
  { intros s. unfold JS.length. rewrite append_length. simpl. lia. }
  assert (Hcut : forall k, JS.length (JS.substring0 k (JS.substring0 maxLength cleaned))
                           <= maxLength).
  { intros k. rewrite !JS_substring0_length. lia. }
  assert (Hhead : JS.length (JS.substring0 maxLength cleaned) <= maxLength).
  { rewrite JS_substring0_length. lia. }
  subst snippet. unfold FeedFetcher.createSnippet.
  fold (snippet_source item). fold cleaned.
  destruct (Z.leb_spec (JS.length cleaned) maxLength) as [Hshort|Hlong].
  - split; [reflexivity|]. split; [lia|]. lia.
  - split; [lia|].
    destruct (AIService.beyond _ maxLength F64.c0_7).
    + split.
      * intros _. eexists. split; [apply JS_substring0_nested_prefix|].
        split; [apply Hcut|]. now left.
      * specialize (Hcut (JS.lastIndexOf "." (JS.substring0 maxLength cleaned) + 1)).
        lia.
    + destruct (_ >? 0).
      * split.
        -- intros _. eexists. split; [apply JS_substring0_nested_prefix|].
           split; [apply Hcut|]. now right.
        -- rewrite Happ.
           specialize (Hcut (JS.lastIndexOf " " (JS.substring0 maxLength cleaned))).
           lia.
      * split.
        -- intros _. eexists. split; [apply JS_substring0_prefix|].
           split; [apply Hhead|]. now right.
        -- rewrite Happ. lia.
Qed.

Lemma createSnippet_shape_title :
  let item := RSSItem.mk (Some "Arctic Shipping Lanes") None None None None
                None None in
  FeedFetcher.createSnippet item 200 = "Arctic Shipping Lanes"
  /\ JS.length (FeedFetcher.createSnippet item 200) <= 200 + 3.
Proof.
  intros item.
  destruct (createSnippet_shape item 200 ltac:(lia)) as (H1 & _ & H3).
  split; [|exact H3].
  rewrite H1; [reflexivity|]. vm_compute. discriminate.
Defined.

(** ** What a fetch stores *)

Lemma truthy_idem (o : option string) : truthy (truthy o) = truthy o.
Proof.
  destruct o as [s|]; simpl; [|reflexivity].
  destruct (String.eqb s "") eqn:E; simpl; [reflexivity|now rewrite E].
Qed.

Lemma process_item_appends (P : Platform) (c : Call) (feed : RSSFeed.t)
    (db : D1) (added : Z) (k : nat) (item : RSSItem.t) :
  let '(db', added', _) :=
    FeedFetcher.process_item P c feed (db, added, k) item in
  (db' = db /\ added' = added)
  \/ (exists row,
        db' = set_articles db (articles db ++ [row])
        /\ added' = added + 1 /\ stored_for P c feed item row).
Proof.
  unfold FeedFetcher.process_item.
  destruct (truthy (RSSItem.link item)) as [link|] eqn:El; [|now left].
  destruct (truthy (RSSItem.title item)) as [title|] eqn:Et; [|now left].
  destruct (existsb _ (articles db)); [now left|].
  unfold DatabaseService.createArticle.
  destruct (existsb _ (articles db)); [now left|].
  destruct (existsb _ (articles db)); [now left|].
  destruct (negb _); [now left|].
  right. eexists. split; [reflexivity|]. split; [reflexivity|].
  unfold stored_for. cbn.
  split; [exact El|]. split; [now exists title|].
  repeat split; try reflexivity.
Qed.

Lemma process_items_append (P : Platform) (c : Call) (feed : RSSFeed.t)
    (items : list RSSItem.t) :
  forall (db : D1) (added : Z) (k : nat),
    let '(db', added', _) :=
      fold_left (FeedFetcher.process_item P c feed) items (db, added, k) in
    exists new,
      db' = set_articles db (articles db ++ new)
      /\ added' = added + Z.of_nat (List.length new)
      /\ (List.length new <= List.length items)%nat
      /\ List.Forall
           (fun row => exists item, In item items
                                    /\ stored_for P c feed item row) new.
Proof.
  induction items as [|item items IH]; intros db added k; cbn [fold_left].
  - exists []. rewrite app_nil_r. destruct db. repeat split; auto; simpl; lia.
  - pose proof (process_item_appends P c feed db added k item) as H.
    destruct (FeedFetcher.process_item P c feed (db, added, k) item)
      as [[db1 added1] k1].
    specialize (IH db1 added1 k1).
    destruct (fold_left (FeedFetcher.process_item P c feed) items
                (db1, added1, k1)) as [[db2 added2] k2].
    destruct IH as (new & I1 & I2 & I3 & I4).
    assert (I4' : List.Forall
                    (fun row => exists it, In it (item :: items)
                                           /\ stored_for P c feed it row) new).
    { eapply List.Forall_impl; [|exact I4].
      intros row (it & Hit & Hs). exists it. split; [now right|exact Hs]. }
    destruct H as [[-> ->]|(row & -> & -> & Hrow)].
    + exists new. repeat split; auto. simpl. lia.
    + exists (row :: new). subst db2. cbn.
      rewrite <- app_assoc. repeat split.
      * lia.
      * lia.
      * constructor; [|exact I4'].
        exists item. split; [now left|exact Hrow].
Qed.

(** X3.  When the document of an active feed is fetched, the loop of
    [fetchFeed] appends rows to the [articles] table and touches
    nothing else.  [articlesAdded] is the number of these rows,
    counted before the trim that follows; it is at most the number of
    entries read, hence at most a retention that is not negative.
    Every new row is unread and unarchived, belongs to the feed,
    carries the category of the feed and the link of one of the
    entries as its url. *)
Theorem fetchFeed_added (P : Platform) (c : Call) (db : D1) (feedId : string)
    (feed : RSSFeed.t) (items : list RSSItem.t) :
  DatabaseService.getRSSFeed db feedId = Some feed ->
  RSSFeed.isActive feed = true ->
  parseURL P (RSSFeed.url feed) = Ok items ->
  let recentItems :=
    FeedFetcher.recent (FeedFetcher.getMaxArticlesPerFeed db) items in
  let db1 := fst (fst (FeedFetcher.ingest P c feed recentItems db)) in
  let r := fst (FeedFetcher.fetchFeed P c db feedId) in
  exists new,
    db1 = set_articles db (articles db ++ new)
    /\ FeedFetcher.articlesAdded r = Z.of_nat (List.length new)
    /\ (List.length new <= List.length recentItems)%nat
    /\ (forall n, FeedFetcher.getMaxArticlesPerFeed db = Some n -> 0 <= n ->
                  FeedFetcher.articlesAdded r <= n)
    /\ List.Forall
         (fun row => exists item, In item recentItems
                                  /\ In item items
                                  /\ stored_for P c feed item row) new.
Proof.
  intros Hfeed Hactive Hparse recentItems db1 r.
  subst r db1. unfold FeedFetcher.fetchFeed.
  rewrite Hfeed, Hactive, Hparse. fold recentItems.
  unfold FeedFetcher.ingest.
  pose proof (process_items_append P c feed recentItems db 0 O) as H.
  destruct (fold_left (FeedFetcher.process_item P c feed) recentItems
              (db, 0, O)) as [[db1 added] k].
  destruct H as (new & H1 & H2 & H3 & H4). cbn.
  exists new. split; [exact H1|]. split; [lia|]. split; [exact H3|]. split.
  - intros n Hn Hpos. subst recentItems. rewrite Hn in H3. simpl in H3.
    pose proof (slice0_length n items Hpos). lia.
  - eapply List.Forall_impl; [|exact H4].
    intros row (it & Hit & Hs). exists it.
    split; [exact Hit|]. split; [|exact Hs].
    subst recentItems. destruct (FeedFetcher.getMaxArticlesPerFeed db);
      simpl in Hit; [now apply slice0_In in Hit|contradiction].
Qed.

Lemma process_items_feeds (P : Platform) (c : Call) (feed : RSSFeed.t)
    (items : list RSSItem.t) (db : D1) :
  rss_feeds (fst (fst (FeedFetcher.ingest P c feed items db))) = rss_feeds db.
Proof.
  unfold FeedFetcher.ingest.
  pose proof (process_items_keys P c feed items db 0 O) as H.
  destruct (fold_left (FeedFetcher.process_item P c feed) items (db, 0, O))
    as [[db1 added] k].
  now destruct H as (H & _).
Qed.

Lemma cleanupOldArticles_feeds (db : D1) (feedId : string) (n : option Z) :
  rss_feeds (FeedFetcher.cleanupOldArticles db feedId n) = rss_feeds db.
Proof. now destruct n. Qed.

Lemma find_feed_map (f : RSSFeedRow.t -> RSSFeedRow.t) (id : string)
    (rows : list RSSFeedRow.t) :
  (forall r, RSSFeedRow.id (f r) = RSSFeedRow.id r) ->
  List.find (fun r => String.eqb (RSSFeedRow.id r) id) (map f rows)
  = option_map f (List.find (fun r => String.eqb (RSSFeedRow.id r) id) rows).
Proof.
  intros Hid. induction rows as [|r rows IH]; simpl; [reflexivity|].
  rewrite Hid. now destruct (String.eqb (RSSFeedRow.id r) id).
Qed.

Lemma find_feed_id (id : string) (rows : list RSSFeedRow.t) r :
  List.find (fun r => String.eqb (RSSFeedRow.id r) id) rows = Some r ->
  RSSFeedRow.id r = id /\ In r rows.
Proof.
  intros H. apply find_some in H as [H1 H2].
  now apply String.eqb_eq in H2.
Qed.

(** The feed rows after a fetch that got its document. *)
Lemma fetchFeed_feed_rows (P : Platform) (c : Call) (db : D1)
    (feedId : string) (feed : RSSFeed.t) (items : list RSSItem.t) :
  DatabaseService.getRSSFeed db feedId = Some feed ->
  RSSFeed.isActive feed = true ->
  parseURL P (RSSFeed.url feed) = Ok items ->
  rss_feeds (snd (FeedFetcher.fetchFeed P c db feedId))
  = map (fun r => if String.eqb (RSSFeedRow.id r) feedId
                  then stamped c r else r)
        (rss_feeds db).
Proof.
  intros Hfeed Hactive Hparse. unfold FeedFetcher.fetchFeed.
  rewrite Hfeed, Hactive, Hparse.
  pose proof (process_items_feeds P c feed
                (FeedFetcher.recent (FeedFetcher.getMaxArticlesPerFeed db) items)
                db) as Hing.
  destruct (FeedFetcher.ingest P c feed _ db) as [[db1 added] k].
  cbn [fst snd] in *. rewrite cleanupOldArticles_feeds.
  unfold DatabaseService.updateRSSFeed, DatabaseService.getRSSFeed.
  rewrite Hing. fold (DatabaseService.getRSSFeed db feedId). rewrite Hfeed.
  cbn [snd set_rss_feeds rss_feeds]. reflexivity.
Qed.

(** X4.  A fetch that succeeds stamps the feed: its [lastFetched]
    becomes the time of the request, its other fields stay, and the
    rows of the other feeds are not touched. *)
Theorem fetchFeed_stamps (P : Platform) (c : Call) (db : D1) (feedId : string)
    (feed : RSSFeed.t) (items : list RSSItem.t) :
  DatabaseService.getRSSFeed db feedId = Some feed ->
  RSSFeed.isActive feed = true ->
  parseURL P (RSSFeed.url feed) = Ok items ->
  let db' := snd (FeedFetcher.fetchFeed P c db feedId) in
  rss_feeds db'
  = map (fun r => if String.eqb (RSSFeedRow.id r) feedId
                  then stamped c r else r)
        (rss_feeds db)
  /\ exists feed',
       DatabaseService.getRSSFeed db' feedId = Some feed'
       /\ RSSFeed.lastFetched feed' = truthy (Some (now c))
       /\ RSSFeed.id feed' = RSSFeed.id feed
       /\ RSSFeed.name feed' = RSSFeed.name feed
       /\ RSSFeed.url feed' = RSSFeed.url feed
       /\ RSSFeed.category feed' = RSSFeed.category feed
       /\ RSSFeed.isActive feed' = true.
Proof.
  intros Hfeed Hactive Hparse db'.
  pose proof (fetchFeed_feed_rows P c db feedId feed items
                Hfeed Hactive Hparse) as Hrows.
  fold db' in Hrows.
  split; [exact Hrows|].
  unfold DatabaseService.getRSSFeed in *. rewrite Hrows.
  rewrite find_feed_map
    by (intros r; now destruct (String.eqb (RSSFeedRow.id r) feedId)).
  destruct (List.find _ (rss_feeds db)) as [row|] eqn:Efind; [|discriminate].
  apply find_feed_id in Efind as [Eid _].
  injection Hfeed as <-. simpl in Hactive.
  cbn [option_map]. rewrite Eid, String.eqb_refl.
  eexists. split; [reflexivity|].
  cbn. repeat split; auto.
Qed.

Lemma fetchFeed_stamps_sample :
  rss_feeds (snd (FeedFetcher.fetchFeed Sample.quiet Sample.call
                    (Sample.db true) "feed_cfr"))
  = [stamped Sample.call (Sample.feed true)].
Proof.
  destruct (fetchFeed_stamps Sample.quiet Sample.call (Sample.db true)
              "feed_cfr"
              (DatabaseService.mapRSSFeedRow (Sample.feed true)) []
              eq_refl eq_refl eq_refl) as [H _].
  exact H.
Defined.

Lemma fetchFeed_added_sample :
  FeedFetcher.articlesAdded
    (fst (FeedFetcher.fetchFeed Cases.one_entry Sample.call (Sample.db true)
            "feed_cfr")) <= 1.
Proof.
  destruct (fetchFeed_added Cases.one_entry Sample.call (Sample.db true)
              "feed_cfr" (DatabaseService.mapRSSFeedRow (Sample.feed true))
              [Cases.entry] eq_refl eq_refl eq_refl)
    as (new & _ & _ & _ & H & _).
  apply (H 1); [reflexivity|lia].
Defined.

(** ** The references between the tables *)

Lemma references_same_keys (db db' : D1) :
  map RSSFeedRow.id (rss_feeds db') = map RSSFeedRow.id (rss_feeds db) ->
  map ArticleRow.id (articles db') = map ArticleRow.id (articles db) ->
  map ArticleRow.feed_id (articles db')
  = map ArticleRow.feed_id (articles db) ->
  map WorkspaceItemRow.id (workspace_items db')
  = map WorkspaceItemRow.id (workspace_items db) ->
  map WorkspaceItemRow.article_id (workspace_items db')
  = map WorkspaceItemRow.article_id (workspace_items db) ->
  reports db' = reports db ->
  report_items db' = report_items db ->
  references_hold db -> references_hold db'.
Proof.
  unfold references_hold. intros -> -> -> -> -> -> ->. auto.
Qed.

Lemma map_if_same {A B} (g : A -> B) (p : A -> bool) (f : A -> A)
    (l : list A) :
  (forall x, g (f x) = g x) ->
  map g (map (fun x => if p x then f x else x) l) = map g l.
Proof.
  intros H. rewrite map_map. apply map_ext. intros x.
  now destruct (p x).
Qed.

Lemma In_map_filter {A B} (g : A -> B) (p : A -> bool) (l : list A) (y : B) :
  In y (map g (List.filter p l)) -> In y (map g l).
Proof.
  rewrite !in_map_iff. intros (x & E & Hx). apply filter_In in Hx as [Hx _].
  now exists x.
Qed.

(** The cascade from the articles downwards. *)
Lemma cascade_below (rows : list ArticleRow.t) (dead : ArticleRow.t -> bool)
    (db : D1) :
  incl (map WorkspaceItemRow.article_id (workspace_items db))
       (map ArticleRow.id rows) ->
  incl (map ReportItemRow.workspace_item_id (report_items db))
       (map WorkspaceItemRow.id (workspace_items db)) ->
  let gone := List.filter dead rows in
  let w_dead w :=
    existsb (fun a => String.eqb (ArticleRow.id a)
                        (WorkspaceItemRow.article_id w)) gone in
  let w_gone := List.filter w_dead (workspace_items db) in
  let ri_dead ri :=
    existsb (fun w => String.eqb (WorkspaceItemRow.id w)
                        (ReportItemRow.workspace_item_id ri)) w_gone in
  incl (map WorkspaceItemRow.article_id
          (List.filter (fun w => negb (w_dead w)) (workspace_items db)))
       (map ArticleRow.id (List.filter (fun a => negb (dead a)) rows))
  /\ incl (map ReportItemRow.workspace_item_id
             (List.filter (fun ri => negb (ri_dead ri)) (report_items db)))
          (map WorkspaceItemRow.id
             (List.filter (fun w => negb (w_dead w)) (workspace_items db))).
Proof.
  intros Hw Hri gone w_dead w_gone ri_dead. split.
  - intros k Hk. apply in_map_iff in Hk as (w & <- & Hin).
    apply filter_In in Hin as [Hin Halive].
    apply negb_true_iff in Halive.
    assert (Ha : In (WorkspaceItemRow.article_id w) (map ArticleRow.id rows))
      by (apply Hw, in_map, Hin).
    apply in_map_iff in Ha as (a & Ea & Ha).
    apply in_map_iff. exists a. split; [exact Ea|].
    apply filter_In. split; [exact Ha|].
    apply negb_true_iff. destruct (dead a) eqn:Ed; [|reflexivity].
    exfalso. apply not_true_iff_false in Halive. apply Halive.
    apply existsb_exists. exists a. split.
    + apply filter_In. now split.
    + now apply String.eqb_eq.
  - intros k Hk. apply in_map_iff in Hk as (ri & <- & Hin).
    apply filter_In in Hin as [Hin Halive].
    apply negb_true_iff in Halive.
    assert (Hx : In (ReportItemRow.workspace_item_id ri)
                    (map WorkspaceItemRow.id (workspace_items db)))
      by (apply Hri, in_map, Hin).
    apply in_map_iff in Hx as (w & Ew & Hx).
    apply in_map_iff. exists w. split; [exact Ew|].
    apply filter_In. split; [exact Hx|].
    apply negb_true_iff. destruct (w_dead w) eqn:Ed; [|reflexivity].
    exfalso. apply not_true_iff_false in Halive. apply Halive.
    apply existsb_exists. exists w. split.
    + apply filter_In. now split.
    + now apply String.eqb_eq.
Qed.

Lemma delete_articles_references (dead : ArticleRow.t -> bool) (db : D1) :
  references_hold db -> references_hold (delete_articles dead db).
Proof.
  intros (H1 & H2 & H3 & H4).
  destruct (cascade_below (articles db) dead db H2 H4) as [C1 C2].
  unfold references_hold, delete_articles. cbn.
  split; [|split; [exact C1|split; [|exact C2]]].
  - intros k Hk. apply H1. eapply In_map_filter, Hk.
  - intros k Hk. apply H3. eapply In_map_filter, Hk.
Qed.

Lemma delete_workspace_items_references (dead : WorkspaceItemRow.t -> bool)
    (db : D1) :
  references_hold db -> references_hold (delete_workspace_items dead db).
Proof.
  intros (H1 & H2 & H3 & H4).
  unfold references_hold, delete_workspace_items. cbn.
  split; [exact H1|split; [|split]].
  - intros k Hk. apply H2. eapply In_map_filter, Hk.
  - intros k Hk. apply H3. eapply In_map_filter, Hk.
  - intros k Hk. apply in_map_iff in Hk as (ri & <- & Hin).
    apply filter_In in Hin as [Hin Halive].
    apply negb_true_iff in Halive.
    assert (Hx : In (ReportItemRow.workspace_item_id ri)
                    (map WorkspaceItemRow.id (workspace_items db)))
      by (apply H4, in_map, Hin).
    apply in_map_iff in Hx as (w & Ew & Hx).
    apply in_map_iff. exists w. split; [exact Ew|].
    apply filter_In. split; [exact Hx|].
    apply negb_true_iff. destruct (dead w) eqn:Ed; [|reflexivity].
    exfalso. apply not_true_iff_false in Halive. apply Halive.
    apply existsb_exists. exists w. split.
    + apply filter_In. now split.
    + now apply String.eqb_eq.
Qed.

Lemma delete_rss_feeds_references (dead : RSSFeedRow.t -> bool) (db : D1) :
  references_hold db -> references_hold (delete_rss_feeds dead db).
Proof.
  intros (H1 & H2 & H3 & H4).
  unfold delete_rss_feeds.
  set (a_dead := fun a : ArticleRow.t =>
                   existsb (fun f => String.eqb (RSSFeedRow.id f)
                                       (ArticleRow.feed_id a))
                           (List.filter dead (rss_feeds db))).
  destruct (cascade_below (articles db) a_dead db H2 H4) as [C1 C2].
  unfold references_hold, delete_articles. cbn.
  split; [|split; [exact C1|split; [|exact C2]]].
  - intros k Hk. apply in_map_iff in Hk as (a & <- & Hin).
    apply filter_In in Hin as [Hin Halive].
    apply negb_true_iff in Halive.
    assert (Hx : In (ArticleRow.feed_id a) (map RSSFeedRow.id (rss_feeds db)))
      by (apply H1, in_map, Hin).
    apply in_map_iff in Hx as (f & Ef & Hx).
    apply in_map_iff. exists f. split; [exact Ef|].
    apply filter_In. split; [exact Hx|].
    apply negb_true_iff. destruct (dead f) eqn:Ed; [|reflexivity].
    exfalso. apply not_true_iff_false in Halive. apply Halive.
    apply existsb_exists. exists f. split.
    + apply filter_In. now split.
    + now apply String.eqb_eq.
  - intros k Hk. apply H3. eapply In_map_filter, Hk.
Qed.

Lemma delete_reports_references (dead : ReportRow.t -> bool) (db : D1) :
  references_hold db -> references_hold (delete_reports dead db).
Proof.
  intros (H1 & H2 & H3 & H4).
  unfold references_hold, delete_reports. cbn.
  split; [exact H1|split; [exact H2|split]].
  - intros k Hk. apply in_map_iff in Hk as (ri & <- & Hin).
    apply filter_In in Hin as [Hin Halive].
    apply negb_true_iff in Halive.
    assert (Hx : In (ReportItemRow.report_id ri)
                    (map ReportRow.id (reports db)))
      by (apply H3, in_map, Hin).
    apply in_map_iff in Hx as (r & Er & Hx).
    apply in_map_iff. exists r. split; [exact Er|].
    apply filter_In. split; [exact Hx|].
    apply negb_true_iff. destruct (dead r) eqn:Ed; [|reflexivity].
    exfalso. apply not_true_iff_false in Halive. apply Halive.
    apply existsb_exists. exists r. split.
    + apply filter_In. now split.
    + now apply String.eqb_eq.
  - intros k Hk. apply H4. eapply In_map_filter, Hk.
Qed.

Lemma references_more_articles (db : D1) (new : list ArticleRow.t) :
  incl (map ArticleRow.feed_id new) (map RSSFeedRow.id (rss_feeds db)) ->
  references_hold db ->
  references_hold (set_articles db (articles db ++ new)).
Proof.
  intros Hnew (H1 & H2 & H3 & H4). unfold references_hold. cbn.
  rewrite !map_app. repeat split; auto.
  - now apply incl_app.
  - now apply incl_appl.
Qed.

Lemma createArticle_references (c : Call) (k : nat) (db db' : D1)
    (article : NewArticle.t) (a : Article.t) :
  DatabaseService.createArticle c k db article = Ok (a, db') ->
  references_hold db -> references_hold db'.
Proof.
  unfold DatabaseService.createArticle.
  destruct (existsb _ (articles db)); [discriminate|].
  destruct (existsb _ (articles db)); [discriminate|].
  destruct (existsb _ (rss_feeds db)) eqn:Efk; [|discriminate].
  cbn [negb]. intros [= <- <-].
  apply references_more_articles.
  intros k' [<-|[]]. cbn. now apply existsb_eqb_In in Efk.
Qed.

Lemma ingest_references (P : Platform) (c : Call) (feed : RSSFeed.t)
    (items : list RSSItem.t) :
  forall st : FeedFetcher.LoopState,
    references_hold (fst (fst st)) ->
    references_hold
      (fst (fst (fold_left (FeedFetcher.process_item P c feed) items st))).
Proof.
  induction items as [|item items IH]; intros [[db added] k] H;
    cbn [fold_left]; [exact H|].
  apply IH. unfold FeedFetcher.process_item.
  destruct (truthy (RSSItem.link item)); [|exact H].
  destruct (truthy (RSSItem.title item)); [|exact H].
  destruct (existsb _ (articles db)); [exact H|].
  destruct (DatabaseService.createArticle _ _ _ _) as [[a db']|msg] eqn:E;
    [|exact H].
  cbn. eapply createArticle_references; eauto.
Qed.

Lemma fetchFeed_references (P : Platform) (c : Call) (db : D1)
    (feedId : string) :
  references_hold db ->
  references_hold (snd (FeedFetcher.fetchFeed P c db feedId)).
Proof.
  intros H. unfold FeedFetcher.fetchFeed.
  destruct (DatabaseService.getRSSFeed db feedId) as [feed|]; [|exact H].
  destruct (RSSFeed.isActive feed); [|exact H].
  destruct (parseURL P (RSSFeed.url feed)) as [items|msg]; [|exact H].
  pose proof (ingest_references P c feed
                (FeedFetcher.recent (FeedFetcher.getMaxArticlesPerFeed db) items)
                (db, 0, O) H) as H1.
  unfold FeedFetcher.ingest.
  destruct (fold_left (FeedFetcher.process_item P c feed)
              (FeedFetcher.recent (FeedFetcher.getMaxArticlesPerFeed db) items)
              (db, 0, O)) as [[db1 added] k].
  cbn [fst snd] in *.
  assert (H2 : references_hold
                 (snd (DatabaseService.updateRSSFeed c db1 feedId (now c)))).
  { unfold DatabaseService.updateRSSFeed.
    destruct (DatabaseService.getRSSFeed db1 feedId); [|exact H1].
    cbn [snd]. revert H1. apply references_same_keys; try reflexivity.
    cbn. apply map_if_same. reflexivity. }
  unfold FeedFetcher.cleanupOldArticles.
  destruct (FeedFetcher.getMaxArticlesPerFeed db); [|exact H2].
  now apply delete_articles_references.
Qed.

Lemma addToWorkspace_references (c : Call) (db db' : D1) (articleId : string)
    (item : WorkspaceItem.t) :
  DatabaseService.addToWorkspace c db articleId = Ok (item, db') ->
  references_hold db -> references_hold db'.
Proof.
  unfold DatabaseService.addToWorkspace.
  destruct (existsb _ (workspace_items db)); [discriminate|].
  destruct (existsb _ (articles db)) eqn:Efk; [|discriminate].
  cbn [negb]. intros [= _ <-] (H1 & H2 & H3 & H4).
  unfold references_hold. cbn. rewrite !map_app.
  repeat split; auto.
  - apply incl_app; [exact H2|].
    intros k' [<-|[]]. cbn. now apply existsb_eqb_In in Efk.
  - now apply incl_appl.
Qed.

Lemma updateWorkspaceItem_references (c : Call) (db : D1) (id : string)
    (updates : WorkspaceItemPatch.t) :
  references_hold db ->
  references_hold (snd (DatabaseService.updateWorkspaceItem c db id updates)).
Proof.
  intros H. unfold DatabaseService.updateWorkspaceItem.
  destruct (DatabaseService.find_workspace_item db id); [|exact H].
  assert (Hmap : references_hold
                   (set_workspace_items db
                      (map (fun r => if String.eqb (WorkspaceItemRow.id r) id
                                     then DatabaseService.patch_row c updates r
                                     else r)
                           (workspace_items db)))).
  { revert H. apply references_same_keys; try reflexivity; cbn;
      apply map_if_same; intros r; unfold DatabaseService.patch_row;
      destruct (WorkspaceItemPatch.customContent updates),
        (WorkspaceItemPatch.customAnalysis updates); reflexivity. }
  destruct (WorkspaceItemPatch.customContent updates),
    (WorkspaceItemPatch.customAnalysis updates); try exact Hmap. exact H.
Qed.

Lemma reorder_from_references (c : Call) (itemIds : list string) :
  forall (index : Z) (db : D1),
    references_hold db ->
    references_hold (Routes.reorder_from c index itemIds db).
Proof.
  induction itemIds as [|itemId rest IH]; intros index db H;
    cbn [Routes.reorder_from]; [exact H|].
  apply IH. revert H. unfold Routes.set_order.
  apply references_same_keys; try reflexivity; cbn;
    apply map_if_same; reflexivity.
Qed.

Lemma createRSSFeed_references (c : Call) (db db' : D1) (feed : NewRSSFeed.t)
    (r : RSSFeed.t) :
  Database.createRSSFeed c db feed = Ok (r, db') ->
  references_hold db -> references_hold db'.
Proof.
  unfold Database.createRSSFeed.
  destruct (existsb _ (rss_feeds db)); [discriminate|].
  destruct (existsb _ (rss_feeds db)); [discriminate|].
  intros [= _ <-] (H1 & H2 & H3 & H4).
  unfold references_hold. cbn. rewrite !map_app.
  repeat split; auto. now apply incl_appl.
Qed.

Lemma updateRSSFeed_references (c : Call) (db db' : D1) (id : string)
    (updates : RSSFeedPatch.t) (r : option RSSFeed.t) :
  Database.updateRSSFeed c db id updates = Ok (r, db') ->
  references_hold db -> references_hold db'.
Proof.
  unfold Database.updateRSSFeed.
  destruct (DatabaseService.getRSSFeed db id); [|now intros [= _ <-]].
  destruct (Database.no_feed_field updates); [now intros [= _ <-]|].
  destruct (match RSSFeedPatch.url updates with Some _ => _ | None => _ end);
    [discriminate|].
  intros [= _ <-]. apply references_same_keys; try reflexivity.
  cbn. apply map_if_same. reflexivity.
Qed.

Lemma updateArticle_references (c : Call) (db : D1) (id : string)
    (updates : ArticlePatch.t) :
  references_hold db ->
  references_hold (snd (Database.updateArticle c db id updates)).
Proof.
  intros H. unfold Database.updateArticle.
  destruct (DatabaseService.getArticle db id); [|exact H].
  destruct (Database.no_article_field updates); [exact H|].
  cbn [snd]. revert H.
  apply references_same_keys; try reflexivity; cbn;
    apply map_if_same; reflexivity.
Qed.

Lemma insert_report_item_references (row : ReportItemRow.t) (db db' : D1) :
  insert_report_item row db = Ok db' ->
  (references_hold db -> references_hold db')
  /\ rss_feeds db' = rss_feeds db /\ articles db' = articles db
  /\ workspace_items db' = workspace_items db /\ reports db' = reports db
  /\ settings db' = settings db.
Proof.
  unfold insert_report_item.
  destruct (existsb _ (report_items db)); [discriminate|].
  destruct (existsb _ (report_items db)); [discriminate|].
  destruct (existsb _ (reports db)) eqn:E1; [|discriminate].
  destruct (existsb _ (workspace_items db)) eqn:E2; [|discriminate].
  cbn [negb orb]. intros [= <-]. split; [|repeat split].
  intros (H1 & H2 & H3 & H4).
  unfold references_hold. cbn. rewrite !map_app.
  repeat split; auto; (apply incl_app; [assumption|]); intros k' [<-|[]]; cbn.
  - now apply existsb_eqb_In in E1.
  - now apply existsb_eqb_In in E2.
Qed.

Lemma batch_inserts_references (rows : list ReportItemRow.t) :
  forall db db',
    batch (map insert_report_item rows) db = Ok db' ->
    references_hold db -> references_hold db'.
Proof.
  induction rows as [|row rows IH]; intros db db'; cbn [map batch].
  - now intros [= <-].
  - destruct (insert_report_item row db) as [db1|msg] eqn:E; [|discriminate].
    intros Hb H. apply (IH _ _ Hb).
    now apply (insert_report_item_references row db db1 E).
Qed.

Lemma post_report_references (c : Call) (db : D1) (body : ReportsRouter.Body) :
  references_hold db ->
  references_hold (snd (ReportsRouter.post c db body)).
Proof.
  intros H. unfold ReportsRouter.post.
  destruct (truthy (ReportsRouter.title body)) as [title|]; [|exact H].
  destruct (existsb _ (reports db)); [exact H|].
  destruct (negb _); [exact H|].
  match goal with
  | |- context [set_reports db ?l] =>
      assert (H1 : references_hold (set_reports db l))
  end.
  { destruct H as (H1 & H2 & H3 & H4). unfold references_hold. cbn.
    rewrite !map_app. repeat split; auto. now apply incl_appl. }
  destruct (ReportsRouter.copyWorkspace body); [|exact H1].
  destruct (DatabaseService.getWorkspaceItems _) as [|w ws]; [exact H1|].
  destruct (batch _ _) as [db2|msg] eqn:Eb; [|exact H1].
  cbn [snd]. eapply batch_inserts_references; eauto.
Qed.

(** X5.  No operation leaves a dangling reference.  When the foreign
    keys of the schema hold in a database, they hold after a fetch
    (with its inserts and its trim), after every change of the
    workspace, after creating, changing or deleting a feed, after
    updating an article, and after creating or deleting a report. *)
Theorem references_kept (db : D1) :
  references_hold db ->
  (forall P c feedId,
     references_hold (snd (FeedFetcher.fetchFeed P c db feedId)))
  /\ (forall feedId n,
        references_hold (FeedFetcher.cleanupOldArticles db feedId n))
  /\ (forall c articleId,
        references_hold (snd (WorkspaceRouter.post_items c db articleId)))
  /\ (forall c id updates,
        references_hold
          (snd (DatabaseService.updateWorkspaceItem c db id updates)))
  /\ (forall id, references_hold (snd (Database.removeFromWorkspace db id)))
  /\ (forall c itemIds, references_hold (Routes.reorder c itemIds db))
  /\ references_hold (WorkspaceRouter.clear db)
  /\ (forall valid_URL P c c' body,
        references_hold (snd (FeedsRouter.post valid_URL P c c' db body)))
  /\ (forall valid_URL c id body,
        references_hold (snd (FeedsRouter.patch valid_URL c db id body)))
  /\ (forall id, references_hold (snd (Database.deleteRSSFeed db id)))
  /\ (forall c id updates,
        references_hold (snd (Database.updateArticle c db id updates)))
  /\ (forall c body, references_hold (snd (ReportsRouter.post c db body)))
  /\ (forall id, references_hold (snd (ReportsRouter.delete db id))).
Proof.
  intros H. repeat match goal with |- _ /\ _ => split end.
  - intros. now apply fetchFeed_references.
  - intros feedId [n|]; [|exact H]. now apply delete_articles_references.
  - intros c articleId. unfold WorkspaceRouter.post_items.
    destruct (truthy articleId) as [a|]; [|exact H].
    destruct (DatabaseService.getArticle db a); [|exact H].
    destruct (existsb _ (workspace_items db)); [exact H|].
    destruct (DatabaseService.addToWorkspace c db a) as [[item db']|msg] eqn:E;
      [|exact H].
    cbn [snd]. eapply addToWorkspace_references; eauto.
  - intros. now apply updateWorkspaceItem_references.
  - intros id. now apply delete_workspace_items_references.
  - intros. now apply reorder_from_references.
  - now apply delete_workspace_items_references.
  - intros valid_URL P c c' body. unfold FeedsRouter.post.
    destruct (truthy (FeedsRouter.name body)); [|exact H].
    destruct (truthy (FeedsRouter.url body)); [|exact H].
    destruct (negb _); [exact H|].
    destruct (Database.createRSSFeed _ _ _) as [[feed db1]|msg] eqn:E;
      [|exact H].
    cbn [snd]. apply fetchFeed_references.
    eapply createRSSFeed_references; eauto.
  - intros valid_URL c id body. unfold FeedsRouter.patch.
    destruct (match truthy (FeedsRouter.url body) with
              | Some _ => _ | None => _ end); [exact H|].
    destruct (Database.updateRSSFeed _ _ _ _) as [[[feed|] db']|msg] eqn:E;
      [| |exact H]; cbn [snd]; eapply updateRSSFeed_references; eauto.
  - intros id. now apply delete_rss_feeds_references.
  - intros. now apply updateArticle_references.
  - intros. now apply post_report_references.
  - intros id. now apply delete_reports_references.
Qed.

Lemma references_kept_sample :
  references_hold
    (snd (FeedFetcher.fetchFeed Cases.one_entry Sample.call (Sample.db true)
            "feed_cfr")).
Proof.
  refine (proj1 (references_kept (Sample.db true) _) _ _ _).
  unfold references_hold. cbn.
  repeat split; intros k Hk; cbn in *; tauto.
Defined.

(** ** The workspace as a list *)

Lemma insert_by_snoc {A} (before : A -> A -> bool) (a x : A) (s : list A) :
  before a x = true ->
  insert_by before a (s ++ [x])%list = (insert_by before a s ++ [x])%list.
Proof.
  intros H. induction s as [|y r IH]; simpl.
  - now rewrite H.
  - destruct (before a y); [reflexivity|]. now rewrite IH.
Qed.

Lemma sort_by_snoc {A} (before : A -> A -> bool) (x : A) (l : list A) :
  (forall a, In a l -> before a x = true) ->
  sort_by before (l ++ [x])%list = (sort_by before l ++ [x])%list.
Proof.
  induction l as [|a l IH]; intros H; simpl; [reflexivity|].
  rewrite IH by (intros b Hb; apply H; now right).
  apply insert_by_snoc. apply H. now left.
Qed.

Lemma next_order_above (db : D1) (r : WorkspaceItemRow.t) :
  In r (workspace_items db) ->
  WorkspaceItemRow.order_index r < DatabaseService.next_order db.
Proof.
  intros Hin. unfold DatabaseService.next_order.
  destruct (DatabaseService.sql_max _) as [m|] eqn:E.
  - apply sql_max_greatest in E as [_ Hall].
    rewrite List.Forall_forall in Hall.
    specialize (Hall _ (in_map WorkspaceItemRow.order_index _ _ Hin)). lia.
  - destruct (workspace_items db); [contradiction|discriminate].
Qed.

(** What a successful [addToWorkspace] does. *)
Lemma addToWorkspace_Ok (c : Call) (db db' : D1) (articleId : string)
    (item : WorkspaceItem.t) :
  DatabaseService.addToWorkspace c db articleId = Ok (item, db') ->
  let row := WorkspaceItemRow.mk (randomUUID c 0%nat) articleId
               (DatabaseService.next_order db) None None false
               (now c) (now c) in
  db' = set_workspace_items db (workspace_items db ++ [row])%list
  /\ item = DatabaseService.mapWorkspaceItemRow row
  /\ ~ In (randomUUID c 0%nat) (map WorkspaceItemRow.id (workspace_items db))
  /\ In articleId (map ArticleRow.id (articles db)).
Proof.
  unfold DatabaseService.addToWorkspace.
  destruct (existsb _ (workspace_items db)) eqn:Eid; [discriminate|].
  destruct (existsb _ (articles db)) eqn:Efk; [|discriminate].
  cbn [negb].
  assert (En : (if DatabaseService.next_order db =? 0 then 0
                else DatabaseService.next_order db)
               = DatabaseService.next_order db).
  { destruct (Z.eqb_spec (DatabaseService.next_order db) 0); congruence. }
  rewrite En. intros [= <- <-]. cbn.
  repeat split.
  - now apply existsb_eqb_not_In in Eid.
  - now apply existsb_eqb_In in Efk.
Qed.

Lemma NoDup_snoc {A} (l : list A) (x : A) :
  NoDup l -> ~ In x l -> NoDup (l ++ [x])%list.
Proof.
  intros Hl Hx. apply NoDup_app. split; [exact Hl|].
  split; [|apply NoDup_singleton].
  intros y Hy Hy'. apply list_elem_of_In in Hy, Hy'.
  destruct Hy' as [<-|[]]. contradiction.
Qed.

(** X6.  POST /api/workspace/items keeps the workspace free of
    duplicates: an article is held at most once, and ids and positions
    stay distinct.  The reply is 201 exactly when the article exists,
    is not in the workspace yet and the new id is free; with any other
    reply the database is unchanged. *)
Theorem post_items_distinct (c : Call) (db : D1) (articleId : option string) :
  let reply := fst (WorkspaceRouter.post_items c db articleId) in
  let db' := snd (WorkspaceRouter.post_items c db articleId) in
  (workspace_distinct db -> workspace_distinct db')
  /\ (status_of reply = 201
      <-> exists a,
            truthy articleId = Some a
            /\ In a (map ArticleRow.id (articles db))
            /\ ~ In a (map WorkspaceItemRow.article_id (workspace_items db))
            /\ ~ In (randomUUID c 0%nat)
                    (map WorkspaceItemRow.id (workspace_items db)))
  /\ (status_of reply <> 201 -> db' = db)
  /\ (forall a,
        truthy articleId = Some a ->
        In a (map ArticleRow.id (articles db)) ->
        In a (map WorkspaceItemRow.article_id (workspace_items db)) ->
        status_of reply = 409).
Proof.
  unfold WorkspaceRouter.post_items.
  destruct (truthy articleId) as [a|].
  2:{ cbn. split; [auto|]. split; [split; [discriminate|]|split; [auto|]].
      - intros (a & Ha & _). discriminate.
      - intros a Ha. discriminate. }
  unfold DatabaseService.getArticle.
  destruct (List.find _ (articles db)) as [row|] eqn:Efind.
  2:{ assert (Hno : ~ In a (map ArticleRow.id (articles db))).
      { intros Hin. apply in_map_iff in Hin as (r & Er & Hr).
        apply (find_none _ _ Efind) in Hr. apply String.eqb_neq in Hr.
        contradiction. }
      cbn. split; [auto|]. split; [split; [discriminate|]|split; [auto|]].
      - intros (a' & [= <-] & Hin & _). contradiction.
      - intros a' [= <-] Hin. contradiction. }
  cbn [option_map].
  destruct (existsb _ (workspace_items db)) eqn:Ein.
  { apply existsb_eqb_In in Ein.
    cbn. split; [auto|]. split; [split; [discriminate|]|split; [auto|]].
    - intros (a' & [= <-] & _ & Hnot & _). contradiction.
    - reflexivity. }
  apply existsb_eqb_not_In in Ein.
  destruct (DatabaseService.addToWorkspace c db a) as [[item db']|msg] eqn:E.
  - apply addToWorkspace_Ok in E as (-> & _ & Hid & Ha). cbn.
    split; [|split; [|split]].
    + intros (H1 & H2 & H3). unfold workspace_distinct. cbn.
      rewrite !map_app. cbn.
      repeat split; apply NoDup_snoc; auto.
      intros Hin. apply in_map_iff in Hin as (r & Er & Hr).
      apply next_order_above in Hr. lia.
    + split; [|reflexivity]. intros _. exists a. auto.
    + congruence.
    + intros a' [= <-] _ Hin. contradiction.
  - cbn. split; [auto|]. split; [split; [discriminate|]|split; [auto|]].
    + intros (a' & [= <-] & Hin & _ & Hid). exfalso.
      revert E. unfold DatabaseService.addToWorkspace.
      apply existsb_eqb_not_In in Hid. rewrite Hid.
      apply existsb_eqb_In in Hin. rewrite Hin. discriminate.
    + intros a' [= <-] _ Hin. contradiction.
Qed.

(** X7.  An item that [addToWorkspace] creates is the last one of the
    workspace: [getWorkspaceItems] gives the list it gave before,
    followed by the new item. *)
Theorem addToWorkspace_last (c : Call) (db db' : D1) (articleId : string)
    (item : WorkspaceItem.t) :
  DatabaseService.addToWorkspace c db articleId = Ok (item, db') ->
  DatabaseService.getWorkspaceItems db'
  = (DatabaseService.getWorkspaceItems db ++ [item])%list.
Proof.
  intros E. apply addToWorkspace_Ok in E as (-> & -> & _ & _).
  unfold DatabaseService.getWorkspaceItems. cbn [workspace_items set_workspace_items].
  rewrite sort_by_snoc, map_app; [reflexivity|].
  intros a Ha. apply next_order_above in Ha. cbn. lia.
Qed.

Lemma addToWorkspace_last_sample :
  exists item db',
    DatabaseService.addToWorkspace Sample.call Cases.desk "a2" = Ok (item, db')
    /\ DatabaseService.getWorkspaceItems db'
       = (DatabaseService.getWorkspaceItems Cases.desk ++ [item])%list.
Proof.
  eexists _, _. split; [reflexivity|].
  now apply (addToWorkspace_last Sample.call Cases.desk _ "a2").
Defined.

(** ** Removing from the workspace *)

Lemma filter_snoc_fresh {A} (key : A -> string) (id : string) (l : list A)
    (x : A) :
  ~ In id (map key l) -> key x = id ->
  List.filter (fun r => negb (String.eqb (key r) id)) (l ++ [x])%list = l.
Proof.
  intros Hfresh Hx. rewrite List.filter_app. cbn.
  rewrite Hx, String.eqb_refl. cbn. rewrite app_nil_r.
  apply filter_all. intros r Hr. apply negb_true_iff, String.eqb_neq.
  intros E. apply Hfresh. rewrite <- E. now apply in_map.
Qed.

(** X8.  [removeFromWorkspace] deletes the item with the given id and
    the report items that name it, and nothing else: the report items
    of the other workspace items all stay, in their order.  The
    boolean that it returns is [false] also when it deleted a row.  It
    undoes [addToWorkspace]: when the references of the database hold,
    adding an article and removing the new item gives the database
    back. *)
Theorem removeFromWorkspace_undoes (db : D1) (id : string) :
  let db' := snd (Database.removeFromWorkspace db id) in
  workspace_items db'
  = List.filter (fun r => negb (String.eqb (WorkspaceItemRow.id r) id))
                (workspace_items db)
  /\ ~ In id (map WorkspaceItemRow.id (workspace_items db'))
  /\ (In id (map WorkspaceItemRow.id (workspace_items db)) ->
      report_items db'
      = List.filter
          (fun ri => negb (String.eqb (ReportItemRow.workspace_item_id ri) id))
          (report_items db)
      /\ ~ In id (map ReportItemRow.workspace_item_id (report_items db')))
  /\ fst (Database.removeFromWorkspace db id) = false
  /\ rss_feeds db' = rss_feeds db /\ articles db' = articles db
  /\ reports db' = reports db /\ settings db' = settings db
  /\ (~ In id (map WorkspaceItemRow.id (workspace_items db)) -> db' = db)
  /\ (forall c articleId item db1,
        references_hold db ->
        DatabaseService.addToWorkspace c db articleId = Ok (item, db1) ->
        snd (Database.removeFromWorkspace db1 (WorkspaceItem.id item)) = db).
Proof.
  assert (Habsent : forall d : D1,
            ~ In id (map WorkspaceItemRow.id (workspace_items d)) ->
            snd (Database.removeFromWorkspace d id) = d).
  { intros d Hno. unfold Database.removeFromWorkspace, delete_workspace_items.
    cbn [snd].
    assert (Hall : forall r, In r (workspace_items d) ->
                             String.eqb (WorkspaceItemRow.id r) id = false).
    { intros r Hr. apply String.eqb_neq. intros E. apply Hno.
      rewrite <- E. now apply in_map. }
    rewrite (filter_none _ _ Hall).
    rewrite filter_all
      by (intros r Hr; now rewrite (Hall r Hr)).
    rewrite filter_all by reflexivity. now destruct d. }
  cbn zeta. repeat match goal with |- _ /\ _ => split end;
    try reflexivity.
  - cbn. intros Hin. apply in_map_iff in Hin as (r & Er & Hr).
    apply filter_In in Hr as [_ Hr]. apply negb_true_iff in Hr.
    apply String.eqb_neq in Hr. contradiction.
  - cbn. intros Hin.
    assert (Hdead : forall ri,
              existsb (fun w => String.eqb (WorkspaceItemRow.id w)
                                  (ReportItemRow.workspace_item_id ri))
                      (List.filter
                         (fun r => String.eqb (WorkspaceItemRow.id r) id)
                         (workspace_items db))
              = String.eqb (ReportItemRow.workspace_item_id ri) id).
    { intros ri.
      destruct (String.eqb_spec (ReportItemRow.workspace_item_id ri) id)
        as [E|E].
      - apply in_map_iff in Hin as (w & Ew & Hw).
        apply existsb_exists. exists w. split.
        + apply filter_In. split; [exact Hw|]. now apply String.eqb_eq.
        + apply String.eqb_eq. congruence.
      - apply not_true_iff_false. intros Hex.
        apply existsb_exists in Hex as (w & Hw & Ew).
        apply filter_In in Hw as [_ Hw].
        apply String.eqb_eq in Hw, Ew. congruence. }
    assert (Erows : List.filter
                      (fun ri =>
                         negb (existsb
                                 (fun w => String.eqb (WorkspaceItemRow.id w)
                                             (ReportItemRow.workspace_item_id ri))
                                 (List.filter
                                    (fun r => String.eqb (WorkspaceItemRow.id r)
                                                         id)
                                    (workspace_items db))))
                      (report_items db)
                    = List.filter
                        (fun ri => negb (String.eqb
                                           (ReportItemRow.workspace_item_id ri)
                                           id))
                        (report_items db)).
    { apply List.filter_ext. intros ri. now rewrite Hdead. }
    split; [exact Erows|].
    rewrite Erows. intros Hri. apply in_map_iff in Hri as (ri & Eri & Hri).
    apply filter_In in Hri as [_ Halive]. apply negb_true_iff in Halive.
    apply String.eqb_neq in Halive. contradiction.
  - exact (Habsent db).
  - intros c articleId item db1 (_ & _ & _ & Href) E.
    apply addToWorkspace_Ok in E as (-> & -> & Hfresh & _).
    cbn [DatabaseService.mapWorkspaceItemRow WorkspaceItem.id
         WorkspaceItemRow.id].
    unfold Database.removeFromWorkspace, delete_workspace_items.
    cbn [snd workspace_items set_workspace_items rss_feeds articles reports
         report_items settings].
    rewrite (filter_snoc_fresh WorkspaceItemRow.id) by auto.
    rewrite filter_all; [now destruct db|].
    intros ri Hri. apply negb_true_iff, not_true_iff_false.
    intros Hdead. apply existsb_exists in Hdead as (w & Hw & Ew).
    apply String.eqb_eq in Ew.
    apply filter_In in Hw as [_ Hw]. apply String.eqb_eq in Hw.
    apply Hfresh, Href. rewrite <- Hw, Ew. now apply in_map.
Qed.

(** ** A complete reorder *)

Lemma last_position_lookup (id : string) (itemIds : list string) :
  forall index i,
    last_position index id itemIds = Some i ->
    exists n : nat, i = index + Z.of_nat n /\ itemIds !! n = Some id.
Proof.
  induction itemIds as [|x rest IH]; intros index i; cbn [last_position];
    [discriminate|].
  destruct (last_position (index + 1) id rest) as [j|] eqn:E.
  - intros [= <-]. apply IH in E as (n & -> & Hn).
    exists (S n). split; [lia|exact Hn].
  - destruct (String.eqb_spec id x) as [->|]; [|discriminate].
    intros [= <-]. exists O. split; [lia|reflexivity].
Qed.

Lemma last_position_Some (id : string) (itemIds : list string) :
  forall index, In id itemIds -> last_position index id itemIds <> None.
Proof.
  induction itemIds as [|x rest IH]; intros index Hin; [contradiction|].
  cbn [last_position].
  destruct (last_position (index + 1) id rest) eqn:E; [discriminate|].
  destruct Hin as [->|Hin]; [now rewrite String.eqb_refl|].
  now apply (IH (index + 1)) in Hin.
Qed.

Lemma last_position_seq (itemIds : list string) :
  NoDup itemIds ->
  forall index,
    map (fun id => last_position index id itemIds) itemIds
    = map (fun k => Some (index + Z.of_nat k)) (seq 0 (List.length itemIds)).
Proof.
  induction 1 as [|x rest Hx Hnd IH]; intros index; [reflexivity|].
  cbn [map List.length seq last_position].
  rewrite last_position_None by (now rewrite <- list_elem_of_In).
  rewrite String.eqb_refl. f_equal; [f_equal; lia|].
  rewrite <- seq_shift, map_map.
  rewrite <- (map_ext (fun k => Some (index + 1 + Z.of_nat k)))
    by (intros k; f_equal; lia).
  rewrite <- IH. apply map_ext_in. intros y Hy.
  destruct (last_position (index + 1) y rest) eqn:E; [reflexivity|].
  now apply (last_position_Some y rest (index + 1)) in Hy.
Qed.

Lemma lookup_seq {A} (l : list A) :
  map (fun k => l !! k) (seq 0 (List.length l)) = map Some l.
Proof.
  induction l as [|x l IH]; [reflexivity|].
  cbn [List.length seq map]. f_equal.
  rewrite <- seq_shift, map_map. exact IH.
Qed.

Lemma map_Some_inj {A} (l l' : list A) : map Some l = map Some l' -> l = l'.
Proof.
  revert l'. induction l as [|x l IH]; intros [|y l']; cbn;
    try discriminate; [reflexivity|].
  intros [= -> H]. f_equal. now apply IH.
Qed.

(** Two sorted lists of integers with the same elements are equal. *)
Lemma sorted_Permutation_eq (l : list Z) :
  forall l', StronglySorted Z.le l -> StronglySorted Z.le l' ->
             Permutation l l' -> l = l'.
Proof.
  induction l as [|a l IH]; intros l' Hs Hs' Hp.
  - now apply Permutation_nil in Hp.
  - destruct l' as [|b l'];
      [apply Permutation_sym, Permutation_nil in Hp; discriminate|].
    apply StronglySorted_inv in Hs as [Hs Ha].
    apply StronglySorted_inv in Hs' as [Hs' Hb].
    rewrite List.Forall_forall in Ha, Hb.
    assert (a = b).
    { assert (Hab : In a (b :: l'))
        by (eapply Permutation_in; [exact Hp|now left]).
      assert (Hba : In b (a :: l))
        by (eapply Permutation_in; [symmetry; exact Hp|now left]).
      destruct Hab as [->|Hab]; [reflexivity|].
      destruct Hba as [->|Hba]; [reflexivity|].
      apply Hb in Hab. apply Ha in Hba. lia. }
    subst b. f_equal. apply IH; auto.
    now apply Permutation_cons_inv in Hp.
Qed.

Lemma StronglySorted_map {A B} (R : B -> B -> Prop) (f : A -> B) (l : list A) :
  StronglySorted (fun x y => R (f x) (f y)) l -> StronglySorted R (map f l).
Proof.
  induction 1 as [|x l Hs IH Hx]; cbn; constructor; auto.
  rewrite List.Forall_forall in *. intros y Hy.
  apply in_map_iff in Hy as (z & <- & Hz). auto.
Qed.

Lemma seq_sorted (n : nat) :
  forall start, StronglySorted Z.le (map Z.of_nat (seq start n)).
Proof.
  induction n as [|n IH]; intros start; cbn; constructor; auto.
  rewrite List.Forall_forall. intros y Hy.
  apply in_map_iff in Hy as (k & <- & Hk). apply in_seq in Hk. lia.
Qed.

Lemma workspace_sorted (l : list WorkspaceItemRow.t) :
  StronglySorted
    (fun x y => WorkspaceItemRow.order_index x <= WorkspaceItemRow.order_index y)
    (sort_by (fun x y => WorkspaceItemRow.order_index x
                         <=? WorkspaceItemRow.order_index y) l).
Proof.
  apply chain_StronglySorted; [intros a b d; lia|].
  eapply chain_impl; [|apply sort_by_chain].
  - intros x y H. now apply Z.leb_le.
  - intros a b H. apply Z.leb_gt in H. apply Z.leb_le. lia.
Qed.

(** X9.  A reorder with a complete list puts the workspace in the
    order of the list.  When [itemIds] names every workspace item
    exactly once, [getWorkspaceItems] afterwards gives the items in the
    order of [itemIds], with the positions 0, 1, 2, ... *)
Theorem reorder_complete (c : Call) (itemIds : list string) (db : D1) :
  NoDup itemIds ->
  Permutation itemIds (map WorkspaceItemRow.id (workspace_items db)) ->
  let items := DatabaseService.getWorkspaceItems (Routes.reorder c itemIds db) in
  map WorkspaceItem.id items = itemIds
  /\ map WorkspaceItem.order items
     = map Z.of_nat (seq 0 (List.length itemIds)).
Proof.
  intros Hnd Hperm items.
  set (pos := fun id => match last_position 0 id itemIds with
                        | Some i => i
                        | None => 0
                        end).
  set (g := fun r => match last_position 0 (WorkspaceItemRow.id r) itemIds with
                     | Some i => moved c i r
                     | None => r
                     end).
  set (le_order := fun x y => WorkspaceItemRow.order_index x
                              <=? WorkspaceItemRow.order_index y).
  assert (Hrows : workspace_items (Routes.reorder c itemIds db)
                  = map g (workspace_items db))
    by apply reorder_from_rows.
  set (S := sort_by le_order (map g (workspace_items db))).
  assert (Hitems : items = map DatabaseService.mapWorkspaceItemRow S).
  { subst items S. unfold DatabaseService.getWorkspaceItems.
    now rewrite Hrows. }
  assert (Hg : forall r, In r (workspace_items db) ->
                         WorkspaceItemRow.id (g r) = WorkspaceItemRow.id r
                         /\ WorkspaceItemRow.order_index (g r)
                            = pos (WorkspaceItemRow.id r)
                         /\ itemIds !! Z.to_nat (WorkspaceItemRow.order_index (g r))
                            = Some (WorkspaceItemRow.id r)).
  { intros r Hr. subst g pos. cbn beta.
    destruct (last_position 0 (WorkspaceItemRow.id r) itemIds) as [i|] eqn:E.
    - apply last_position_lookup in E as (n & -> & Hn).
      cbn [moved WorkspaceItemRow.id WorkspaceItemRow.order_index].
      split; [reflexivity|]. split; [reflexivity|].
      replace (Z.to_nat (0 + Z.of_nat n)) with n by lia. exact Hn.
    - exfalso. apply (last_position_Some _ _ 0) in E; [exact E|].
      eapply Permutation_in; [symmetry; exact Hperm|]. now apply in_map. }
  assert (Hpos : map pos itemIds = map Z.of_nat (seq 0 (List.length itemIds))).
  { transitivity
      (map (fun o : option Z => match o with Some i => i | None => 0 end)
           (map (fun id => last_position 0 id itemIds) itemIds)).
    - now rewrite map_map.
    - rewrite (last_position_seq itemIds Hnd 0), map_map. apply map_ext.
      intros k. lia. }
  assert (Horders : Permutation
                      (map WorkspaceItemRow.order_index S)
                      (map Z.of_nat (seq 0 (List.length itemIds)))).
  { rewrite <- Hpos. subst S.
    rewrite (Permutation_map WorkspaceItemRow.order_index
               (sort_by_Permutation le_order (map g (workspace_items db)))).
    rewrite (Permutation_map pos Hperm), !map_map.
    erewrite map_ext_in; [reflexivity|].
    intros r Hr. now destruct (Hg r Hr) as (_ & -> & _). }
  assert (Hsorted : map WorkspaceItemRow.order_index S
                    = map Z.of_nat (seq 0 (List.length itemIds))).
  { apply sorted_Permutation_eq; [|apply seq_sorted|exact Horders].
    apply StronglySorted_map, workspace_sorted. }
  split.
  - rewrite Hitems, map_map. cbn.
    apply map_Some_inj. rewrite <- (lookup_seq itemIds).
    transitivity
      (map (fun z => itemIds !! Z.to_nat z) (map WorkspaceItemRow.order_index S)).
    + rewrite !map_map. symmetry. apply map_ext_in. intros r Hr.
      apply sort_by_In, in_map_iff in Hr as (r0 & <- & Hr0).
      destruct (Hg r0 Hr0) as (-> & _ & ->). reflexivity.
    + rewrite Hsorted, map_map. apply map_ext. intros k.
      now rewrite Nat2Z.id.
  - rewrite Hitems, map_map. exact Hsorted.
Qed.

Lemma reorder_complete_sample :
  map WorkspaceItem.id
      (DatabaseService.getWorkspaceItems
         (Routes.reorder Sample.call ["w2"; "w1"] Cases.desk))
  = ["w2"; "w1"].
Proof.
  refine (proj1 (reorder_complete Sample.call ["w2"; "w1"] Cases.desk _ _)).
  - repeat constructor; rewrite list_elem_of_In; cbn; intuition discriminate.
  - apply perm_swap.
Defined.

(** ** Feeds *)

(** On the patch that the fetcher sends, the general [updateRSSFeed]
    is the function of the first part. *)
Lemma updateRSSFeed_lastFetched (c : Call) (db : D1) (id lastFetched : string) :
  Database.updateRSSFeed c db id
    (RSSFeedPatch.mk None None None None (Some lastFetched))
  = Ok (DatabaseService.updateRSSFeed c db id lastFetched).
Proof.
  unfold Database.updateRSSFeed, DatabaseService.updateRSSFeed.
  now destruct (DatabaseService.getRSSFeed db id).
Qed.

Lemma fetchFeed_feed_keys (P : Platform) (c : Call) (db : D1)
    (feedId : string) :
  let db' := snd (FeedFetcher.fetchFeed P c db feedId) in
  map RSSFeedRow.id (rss_feeds db') = map RSSFeedRow.id (rss_feeds db)
  /\ map RSSFeedRow.url (rss_feeds db') = map RSSFeedRow.url (rss_feeds db).
Proof.
  cbn zeta.
  destruct (DatabaseService.getRSSFeed db feedId) as [feed|] eqn:Hfeed.
  2:{ unfold FeedFetcher.fetchFeed. now rewrite Hfeed. }
  destruct (RSSFeed.isActive feed) eqn:Hactive.
  2:{ unfold FeedFetcher.fetchFeed. now rewrite Hfeed, Hactive. }
  destruct (parseURL P (RSSFeed.url feed)) as [items|msg] eqn:Hparse.
  2:{ unfold FeedFetcher.fetchFeed. now rewrite Hfeed, Hactive, Hparse. }
  rewrite (fetchFeed_feed_rows P c db feedId feed items Hfeed Hactive Hparse).
  split; apply map_if_same; reflexivity.
Qed.

Lemma NoDup_map_update {A} (key other : A -> string) (id u : string)
    (rows : list A) :
  NoDup (map key rows) -> NoDup (map other rows) ->
  (forall r, In r rows -> key r <> id -> other r <> u) ->
  NoDup (map (fun r => if String.eqb (key r) id then u else other r) rows).
Proof.
  induction rows as [|r rows IH]; intros Hk Ho Hu; cbn; [constructor|].
  cbn in Hk, Ho. inversion Hk as [|? ? Hk1 Hk2]; subst.
  inversion Ho as [|? ? Ho1 Ho2]; subst.
  rewrite list_elem_of_In in Hk1, Ho1.
  constructor; [rewrite list_elem_of_In|].
  - intros Hin. apply in_map_iff in Hin as (r' & E & Hr').
    destruct (String.eqb_spec (key r) id) as [Er|Er].
    + destruct (String.eqb_spec (key r') id) as [Er'|Er'].
      * apply Hk1. rewrite Er, <- Er'. now apply in_map.
      * apply (Hu r'); [now right|exact Er'|exact E].
    + destruct (String.eqb_spec (key r') id) as [Er'|Er'].
      * apply (Hu r); [now left|exact Er|now symmetry].
      * apply Ho1. rewrite <- E. now apply in_map.
  - apply IH; auto. intros r' Hr'. apply Hu. now right.
Qed.

Lemma createRSSFeed_distinct (c : Call) (db db' : D1) (feed : NewRSSFeed.t)
    (r : RSSFeed.t) :
  Database.createRSSFeed c db feed = Ok (r, db') ->
  feeds_distinct db -> feeds_distinct db'.
Proof.
  unfold Database.createRSSFeed.
  destruct (existsb _ (rss_feeds db)) eqn:Eid; [discriminate|].
  destruct (existsb (fun r => String.eqb (RSSFeedRow.url r) _) (rss_feeds db))
    eqn:Eurl; [discriminate|].
  intros [= _ <-] [H1 H2]. unfold feeds_distinct. cbn.
  apply existsb_eqb_not_In in Eid, Eurl.
  split; now apply NoDup_map_snoc.
Qed.

Lemma updateRSSFeed_distinct (c : Call) (db db' : D1) (id : string)
    (updates : RSSFeedPatch.t) (r : option RSSFeed.t) :
  Database.updateRSSFeed c db id updates = Ok (r, db') ->
  feeds_distinct db -> feeds_distinct db'.
Proof.
  unfold Database.updateRSSFeed.
  destruct (DatabaseService.getRSSFeed db id); [|now intros [= _ <-]].
  destruct (Database.no_feed_field updates); [now intros [= _ <-]|].
  destruct (RSSFeedPatch.url updates) as [u|] eqn:Eu.
  - destruct (existsb _ (rss_feeds db)) eqn:Etaken; [discriminate|].
    intros [= _ <-] [H1 H2]. unfold feeds_distinct. cbn. split.
    + now rewrite map_if_same.
    + rewrite map_map.
      rewrite (map_ext _ (fun r => if String.eqb (RSSFeedRow.id r) id
                                   then u else RSSFeedRow.url r)).
      2:{ intros row. destruct (String.eqb (RSSFeedRow.id row) id);
            [|reflexivity].
          unfold Database.patch_feed. now rewrite Eu. }
      apply NoDup_map_update; auto.
      intros row Hrow Hid Hurl.
      apply not_true_iff_false in Etaken. apply Etaken.
      apply existsb_exists. exists row. split; [exact Hrow|].
      apply andb_true_iff. split.
      * now apply negb_true_iff, String.eqb_neq.
      * now apply String.eqb_eq.
  - intros [= _ <-] [H1 H2]. unfold feeds_distinct. cbn.
    split; rewrite map_if_same; auto; intros row;
      unfold Database.patch_feed; now rewrite Eu.
Qed.

(** X10.  The ids and the urls of the feeds stay pairwise distinct
    under POST, PATCH and DELETE of a feed.  A POST whose trimmed url
    is the url of a stored feed is answered with 409 and changes
    nothing. *)
Theorem feeds_stay_distinct (db : D1) :
  feeds_distinct db ->
  (forall valid_URL P c c' body,
     feeds_distinct (snd (FeedsRouter.post valid_URL P c c' db body)))
  /\ (forall valid_URL c id body,
        feeds_distinct (snd (FeedsRouter.patch valid_URL c db id body)))
  /\ (forall id, feeds_distinct (snd (FeedsRouter.delete db id)))
  /\ (forall valid_URL P c c' body name url,
        truthy (FeedsRouter.name body) = Some name ->
        truthy (FeedsRouter.url body) = Some url ->
        valid_URL url = true ->
        In (Text.trim url) (map RSSFeedRow.url (rss_feeds db)) ->
        FeedsRouter.post valid_URL P c c' db body
        = (Failure 409 "Duplicate URL"
             (Some "A feed with this URL already exists"), db)).
Proof.
  intros H. repeat match goal with |- _ /\ _ => split end.
  - intros valid_URL P c c' body. unfold FeedsRouter.post.
    destruct (truthy (FeedsRouter.name body)); [|exact H].
    destruct (truthy (FeedsRouter.url body)); [|exact H].
    destruct (negb _); [exact H|].
    destruct (Database.createRSSFeed _ _ _) as [[feed db1]|msg] eqn:E;
      [|exact H].
    cbn [snd]. apply createRSSFeed_distinct in E; [|exact H].
    destruct (fetchFeed_feed_keys P c' db1 (RSSFeed.id feed)) as [K1 K2].
    unfold feeds_distinct. now rewrite K1, K2.
  - intros valid_URL c id body. unfold FeedsRouter.patch.
    destruct (match truthy (FeedsRouter.url body) with
              | Some _ => _ | None => _ end); [exact H|].
    destruct (Database.updateRSSFeed _ _ _ _) as [[[feed|] db']|msg] eqn:E;
      [| |exact H]; cbn [snd]; eapply updateRSSFeed_distinct; eauto.
  - intros id. destruct H as [H1 H2]. unfold FeedsRouter.delete.
    cbn. unfold feeds_distinct; cbn; split; now apply NoDup_map_filter.
  - intros valid_URL P c c' body name url Hname Hurl Hvalid Hin.
    unfold FeedsRouter.post. rewrite Hname, Hurl, Hvalid. cbn [negb].
    unfold Database.createRSSFeed.
    apply existsb_eqb_In in Hin. cbn [NewRSSFeed.url]. rewrite Hin.
    clear Hin. destruct (existsb _ (rss_feeds db)); reflexivity.
Qed.

Lemma feeds_stay_distinct_sample :
  feeds_distinct
    (snd (FeedsRouter.post (fun _ => true) Sample.quiet Sample.call Sample.call
            (Sample.db true)
            (FeedsRouter.mkBody (Some "Brookings Institution")
               (Some " https://www.brookings.edu/feed/ ") None None))).
Proof.
  refine (proj1 (feeds_stay_distinct (Sample.db true) _) _ _ _ _ _).
  split; cbn; apply NoDup_singleton.
Defined.

(** X11.  A feed that was switched off is not fetched.  After an
    update with [isActive: false] that succeeds, the feed is stored as
    inactive; [fetchFeed] on it reports failure without an exception
    and without touching the database, and the refresh route answers
    200 with that report. *)
Theorem deactivated_feed_not_fetched (c : Call) (db db' : D1) (id : string)
    (updates : RSSFeedPatch.t) (feed : RSSFeed.t) :
  RSSFeedPatch.isActive updates = Some false ->
  Database.updateRSSFeed c db id updates = Ok (Some feed, db') ->
  RSSFeed.isActive feed = false
  /\ DatabaseService.getRSSFeed db' id = Some feed
  /\ (forall P c',
        FeedFetcher.fetchFeed P c' db' id
        = (FeedFetcher.mkFetchResult false 0
             (Some "Feed not found or inactive"), db')
        /\ FeedsRouter.refresh P c' db' id
           = (Json 200 (FeedFetcher.mkFetchResult false 0
                          (Some "Feed not found or inactive")), db')).
Proof.
  intros Hoff. unfold Database.updateRSSFeed.
  destruct (DatabaseService.getRSSFeed db id) as [existing|] eqn:Hget;
    [|discriminate].
  assert (Hfield : Database.no_feed_field updates = false).
  { unfold Database.no_feed_field. rewrite Hoff.
    now destruct (RSSFeedPatch.name updates), (RSSFeedPatch.url updates),
      (RSSFeedPatch.category updates). }
  rewrite Hfield.
  destruct (match RSSFeedPatch.url updates with Some _ => _ | None => _ end);
    [discriminate|].
  intros [= Hfeed <-].
  assert (Hoff' : RSSFeed.isActive feed = false).
  { revert Hfeed. unfold DatabaseService.getRSSFeed.
    cbn [rss_feeds set_rss_feeds].
    rewrite find_feed_map
      by (intros r; now destruct (String.eqb (RSSFeedRow.id r) id)).
    unfold DatabaseService.getRSSFeed in Hget.
    destruct (List.find _ (rss_feeds db)) as [row|] eqn:Efind; [|discriminate].
    apply find_feed_id in Efind as [Eid _]. cbn [option_map].
    rewrite Eid, String.eqb_refl. intros [= <-]. cbn. now rewrite Hoff. }
  split; [exact Hoff'|]. split; [exact Hfeed|].
  intros P c'. unfold FeedsRouter.refresh, FeedFetcher.fetchFeed.
  rewrite Hfeed, Hoff'. split; reflexivity.
Qed.

Lemma deactivated_feed_not_fetched_sample :
  exists feed db',
    Database.updateRSSFeed Sample.call (Sample.db true) "feed_cfr"
      (RSSFeedPatch.mk None None None (Some false) None)
    = Ok (Some feed, db')
    /\ FeedFetcher.fetchFeed Cases.one_entry Sample.call db' "feed_cfr"
       = (FeedFetcher.mkFetchResult false 0
            (Some "Feed not found or inactive"), db').
Proof.
  eexists _, _. split; [reflexivity|].
  refine (proj1 (proj2 (proj2
            (deactivated_feed_not_fetched Sample.call (Sample.db true) _
               "feed_cfr" (RSSFeedPatch.mk None None None (Some false) None)
               _ eq_refl eq_refl)) Cases.one_entry Sample.call)).
Defined.

(** X12.  Deleting a feed takes its articles along, and the workspace
    items of these articles.  When the references of the database
    hold, what remains is: the other feeds, the articles of the other
    feeds, and the workspace items whose article is not of the deleted
    feed; reports and settings stay. *)
Theorem deleteRSSFeed_cascade (db : D1) (id : string) :
  references_hold db ->
  let db' := snd (Database.deleteRSSFeed db id) in
  rss_feeds db'
  = List.filter (fun f => negb (String.eqb (RSSFeedRow.id f) id)) (rss_feeds db)
  /\ articles db'
     = List.filter (fun a => negb (String.eqb (ArticleRow.feed_id a) id))
                   (articles db)
  /\ articles_of db' id = []
  /\ (forall w,
        In w (workspace_items db')
        <-> In w (workspace_items db)
            /\ forall a, In a (articles db) ->
                         ArticleRow.id a = WorkspaceItemRow.article_id w ->
                         ArticleRow.feed_id a <> id)
  /\ reports db' = reports db /\ settings db' = settings db.
Proof.
  intros (H1 & H2 & H3 & H4) db'.
  set (gone := List.filter (fun f => String.eqb (RSSFeedRow.id f) id)
                           (rss_feeds db)).
  set (a_dead := fun a : ArticleRow.t =>
                   existsb (fun f => String.eqb (RSSFeedRow.id f)
                                       (ArticleRow.feed_id a)) gone).
  assert (Hdead : forall a, In a (articles db) ->
                            a_dead a = String.eqb (ArticleRow.feed_id a) id).
  { intros a Ha. subst a_dead. cbn beta.
    destruct (String.eqb_spec (ArticleRow.feed_id a) id) as [E|E].
    - apply existsb_exists.
      assert (Hf : In id (map RSSFeedRow.id (rss_feeds db)))
        by (rewrite <- E; apply H1; now apply in_map).
      apply in_map_iff in Hf as (f & Ef & Hf).
      exists f. split.
      + apply filter_In. split; [exact Hf|]. now apply String.eqb_eq.
      + apply String.eqb_eq. congruence.
    - apply not_true_iff_false. intros Hex.
      apply existsb_exists in Hex as (f & Hf & Ef).
      apply filter_In in Hf as [_ Hf].
      apply String.eqb_eq in Hf, Ef. congruence. }
  assert (Harts : articles db'
                  = List.filter
                      (fun a => negb (String.eqb (ArticleRow.feed_id a) id))
                      (articles db)).
  { subst db'. cbn. apply filter_ext_in. intros a Ha.
    fold gone. fold (a_dead a). now rewrite Hdead. }
  split; [reflexivity|]. split; [exact Harts|]. split; [|split].
  - unfold articles_of. rewrite Harts. apply filter_none.
    intros a Ha. apply filter_In in Ha as [_ Ha].
    now apply negb_true_iff in Ha.
  - intros w. subst db'. cbn. fold gone.
    rewrite filter_In, negb_true_iff.
    split; intros [Hw Hlive]; (split; [exact Hw|]).
    + intros a Ha Eid Efeed.
      apply not_true_iff_false in Hlive. apply Hlive.
      apply existsb_exists. exists a. split.
      * apply filter_In. split; [exact Ha|].
        fold (a_dead a). rewrite Hdead by exact Ha.
        now apply String.eqb_eq.
      * now apply String.eqb_eq.
    + apply not_true_iff_false. intros Hex.
      apply existsb_exists in Hex as (a & Ha & Eid).
      apply filter_In in Ha as [Ha Hd].
      fold (a_dead a) in Hd. rewrite Hdead in Hd by exact Ha.
      apply String.eqb_eq in Hd, Eid. exact (Hlive a Ha Eid Hd).
  - split; reflexivity.
Qed.

Lemma deleteRSSFeed_cascade_sample :
  articles (snd (Database.deleteRSSFeed Cases.desk "feed_cfr")) = []
  /\ workspace_items (snd (Database.deleteRSSFeed Cases.desk "feed_cfr")) = [].
Proof.
  assert (H : references_hold Cases.desk).
  { unfold references_hold. cbn.
    repeat split; intros k Hk; cbn in *; tauto. }
  destruct (deleteRSSFeed_cascade Cases.desk "feed_cfr" H) as (_ & -> & _).
  split; reflexivity.
Defined.

(** ** Articles *)

Lemma In_take {A} (n : nat) (l : list A) (x : A) : In x (take n l) -> In x l.
Proof.
  intros H. rewrite <- (take_drop n l). apply in_or_app. now left.
Qed.

Lemma In_drop {A} (n : nat) (l : list A) (x : A) : In x (drop n l) -> In x l.
Proof.
  intros H. rewrite <- (take_drop n l). apply in_or_app. now right.
Qed.

Lemma StronglySorted_take {A} (R : A -> A -> Prop) (l : list A) :
  StronglySorted R l -> forall n, StronglySorted R (take n l).
Proof.
  induction 1 as [|x l Hs IH Hx]; intros [|n]; cbn; constructor; auto.
  rewrite List.Forall_forall in *. intros y Hy. apply Hx.
  eapply In_take, Hy.
Qed.

Lemma StronglySorted_drop {A} (R : A -> A -> Prop) (l : list A) :
  StronglySorted R l -> forall n, StronglySorted R (drop n l).
Proof.
  induction 1 as [|x l Hs IH Hx]; intros [|n]; cbn; auto; constructor; auto.
Qed.

Lemma truthy_Some (o : option string) (s : string) :
  truthy o = Some s -> o = Some s /\ String.eqb s "" = false.
Proof.
  destruct o as [t|]; cbn; [|discriminate].
  destruct (String.eqb t "") eqn:E; [discriminate|].
  now intros [= <-].
Qed.

(** With a limit alone, the general [getArticles] gives the list of
    the function of the first part. *)
Lemma getArticles_limit (db : D1) (limit : Z) :
  exists total,
    Database.getArticles db
      (ArticleQuery.mk None None (Some limit) None None)
    = Ok (DatabaseService.getArticles db limit, total).
Proof.
  unfold Database.getArticles, DatabaseService.getArticles.
  cbn [ArticleQuery.limit ArticleQuery.offset Database.nonzero].
  assert (Hsel : forall a, Database.selected
                             (ArticleQuery.mk None None (Some limit) None None) a
                           = negb (ArticleRow.is_archived a)).
  { intros a. unfold Database.selected. cbn.
    now rewrite !andb_true_r. }
  rewrite (filter_ext _ _ Hsel). unfold newer_first.
  destruct (limit =? 0); eexists; reflexivity.
Qed.

(** The page of [getArticles], as rows. *)
Lemma getArticles_rows (db : D1) (options : ArticleQuery.t)
    (page : list Article.t) (total : Z) :
  Database.getArticles db options = Ok (page, total) ->
  let chosen := List.filter (Database.selected options) (articles db) in
  total = Z.of_nat (List.length chosen)
  /\ exists rows,
       page = map DatabaseService.mapArticleRow rows
       /\ (forall row, In row rows -> In row chosen)
       /\ StronglySorted (fun x y => newer_first x y = true) rows
       /\ (List.length rows <= List.length chosen)%nat
       /\ (forall l, Database.nonzero (ArticleQuery.limit options) = Some l ->
                     0 <= l -> Z.of_nat (List.length rows) <= l)
       /\ (Database.nonzero (ArticleQuery.limit options) = None ->
           rows = sort_by newer_first chosen).
Proof.
  unfold Database.getArticles.
  set (chosen := List.filter (Database.selected options) (articles db)).
  pose proof (newer_first_sorted chosen) as Hsorted.
  pose proof (sort_by_length newer_first chosen) as Hlen.
  assert (Hsub : forall row, In row (sort_by newer_first chosen) ->
                             In row chosen)
    by (intros row; apply sort_by_In).
  destruct (Database.nonzero (ArticleQuery.limit options)) as [l|].
  - intros [= <- <-]. cbn zeta. split; [reflexivity|].
    set (rest := match Database.nonzero (ArticleQuery.offset options) with
                 | Some o => drop (Z.to_nat o) (sort_by newer_first chosen)
                 | None => sort_by newer_first chosen
                 end).
    assert (Hrest : (forall row, In row rest -> In row chosen)
                    /\ StronglySorted (fun x y => newer_first x y = true) rest
                    /\ (List.length rest <= List.length chosen)%nat).
    { subst rest. destruct (Database.nonzero (ArticleQuery.offset options)).
      - split; [intros row Hrow; eapply Hsub, In_drop, Hrow|].
        split; [now apply StronglySorted_drop|].
        rewrite length_drop. lia.
      - split; [exact Hsub|]. split; [exact Hsorted|]. lia. }
    destruct Hrest as (R1 & R2 & R3).
    exists (if l <? 0 then rest else take (Z.to_nat l) rest).
    split; [reflexivity|].
    destruct (Z.ltb_spec l 0).
    + split; [exact R1|]. split; [exact R2|]. split; [exact R3|].
      split; [intros l' [= <-]; lia|discriminate].
    + split; [intros row Hrow; eapply R1, In_take, Hrow|].
      split; [now apply StronglySorted_take|].
      rewrite length_take. split; [lia|].
      split; [intros l' [= <-] _; lia|discriminate].
  - destruct (Database.nonzero (ArticleQuery.offset options));
      [discriminate|].
    intros [= <- <-]. cbn zeta. split; [reflexivity|].
    exists (sort_by newer_first chosen).
    split; [reflexivity|]. split; [exact Hsub|]. split; [exact Hsorted|].
    split; [lia|]. split; [discriminate|reflexivity].
Qed.

(** X13.  What [getArticles] gives.  [total] counts the rows that the
    filters select, whatever the paging.  Every article of the page is
    stored, is not archived and passes the filters that are set; the
    page is in the order of [published_at], newest first; it has at
    most [total] articles, and at most [limit] of them for a positive
    limit.  A query with an offset and no limit is rejected. *)
Theorem getArticles_page (db : D1) (options : ArticleQuery.t) :
  (forall page total,
     Database.getArticles db options = Ok (page, total) ->
     total = Z.of_nat (List.length
                         (List.filter (Database.selected options) (articles db)))
     /\ Z.of_nat (List.length page) <= total
     /\ (forall l, ArticleQuery.limit options = Some l -> 0 < l ->
                   Z.of_nat (List.length page) <= l)
     /\ StronglySorted
          (fun x y => String.leb (Article.publishedAt y) (Article.publishedAt x)
                      = true) page
     /\ forall a, In a page ->
          (exists row, In row (articles db)
                       /\ a = DatabaseService.mapArticleRow row)
          /\ Article.isArchived a = false
          /\ (forall category,
                truthy (ArticleQuery.category options) = Some category ->
                Article.category a = Some category)
          /\ (ArticleQuery.status options = Some "read" ->
              Article.isRead a = true)
          /\ (ArticleQuery.status options = Some "unread" ->
              Article.isRead a = false)
          /\ (forall feedId,
                truthy (ArticleQuery.feedId options) = Some feedId ->
                Article.feedId a = feedId))
  /\ (Database.nonzero (ArticleQuery.limit options) = None ->
      Database.nonzero (ArticleQuery.offset options) <> None ->
      exists msg, Database.getArticles db options = Throw msg).
Proof.
  split.
  - intros page total E.
    apply getArticles_rows in E
      as (-> & rows & -> & Hin & Hsorted & Hlen & Hlimit & _).
    split; [reflexivity|]. rewrite length_map.
    split; [lia|]. split; [|split].
    + intros l El Hl. apply Hlimit; [|lia].
      rewrite El. cbn. destruct (Z.eqb_spec l 0); [lia|reflexivity].
    + apply StronglySorted_map, Hsorted.
    + intros a Ha. apply in_map_iff in Ha as (row & <- & Hrow).
      apply Hin, filter_In in Hrow as [Hrow Hsel].
      unfold Database.selected in Hsel.
      apply andb_true_iff in Hsel as [Hsel Hfeed].
      apply andb_true_iff in Hsel as [Hsel Hstatus].
      apply andb_true_iff in Hsel as [Harch Hcat].
      apply negb_true_iff in Harch.
      split; [now exists row|]. split; [exact Harch|]. cbn.
      split; [|split; [|split]].
      * intros category Ec. rewrite Ec in Hcat.
        destruct (ArticleRow.category row) as [c0|]; [|discriminate].
        apply String.eqb_eq in Hcat. subst c0. cbn.
        apply truthy_Some in Ec as [_ ->]. reflexivity.
      * intros Es. now rewrite Es in Hstatus.
      * intros Es. rewrite Es in Hstatus. cbn in Hstatus.
        now apply negb_true_iff in Hstatus.
      * intros feedId Ef. rewrite Ef in Hfeed.
        now apply String.eqb_eq in Hfeed.
  - intros Hl Ho. unfold Database.getArticles. rewrite Hl.
    destruct (Database.nonzero (ArticleQuery.offset options));
      [eexists; reflexivity|contradiction].
Qed.

Lemma find_article_map (f : ArticleRow.t -> ArticleRow.t) (id : string)
    (rows : list ArticleRow.t) :
  (forall r, ArticleRow.id (f r) = ArticleRow.id r) ->
  List.find (fun r => String.eqb (ArticleRow.id r) id) (map f rows)
  = option_map f (List.find (fun r => String.eqb (ArticleRow.id r) id) rows).
Proof.
  intros Hid. induction rows as [|r rows IH]; simpl; [reflexivity|].
  rewrite Hid. now destruct (String.eqb (ArticleRow.id r) id).
Qed.

(** What an [updateArticle] that finds the article and has a key to
    set does. *)
Lemma updateArticle_Some (c : Call) (db : D1) (id : string)
    (updates : ArticlePatch.t) (existing : Article.t) :
  DatabaseService.getArticle db id = Some existing ->
  Database.no_article_field updates = false ->
  exists row,
    List.find (fun r => String.eqb (ArticleRow.id r) id) (articles db)
    = Some row
    /\ ArticleRow.id row = id
    /\ Database.updateArticle c db id updates
       = (Some (DatabaseService.mapArticleRow
                  (Database.patch_article c updates row)),
          set_articles db
            (map (fun r => if String.eqb (ArticleRow.id r) id
                           then Database.patch_article c updates r else r)
                 (articles db))).
Proof.
  intros Hget Hfield. unfold Database.updateArticle. rewrite Hget, Hfield.
  unfold DatabaseService.getArticle in *. cbn [articles set_articles].
  rewrite find_article_map
    by (intros r; now destruct (String.eqb (ArticleRow.id r) id)).
  destruct (List.find _ (articles db)) as [row|] eqn:Efind; [|discriminate].
  exists row. split; [reflexivity|].
  pose proof (find_some _ _ Efind) as [_ Eid]. apply String.eqb_eq in Eid.
  split; [exact Eid|]. cbn [option_map]. now rewrite Eid, String.eqb_refl.
Qed.

(** X14.  An archived article leaves the lists and the search.  After
    an update with [isArchived: true], no page of [getArticles] and no
    result of the text search names the article, whatever the filters,
    the paging and the query; [getArticle] still finds it. *)
Theorem archived_article_hidden (c : Call) (db db' : D1) (id : string)
    (updates : ArticlePatch.t) (article : Article.t) :
  ArticlePatch.isArchived updates = Some true ->
  Database.updateArticle c db id updates = (Some article, db') ->
  Article.isArchived article = true
  /\ DatabaseService.getArticle db' id = Some article
  /\ (forall options page total,
        Database.getArticles db' options = Ok (page, total) ->
        ~ In id (map Article.id page))
  /\ (forall query limit,
        ~ In id (map VectorSearchService.articleId
                     (VectorSearchService.text_search db' query limit)))
  /\ (forall P query limit results,
        VectorSearchService.searchSimilarArticles P db' query limit
        = Ok results ->
        ~ In id (map VectorSearchService.articleId results)).
Proof.
  intros Harch E.
  assert (Hfield : Database.no_article_field updates = false).
  { unfold Database.no_article_field. rewrite Harch.
    now destruct (ArticlePatch.isRead updates). }
  destruct (DatabaseService.getArticle db id) as [existing|] eqn:Hget.
  2:{ unfold Database.updateArticle in E. rewrite Hget in E. discriminate. }
  destruct (updateArticle_Some c db id updates existing Hget Hfield)
    as (row & Hfind & Hid & Hupd).
  rewrite Hupd in E. injection E as <- <-.
  assert (Hrows : forall r,
            In r (map (fun r => if String.eqb (ArticleRow.id r) id
                                then Database.patch_article c updates r else r)
                      (articles db)) ->
            ArticleRow.id r = id -> ArticleRow.is_archived r = true).
  { intros r Hr Er. apply in_map_iff in Hr as (r0 & <- & _).
    destruct (String.eqb_spec (ArticleRow.id r0) id) as [E0|E0].
    - cbn. now rewrite Harch.
    - contradiction. }
  assert (Hlist : forall limit,
            ~ In id (map Article.id
                       (DatabaseService.getArticles
                          (set_articles db
                             (map (fun r => if String.eqb (ArticleRow.id r) id
                                            then Database.patch_article c updates r
                                            else r)
                                  (articles db)))
                          limit))).
  { intros limit Hin.
    destruct (getArticles_limit
                (set_articles db
                   (map (fun r => if String.eqb (ArticleRow.id r) id
                                  then Database.patch_article c updates r
                                  else r)
                        (articles db))) limit) as (total & Eq).
    apply getArticles_rows in Eq as (_ & rows & Hpage & Hsub & _).
    rewrite Hpage, map_map in Hin. apply in_map_iff in Hin as (r & Er & Hr).
    apply Hsub, filter_In in Hr as [Hr Hsel]. cbn in Er.
    unfold Database.selected in Hsel.
    rewrite (Hrows r Hr Er) in Hsel. discriminate. }
  split; [cbn; now rewrite Harch|]. split.
  { unfold DatabaseService.getArticle. cbn [articles set_articles].
    rewrite find_article_map
      by (intros r; now destruct (String.eqb (ArticleRow.id r) id)).
    rewrite Hfind. cbn [option_map]. now rewrite Hid, String.eqb_refl. }
  assert (Hsearch : forall query limit,
            ~ In id (map VectorSearchService.articleId
                       (VectorSearchService.text_search
                          (set_articles db
                             (map (fun r => if String.eqb (ArticleRow.id r) id
                                            then Database.patch_article c updates r
                                            else r)
                                  (articles db)))
                          query limit))).
  { intros query limit Hin. apply in_map_iff in Hin as (r & Er & Hr).
    apply (proj1 (proj2 (text_search_spec _ query limit))) in Hr
      as (_ & a & Ha & -> & _).
    apply (Hlist (limit * 3)). apply in_map_iff. exists a. now split. }
  split; [|split; [exact Hsearch|]].
  - intros options page total Eq Hin.
    apply getArticles_rows in Eq as (_ & rows & Hpage & Hsub & _).
    rewrite Hpage, map_map in Hin. apply in_map_iff in Hin as (r & Er & Hr).
    apply Hsub, filter_In in Hr as [Hr Hsel]. cbn in Er.
    unfold Database.selected in Hsel.
    rewrite (Hrows r Hr Er) in Hsel. discriminate.
  - intros P query limit results.
    unfold VectorSearchService.searchSimilarArticles.
    destruct (AIService.generateEmbedding P query); [|discriminate].
    intros [= <-]. apply Hsearch.
Qed.

Lemma archived_article_hidden_sample :
  exists article db',
    Database.updateArticle Sample.call Cases.desk "a1"
      (ArticlePatch.mk None (Some true) None None) = (Some article, db')
    /\ forall query limit,
         ~ In "a1" (map VectorSearchService.articleId
                        (VectorSearchService.text_search db' query limit)).
Proof.
  eexists _, _. split; [reflexivity|].
  refine (proj1 (proj2 (proj2 (proj2
            (archived_article_hidden Sample.call Cases.desk _ "a1"
               (ArticlePatch.mk None (Some true) None None) _
               eq_refl eq_refl))))).
Defined.

(** X15.  A summary is asked of the AI once.  When the summarize
    route has stored a summary that is not empty, every later request
    for the article is answered with that summary as [cached], without
    reading the AI binding and without changing the database. *)
Theorem summarize_once (P : Platform) (c : Call) (db db' : D1) (id : string)
    (s : string) (cached : bool) :
  ArticlesRouter.summarize P c db id
  = (Json 200 (ArticlesRouter.mkSummary s cached), db') ->
  s <> "" ->
  forall P' c',
    ArticlesRouter.summarize P' c' db' id
    = (Json 200 (ArticlesRouter.mkSummary s true), db').
Proof.
  intros E Hs P' c'.
  assert (Htruthy : truthy (Some s) = Some s).
  { cbn. destruct (String.eqb_spec s ""); [contradiction|reflexivity]. }
  unfold ArticlesRouter.summarize in E.
  destruct (DatabaseService.getArticle db id) as [article|] eqn:Hget;
    [|discriminate].
  destruct (truthy (Article.summary article)) as [s0|] eqn:Hsum.
  - injection E as <- <- <-.
    unfold ArticlesRouter.summarize. now rewrite Hget, Hsum.
  - destruct (AIService.summarizeText P db (Article.content article))
      as [s1|msg]; [|discriminate].
    injection E as <- <- <-.
    destruct (updateArticle_Some c db id
                (ArticlePatch.mk None None (Some s1) None) article Hget
                eq_refl) as (row & Hfind & Hid & Hupd).
    rewrite Hupd. cbn [snd].
    unfold ArticlesRouter.summarize, DatabaseService.getArticle.
    cbn [articles set_articles].
    rewrite find_article_map
      by (intros r; now destruct (String.eqb (ArticleRow.id r) id)).
    rewrite Hfind. cbn [option_map]. rewrite Hid, String.eqb_refl.
    cbn [DatabaseService.mapArticleRow Article.summary Database.patch_article
         ArticleRow.summary ArticlePatch.summary].
    rewrite truthy_idem, Htruthy. reflexivity.
Qed.

Lemma summarize_once_sample :
  exists db',
    ArticlesRouter.summarize Cases.analyst Sample.call Cases.desk "a1"
    = (Json 200 (ArticlesRouter.mkSummary "Tariffs stay; talks go on." false),
       db')
    /\ ArticlesRouter.summarize Sample.quiet Sample.call db' "a1"
       = (Json 200 (ArticlesRouter.mkSummary "Tariffs stay; talks go on." true),
          db').
Proof.
  eexists. split; [reflexivity|].
  apply (summarize_once Cases.analyst Sample.call Cases.desk _ "a1"
           "Tariffs stay; talks go on." false eq_refl).
  discriminate.
Defined.

(** ** Numbers as texts *)

Lemma digits_from_acc (d : Decimal.uint) :
  forall acc : positive,
    Text.digits_from (Some (Zpos acc)) (DecimalString.NilEmpty.string_of_uint d)
    = Some (Zpos (Pos.of_uint_acc d acc)).
Proof.
  induction d; intros acc; cbn [DecimalString.NilEmpty.string_of_uint
                                  Text.digits_from Pos.of_uint_acc];
    [reflexivity|..];
    (read_digit;
     match goal with
     | |- Text.digits_from (Some ?z) _ = Some (Zpos (Pos.of_uint_acc _ ?p)) =>
         replace z with (Zpos p) by lia
     end; apply IHd).
Qed.

Lemma digits_from_zero (d : Decimal.uint) :
  Text.digits_from (Some 0) (DecimalString.NilEmpty.string_of_uint d)
  = Some (Z.of_N (Pos.of_uint d)).
Proof.
  induction d; cbn [DecimalString.NilEmpty.string_of_uint Text.digits_from
                    Pos.of_uint]; [reflexivity|..];
    read_digit; [exact IHd|..]; apply digits_from_acc.
Qed.

Lemma digits_from_uint (d : Decimal.uint) :
  d <> Decimal.Nil ->
  Text.digits_from None (DecimalString.NilEmpty.string_of_uint d)
  = Some (Z.of_N (Pos.of_uint d)).
Proof.
  destruct d; intros Hd; [contradiction|..];
    cbn [DecimalString.NilEmpty.string_of_uint Text.digits_from Pos.of_uint];
    read_digit; [apply digits_from_zero|..]; apply digits_from_acc.
Qed.

Lemma parseInt_uint (d : Decimal.uint) :
  d <> Decimal.Nil ->
  Text.parseInt (DecimalString.NilEmpty.string_of_uint d)
  = Some (Z.of_N (Pos.of_uint d)).
Proof.
  intros Hd. rewrite <- (digits_from_uint d Hd).
  destruct d; [contradiction|..]; reflexivity.
Qed.

(** [parseInt] reads back what [toString] wrote. *)
Lemma parseInt_Number_toString (n : Z) :
  Text.parseInt (Number_toString n) = Some n.
Proof.
  unfold Number_toString. destruct n as [|p|p]; [reflexivity| |].
  - cbn [Z.to_int DecimalString.NilZero.string_of_int].
    pose proof (DecimalPos.Unsigned.to_uint_nonnil p) as Hd.
    pose proof (DecimalPos.Unsigned.of_to p) as Hp.
    unfold DecimalString.NilZero.string_of_uint.
    destruct (Pos.to_uint p) eqn:E; [contradiction|..];
      rewrite parseInt_uint, Hp by discriminate; reflexivity.
  - cbn [Z.to_int DecimalString.NilZero.string_of_int].
    pose proof (DecimalPos.Unsigned.to_uint_nonnil p) as Hd.
    pose proof (DecimalPos.Unsigned.of_to p) as Hp.
    unfold DecimalString.NilZero.string_of_uint.
    unfold Text.parseInt. cbn [Text.drop_spaces].
    change (JS.is_space "-") with false. cbn iota.
    destruct (Pos.to_uint p) eqn:E; [contradiction|..];
      rewrite digits_from_uint, Hp by discriminate; reflexivity.
Qed.

(** ** Settings *)

Lemma upserts_frame (us : list (string * string)) :
  forall db,
    let db' := fold_left (fun d kv => SettingsRouter.upsert kv d) us db in
    rss_feeds db' = rss_feeds db /\ articles db' = articles db
    /\ workspace_items db' = workspace_items db /\ reports db' = reports db
    /\ report_items db' = report_items db.
Proof.
  induction us as [|kv us IH]; intros db; cbn [fold_left]; [repeat split|].
  destruct (IH (SettingsRouter.upsert kv db)) as (H1 & H2 & H3 & H4 & H5).
  repeat split; assumption.
Qed.

Lemma upserts_lookup (key : string) (us : list (string * string)) (db : D1) :
  settings (fold_left (fun d kv => SettingsRouter.upsert kv d) us db) !! key
  = match last_update key us with
    | Some v => Some v
    | None => settings db !! key
    end.
Proof.
  unfold last_update.
  induction us as [|[k v] us IH] using rev_ind; [reflexivity|].
  rewrite !fold_left_app. cbn [fold_left fst snd].
  unfold SettingsRouter.upsert at 1. cbn [settings set_settings fst snd].
  destruct (String.eqb_spec k key) as [->|Hk].
  - apply lookup_insert_eq.
  - rewrite lookup_insert_ne by exact Hk. exact IH.
Qed.

Lemma last_update_app (key : string) (us vs : list (string * string)) :
  last_update key (us ++ vs)
  = match last_update key vs with
    | Some v => Some v
    | None => last_update key us
    end.
Proof.
  unfold last_update.
  induction vs as [|[k v] vs IH] using rev_ind.
  - now rewrite app_nil_r.
  - rewrite app_assoc.
    rewrite (fold_left_app _ (us ++ vs) [(k, v)]),
      (fold_left_app _ vs [(k, v)]).
    cbn [fold_left fst snd].
    destruct (String.eqb k key); [reflexivity|exact IH].
Qed.

Lemma last_update_entry {A} (key k : string) (show : A -> string)
    (v : option A) :
  last_update key (SettingsRouter.entry k show v)
  = if String.eqb k key then option_map show v else None.
Proof.
  destruct v as [x|]; cbn; [|now destruct (String.eqb k key)].
  unfold last_update. cbn. reflexivity.
Qed.

(** The value that PATCH /api/settings leaves under three of the
    keys. *)
Lemma updates_max_articles (show : F64.number -> string)
    (body : SettingsRouter.Body) :
  last_update "max_articles_per_feed" (SettingsRouter.updates show body)
  = option_map Number_toString (SettingsRouter.maxArticlesPerFeed body).
Proof.
  unfold SettingsRouter.updates.
  rewrite !last_update_app, !last_update_entry. cbn [String.eqb Ascii.eqb].
  change (String.eqb "max_articles_per_feed" "max_articles_per_feed") with true.
  change (String.eqb "refresh_interval" "max_articles_per_feed") with false.
  cbv iota.
  destruct (SettingsRouter.maxArticlesPerFeed body); [reflexivity|].
  cbn [option_map].
  destruct (SettingsRouter.ai body) as [ai|]; [|reflexivity].
  rewrite !last_update_app, !last_update_entry. reflexivity.
Qed.

Lemma updates_max_tokens (show : F64.number -> string)
    (body : SettingsRouter.Body) :
  last_update "ai_max_tokens" (SettingsRouter.updates show body)
  = match SettingsRouter.ai body with
    | Some ai => option_map Number_toString (SettingsRouter.maxTokens ai)
    | None => None
    end.
Proof.
  unfold SettingsRouter.updates.
  rewrite !last_update_app, !last_update_entry.
  change (String.eqb "max_articles_per_feed" "ai_max_tokens") with false.
  change (String.eqb "refresh_interval" "ai_max_tokens") with false.
  cbv iota.
  destruct (SettingsRouter.ai body) as [ai|]; [|reflexivity].
  rewrite !last_update_app, !last_update_entry.
  change (String.eqb "ai_model" "ai_max_tokens") with false.
  change (String.eqb "ai_api_key" "ai_max_tokens") with false.
  change (String.eqb "ai_temperature" "ai_max_tokens") with false.
  change (String.eqb "ai_max_tokens" "ai_max_tokens") with true.
  cbv iota.
  destruct (SettingsRouter.maxTokens ai); reflexivity.
Qed.

Lemma patch_settings (show : F64.number -> string) (db : D1)
    (body : SettingsRouter.Body) (key : string) :
  settings (snd (SettingsRouter.patch show db body)) !! key
  = match last_update key (SettingsRouter.updates show body) with
    | Some v => Some v
    | None => settings db !! key
    end.
Proof.
  unfold SettingsRouter.patch.
  destruct (SettingsRouter.updates show body) as [|u us] eqn:E;
    [reflexivity|].
  cbn [snd]. apply upserts_lookup.
Qed.

(** X16.  A count that PATCH /api/settings stores is the count that
    the services read.  For integers below [2 ^ 53] in size: after a
    patch with [maxArticlesPerFeed: n] the fetcher reads [n] as its
    retention, and GET /api/settings shows [n]; after a patch with
    [ai.maxTokens: m] the summarizer sends [m];
    a count that the body does not name keeps its value.  The other
    tables are not touched, and a body without any known key is
    answered with 400. *)
Theorem settings_round_trip (show : F64.number -> string) (db : D1)
    (body : SettingsRouter.Body) :
  let reply := fst (SettingsRouter.patch show db body) in
  let db' := snd (SettingsRouter.patch show db body) in
  (forall n, SettingsRouter.maxArticlesPerFeed body = Some n ->
             Z.abs n < 2 ^ 53 ->
             FeedFetcher.getMaxArticlesPerFeed db' = Some n
             /\ (forall P, SettingsRouter.view_maxArticlesPerFeed
                             (SettingsRouter.get P db') = Some n)
             /\ reply = Json 200 true)
  /\ (SettingsRouter.maxArticlesPerFeed body = None ->
      FeedFetcher.getMaxArticlesPerFeed db'
      = FeedFetcher.getMaxArticlesPerFeed db)
  /\ (forall ai m, SettingsRouter.ai body = Some ai ->
                   SettingsRouter.maxTokens ai = Some m ->
                   Z.abs m < 2 ^ 53 ->
                   AIService.getMaxTokens db' = Some m)
  /\ (SettingsRouter.updates show body = [] ->
      status_of reply = 400 /\ db' = db)
  /\ rss_feeds db' = rss_feeds db /\ articles db' = articles db
  /\ workspace_items db' = workspace_items db /\ reports db' = reports db
  /\ report_items db' = report_items db.
Proof.
  cbn zeta.
  pose proof (patch_settings show db body "max_articles_per_feed") as Hmax.
  rewrite updates_max_articles in Hmax.
  pose proof (patch_settings show db body "ai_max_tokens") as Htok.
  rewrite updates_max_tokens in Htok.
  split; [|split; [|split; [|split]]].
  - intros n Hn _. rewrite Hn in Hmax. cbn in Hmax.
    split; [|split].
    + unfold FeedFetcher.getMaxArticlesPerFeed. rewrite Hmax.
      apply parseInt_Number_toString.
    + intros P. unfold SettingsRouter.get. cbn. rewrite Hmax.
      unfold FeedFetcher.or_else.
      pose proof (parseInt_Number_toString n) as Hp.
      destruct (truthy (Some (Number_toString n))) as [s|] eqn:Et.
      * apply truthy_Some in Et as [[= <-] _]. exact Hp.
      * exfalso. cbn in Et.
        destruct (String.eqb_spec (Number_toString n) "") as [E|];
          [|discriminate].
        rewrite E in Hp. discriminate.
    + unfold SettingsRouter.patch, SettingsRouter.updates. rewrite Hn.
      destruct (_ ++ _ ++ SettingsRouter.entry _ _ (Some n))%list eqn:E;
        [|reflexivity].
      exfalso. apply app_eq_nil in E as [_ E].
      apply app_eq_nil in E as [_ E]. discriminate.
  - intros Hn. rewrite Hn in Hmax. cbn in Hmax.
    unfold FeedFetcher.getMaxArticlesPerFeed. now rewrite Hmax.
  - intros ai m Hai Hm _. rewrite Hai, Hm in Htok. cbn in Htok.
    unfold AIService.getMaxTokens. rewrite Htok.
    apply parseInt_Number_toString.
  - intros E. unfold SettingsRouter.patch. now rewrite E.
  - unfold SettingsRouter.patch.
    destruct (SettingsRouter.updates show body) as [|u us];
      [repeat split|].
    cbn [snd]. apply upserts_frame.
Qed.

(** X17.  POST /api/settings/reset restores the built-in behaviour:
    afterwards the summarizer uses the prompt and the token limit, and
    the fetcher the retention, that they use when the settings table
    has no row at all.  The other tables are not touched. *)
Theorem reset_restores_defaults (db : D1) :
  let db' := SettingsRouter.reset db in
  AIService.getSystemPrompt db' = AIService.getSystemPrompt (no_settings db)
  /\ AIService.getMaxTokens db' = AIService.getMaxTokens (no_settings db)
  /\ FeedFetcher.getMaxArticlesPerFeed db'
     = FeedFetcher.getMaxArticlesPerFeed (no_settings db)
  /\ FeedFetcher.getMaxArticlesPerFeed db' = Some 50
  /\ settings db' = list_to_map SettingsRouter.defaultSettings
  /\ rss_feeds db' = rss_feeds db /\ articles db' = articles db
  /\ workspace_items db' = workspace_items db /\ reports db' = reports db
  /\ report_items db' = report_items db.
Proof.
  cbn zeta.
  assert (Hlook : forall key,
            settings (SettingsRouter.reset db) !! key
            = last_update key SettingsRouter.defaultSettings).
  { intros key. unfold SettingsRouter.reset. rewrite upserts_lookup.
    cbn [settings set_settings]. rewrite lookup_empty.
    now destruct (last_update key SettingsRouter.defaultSettings). }
  unfold AIService.getSystemPrompt, AIService.getMaxTokens,
    FeedFetcher.getMaxArticlesPerFeed, no_settings.
  rewrite !Hlook. cbn [settings set_settings]. rewrite !lookup_empty.
  split; [vm_compute; reflexivity|]. split; [vm_compute; reflexivity|].
  split; [vm_compute; reflexivity|]. split; [vm_compute; reflexivity|].
  split.
  - apply map_eq. intros key. rewrite Hlook.
    unfold SettingsRouter.defaultSettings, last_update.
    cbn [list_to_map foldr fold_left fst snd uncurry].
    repeat match goal with
           | |- context [String.eqb ?k key] =>
               destruct (String.eqb_spec k key) as [<-|?]
           end;
      repeat first [rewrite lookup_insert_eq
                   |rewrite lookup_insert_ne by (try assumption; discriminate)];
      try reflexivity.
  - apply (upserts_frame SettingsRouter.defaultSettings (set_settings db ∅)).
Qed.

(** ** The AI connection test *)

(** X18.  [testConnection] never throws.  It reports success exactly
    when the AI binding answers the test request with a [response]
    that is not empty after trimming; the message then quotes at most
    100 characters of the summary.  Otherwise the message names one of
    the two failures. *)
Theorem testConnection_reports (P : Platform) (db : D1) :
  let r := AIConnection.testConnection P db in
  let request :=
    Chat (AIService.getSystemPrompt db)
         (AIService.summary_request AIConnection.testText)
         (AIService.getMaxTokens db) (AIService.getTemperature P db) in
  (AIConnection.success r = true
   <-> exists response,
         AI_run P "@cf/meta/llama-3.1-8b-instruct" request
         = AI_response response
         /\ Text.trim response <> "")
  /\ (AIConnection.success r = true ->
      exists summary,
        AIService.summarizeText P db AIConnection.testText = Ok summary
        /\ AIConnection.message r
           = "AI connection successful. Test summary: " +:+ Text.DQUOTE
             +:+ JS.substring0 100 summary
             +:+ (if JS.length summary >? 100 then "..." else "")
             +:+ Text.DQUOTE
        /\ JS.length (JS.substring0 100 summary) <= 100)
  /\ (AIConnection.success r = false ->
      AIConnection.message r
      = "AI connection failed: AI returned empty response"
      \/ AIConnection.message r
         = "AI connection failed: Failed to generate AI summary").
Proof.
  cbn zeta. unfold AIConnection.testConnection, AIService.summarizeText.
  destruct (AI_run P _ _) as [msg|response|data|] eqn:E.
  2:{ destruct (String.eqb_spec (Text.trim response) "") as [Ht|Ht].
      - cbn. split; [|split].
        + split; [discriminate|]. intros (r' & [= <-] & Hne). contradiction.
        + discriminate.
        + now left.
      - cbn. split; [|split].
        + split; [|reflexivity]. intros _. now exists response.
        + intros _. eexists. split; [reflexivity|]. split; [reflexivity|].
          rewrite JS_substring0_length. lia.
        + discriminate. }
  all: cbn; split; [|split];
    [split; [discriminate|intros (r' & Hr & _); discriminate]
    |discriminate
    |now right].
Qed.

(** ** Quoted fields of the CSV export *)





(** ** A report from the workspace *)

Lemma not_In_map_existsb {A} (f : A -> string) (x : string) (l : list A) :
  ~ In x (map f l) -> existsb (fun r => String.eqb (f r) x) l = false.
Proof. apply existsb_eqb_not_In. Qed.

(** A batch of INSERTs into [report_items] goes through when the new
    ids are free and distinct, no pair of report and workspace item is
    repeated, and the references exist. *)
Lemma batch_inserts_Ok (rows : list ReportItemRow.t) :
  forall d : D1,
    (forall r, In r rows ->
               ~ In (ReportItemRow.id r) (map ReportItemRow.id (report_items d))) ->
    NoDup (map ReportItemRow.id rows) ->
    (forall r e, In r rows -> In e (report_items d) ->
                 ReportItemRow.report_id e = ReportItemRow.report_id r ->
                 ReportItemRow.workspace_item_id e
                 <> ReportItemRow.workspace_item_id r) ->
    NoDup (map ReportItemRow.workspace_item_id rows) ->
    (forall r, In r rows ->
               In (ReportItemRow.report_id r) (map ReportRow.id (reports d))
               /\ In (ReportItemRow.workspace_item_id r)
                     (map WorkspaceItemRow.id (workspace_items d))) ->
    batch (map insert_report_item rows) d
    = Ok (set_report_items d (report_items d ++ rows)%list).
Proof.
  induction rows as [|r rows IH]; intros d Hid Hids Hpair Hws Hfk;
    cbn [map batch].
  - rewrite app_nil_r. now destruct d.
  - inversion Hids as [|? ? Hid1 Hids']; subst.
    inversion Hws as [|? ? Hws1 Hws']; subst.
    rewrite list_elem_of_In in Hid1, Hws1.
    assert (E : insert_report_item r d
                = Ok (set_report_items d (report_items d ++ [r])%list)).
    { unfold insert_report_item.
      rewrite (not_In_map_existsb ReportItemRow.id)
        by (apply Hid; now left).
      destruct (existsb (fun e => String.eqb (ReportItemRow.report_id e)
                                    (ReportItemRow.report_id r)
                                  && String.eqb
                                       (ReportItemRow.workspace_item_id e)
                                       (ReportItemRow.workspace_item_id r))
                        (report_items d)) eqn:Ep.
      { exfalso. apply existsb_exists in Ep as (e & He & Ee).
        apply andb_true_iff in Ee as [E1 E2].
        apply String.eqb_eq in E1, E2.
        exact (Hpair r e (or_introl eq_refl) He E1 E2). }
      destruct (Hfk r (or_introl eq_refl)) as [F1 F2].
      apply existsb_eqb_In in F1, F2. rewrite F1, F2. reflexivity. }
    rewrite E. rewrite IH; auto.
    + cbn. now rewrite <- app_assoc.
    + intros r' Hr'. cbn. rewrite map_app, in_app_iff. cbn.
      intros [Hin|[Heq|[]]].
      * exact (Hid r' (or_intror Hr') Hin).
      * apply Hid1. rewrite Heq. now apply in_map.
    + intros r' e Hr' He Erep Ews. cbn in He.
      apply in_app_iff in He as [He|[<-|[]]].
      * exact (Hpair r' e (or_intror Hr') He Erep Ews).
      * apply Hws1. rewrite Ews. now apply in_map.
    + intros r' Hr'. cbn. apply Hfk. now right.
Qed.

Lemma imap_const_seq {A B} (h : nat -> B) (l : list A) :
  imap (fun i _ => h i) l = map h (seq 0 (List.length l)).
Proof.
  revert h. induction l as [|x l IH]; intros h; [reflexivity|].
  cbn [imap List.length seq map]. f_equal.
  rewrite <- seq_shift, map_map. apply (IH (h ∘ S)).
Qed.

Lemma imap_no_index {A B} (g : A -> B) (l : list A) :
  imap (fun _ x => g x) l = map g l.
Proof.
  induction l as [|x l IH]; [reflexivity|].
  cbn [imap map]. f_equal. exact IH.
Qed.

Lemma map_imap {A B C} (g : B -> C) (f : nat -> A -> B) (l : list A) :
  map g (imap f l) = imap (fun i x => g (f i x)) l.
Proof.
  revert f. induction l as [|x l IH]; intros f; [reflexivity|].
  cbn [imap map]. f_equal. apply (IH (f ∘ S)).
Qed.

(** X20.  A report created from the workspace holds the workspace as
    it is at that moment.  With free ids, and when the keys and the
    references of the database hold, POST /api/reports with
    [copyWorkspace] answers 201 and adds one link for each workspace
    item: the links of the new report name the items in the order of
    the workspace, with [order_index] 0, 1, 2, ...; the links of the
    other reports, the workspace and the articles stay. *)
Theorem report_snapshot (c : Call) (db : D1) (body : ReportsRouter.Body)
    (title : string) :
  truthy (ReportsRouter.title body) = Some title ->
  ReportsRouter.copyWorkspace body = true ->
  (ReportsRouter.status body = None
   \/ ReportsRouter.status body = Some "draft"
   \/ ReportsRouter.status body = Some "published") ->
  ~ In (randomUUID c 0%nat) (map ReportRow.id (reports db)) ->
  NoDup (map (fun i => randomUUID c (S i))
             (seq 0 (List.length (workspace_items db)))) ->
  (forall i, ~ In (randomUUID c (S i)) (map ReportItemRow.id (report_items db))) ->
  references_hold db ->
  NoDup (map WorkspaceItemRow.id (workspace_items db)) ->
  let reportId := randomUUID c 0%nat in
  let reply := fst (ReportsRouter.post c db body) in
  let db' := snd (ReportsRouter.post c db body) in
  status_of reply = 201
  /\ report_items db'
     = (report_items db
        ++ ReportsRouter.link_rows c reportId
             (DatabaseService.getWorkspaceItems db))%list
  /\ map (fun ri => (ReportItemRow.workspace_item_id ri,
                     ReportItemRow.order_index ri))
         (List.filter
            (fun ri => String.eqb (ReportItemRow.report_id ri) reportId)
            (report_items db'))
     = imap (fun index item => (WorkspaceItem.id item, Z.of_nat index))
            (DatabaseService.getWorkspaceItems db)
  /\ List.filter
       (fun ri => negb (String.eqb (ReportItemRow.report_id ri) reportId))
       (report_items db')
     = report_items db
  /\ workspace_items db' = workspace_items db
  /\ articles db' = articles db.
Proof.
  intros Htitle Hcopy Hstatus Hfresh Huids Hnew (R1 & R2 & R3 & R4) Hws
    reportId reply db'.
  set (status := match ReportsRouter.status body with
                 | Some s => s | None => "draft" end).
  assert (Hcheck : negb (String.eqb status "draft"
                         || String.eqb status "published") = false).
  { subst status. destruct Hstatus as [->|[->| ->]]; reflexivity. }
  set (row := ReportRow.mk reportId (Text.trim title)
                (truthy (option_map Text.trim (ReportsRouter.description body)))
                status (now c) (now c)).
  set (db1 := set_reports db (reports db ++ [row])%list).
  set (sorted := sort_by (fun x y => WorkspaceItemRow.order_index x
                                <=? WorkspaceItemRow.order_index y)
                    (workspace_items db)).
  remember (DatabaseService.getWorkspaceItems db1) as items eqn:Eitems0.
  assert (Hitems : items = map DatabaseService.mapWorkspaceItemRow sorted)
    by (subst items; reflexivity).
  remember (ReportsRouter.link_rows c reportId items) as links eqn:Elinks.
  assert (Hlen : List.length sorted = List.length (workspace_items db))
    by apply sort_by_length.
  assert (Hlink_ids : map ReportItemRow.id links
                      = map (fun i => randomUUID c (S i))
                            (seq 0 (List.length (workspace_items db)))).
  { rewrite Elinks. unfold ReportsRouter.link_rows.
    rewrite map_imap. cbn [ReportItemRow.id].
    rewrite (imap_const_seq (fun i => randomUUID c (S i))).
    now rewrite Hitems, length_map, Hlen. }
  assert (Hlink_ws : map ReportItemRow.workspace_item_id links
                     = map WorkspaceItemRow.id sorted).
  { rewrite Elinks. unfold ReportsRouter.link_rows.
    rewrite map_imap. cbn [ReportItemRow.workspace_item_id].
    rewrite imap_no_index, Hitems, map_map. reflexivity. }
  assert (Hlink_rep : forall r, In r links -> ReportItemRow.report_id r = reportId).
  { intros r Hr. rewrite Elinks in Hr. unfold ReportsRouter.link_rows in Hr.
    apply list_elem_of_In, elem_of_lookup_imap in Hr as (i & x & -> & _).
    reflexivity. }
  assert (Hperm : Permutation (map WorkspaceItemRow.id sorted)
                              (map WorkspaceItemRow.id (workspace_items db)))
    by (apply Permutation_map, sort_by_Permutation).
  assert (Hbatch : batch (map insert_report_item links) db1
                   = Ok (set_report_items db1 (report_items db1 ++ links)%list)).
  { apply batch_inserts_Ok.
    - intros r Hr Hin. apply (in_map ReportItemRow.id) in Hr.
      rewrite Hlink_ids in Hr. apply in_map_iff in Hr as (i & Ei & _).
      apply (Hnew i). rewrite Ei. exact Hin.
    - now rewrite Hlink_ids.
    - intros r e Hr He Erep _. rewrite (Hlink_rep r Hr) in Erep.
      apply Hfresh, R3. fold reportId. rewrite <- Erep. now apply in_map.
    - rewrite Hlink_ws, Hperm. exact Hws.
    - intros r Hr. split.
      + rewrite (Hlink_rep r Hr). cbn. rewrite map_app. apply in_or_app.
        right. now left.
      + apply (in_map ReportItemRow.workspace_item_id) in Hr.
        rewrite Hlink_ws in Hr. cbn.
        eapply Permutation_in; [exact Hperm|exact Hr]. }
  assert (Hpost : ReportsRouter.post c db body
                  = (Json 201
                       (ReportsRouter.mkCreated reportId (Text.trim title)
                          (option_map Text.trim (ReportsRouter.description body))
                          status (now c) (now c)),
                     set_report_items db1 (report_items db1 ++ links)%list)).
  { unfold ReportsRouter.post. rewrite Htitle, Hcopy. cbv zeta.
    rewrite (not_In_map_existsb ReportRow.id) by exact Hfresh.
    fold status. rewrite Hcheck. fold reportId. fold row. fold db1.
    rewrite <- Eitems0. clear Eitems0 Hitems.
    destruct items as [|w ws].
    - rewrite Elinks. cbn. rewrite app_nil_r. reflexivity.
    - rewrite <- Elinks. now rewrite Hbatch. }
  subst reply db'. rewrite Hpost. cbn [fst snd status_of].
  split; [reflexivity|].
  split; [rewrite Elinks, Eitems0; reflexivity|].
  assert (Hold : forall e, In e (report_items db) ->
                           String.eqb (ReportItemRow.report_id e) reportId
                           = false).
  { intros e He. apply String.eqb_neq. intros E.
    apply Hfresh, R3. fold reportId. rewrite <- E. now apply in_map. }
  assert (Hnew_rep : forall r, In r links ->
                               String.eqb (ReportItemRow.report_id r) reportId
                               = true).
  { intros r Hr. apply String.eqb_eq. now apply Hlink_rep. }
  cbn [report_items set_report_items db1 set_reports].
  split; [|split; [|split; reflexivity]].
  - rewrite List.filter_app, (filter_none _ _ Hold), (filter_all _ _ Hnew_rep).
    cbn [app]. rewrite Elinks. unfold ReportsRouter.link_rows.
    rewrite map_imap. cbn [ReportItemRow.workspace_item_id
                            ReportItemRow.order_index].
    now rewrite Eitems0.
  - rewrite List.filter_app.
    rewrite (filter_all (fun ri => negb (String.eqb (ReportItemRow.report_id ri)
                                                    reportId))
               (report_items db))
      by (intros e He; now rewrite (Hold e He)).
    rewrite (filter_none (fun ri => negb (String.eqb (ReportItemRow.report_id ri)
                                                     reportId)) links)
      by (intros r Hr; now rewrite (Hnew_rep r Hr)).
    apply app_nil_r.
Qed.

Lemma report_snapshot_sample :
  map (fun ri => (ReportItemRow.workspace_item_id ri,
                  ReportItemRow.order_index ri))
      (List.filter
         (fun ri => String.eqb (ReportItemRow.report_id ri) "uuid-")
         (report_items
            (snd (ReportsRouter.post Sample.call Cases.desk
                    (ReportsRouter.mkBody (Some "Weekly") None None true)))))
  = [("w1", 0); ("w2", 1)].
Proof.
  assert (Hnot : forall (x : string) (l : list string), l = [] -> ~ In x l)
    by (intros x l ->; exact (fun H => H)).
  destruct (report_snapshot Sample.call Cases.desk
              (ReportsRouter.mkBody (Some "Weekly") None None true) "Weekly"
              eq_refl eq_refl (or_introl eq_refl))
    as (_ & _ & H & _);
    [| | | | |exact H].
  - now apply Hnot.
  - repeat constructor; rewrite list_elem_of_In; cbn; intuition discriminate.
  - intros i. now apply Hnot.
  - unfold references_hold. cbn.
    repeat split; intros k Hk; cbn in *; tauto.
  - repeat constructor; rewrite list_elem_of_In; cbn; intuition discriminate.
Defined.

(** ** The range of the scores *)

Lemma SFcompare_antisym (x y : spec_float) :
  SFcompare y x = option_map CompOpp (SFcompare x y).
Proof.
  destruct x as [sx|sx| |sx mx ex], y as [sy|sy| |sy my ey]; cbn;
    try destruct sx; try destruct sy; try reflexivity;
    pose proof (Pos.compare_cont_antisym mx my Eq) as Hc;
    cbn [CompOpp] in Hc;
    rewrite (Z.compare_antisym ex ey); destruct (ex ?= ey); cbn;
    try reflexivity; rewrite <- Hc; try reflexivity.
Qed.

Lemma SFltb_irrefl (x : spec_float) : SFltb x x = false.
Proof.
  unfold SFltb. pose proof (SFcompare_antisym x x) as H.
  destruct (SFcompare x x) as [[]|]; try reflexivity. discriminate.
Qed.

(** [Math.min(x, y)] is not above [y]. *)
Lemma Math_min_not_above (x y : spec_float) :
  SFltb y (F64.Math_min x y) = false.
Proof.
  unfold F64.Math_min. pose proof (SFcompare_antisym x y) as H.
  destruct (SFcompare x y) as [[]|] eqn:E; cbn in H.
  - destruct x as [[]| | |]; try apply SFltb_irrefl.
    unfold SFltb. now rewrite H.
  - unfold SFltb. now rewrite H.
  - apply SFltb_irrefl.
  - now destruct y.
Qed.

Lemma nan_or_nonneg_not_below (x : spec_float) :
  nan_or_nonneg x -> SFltb x F64.zero = false.
Proof.
  intros [->|H]; [reflexivity|].
  destruct x as [[]|[]| |[] m e]; try contradiction; reflexivity.
Qed.

(** X21.  A score is never below 0 and never above 1.0, by the
    comparisons of JavaScript; and every result of the text search has
    a score above 0 and not above 1.0. *)
Theorem score_in_range (query : string) (article : Article.t) :
  let s := VectorSearchService.calculateTextSimilarity query article in
  F64.lt s F64.zero = false
  /\ F64.gt s F64.c1_0 = false
  /\ (forall db limit r,
        In r (VectorSearchService.text_search db query limit) ->
        F64.gt (VectorSearchService.score r) F64.zero = true
        /\ F64.gt (VectorSearchService.score r) F64.c1_0 = false).
Proof.
  cbn zeta. split; [|split].
  - apply nan_or_nonneg_not_below, calculateTextSimilarity_nan_or_nonneg.
  - apply Math_min_not_above.
  - intros db limit r Hr.
    apply (proj1 (proj2 (text_search_spec db query limit))) in Hr
      as (Hpos & a & _ & -> & _).
    split; [exact Hpos|]. apply Math_min_not_above.
Qed.

(** ** Similar articles *)

Lemma getArticles_stored (db : D1) (limit : Z) (a : Article.t) :
  In a (DatabaseService.getArticles db limit) ->
  exists row, In row (articles db)
              /\ ArticleRow.is_archived row = false
              /\ a = DatabaseService.mapArticleRow row.
Proof.
  intros Ha. destruct (getArticles_limit db limit) as (total & E).
  apply getArticles_rows in E as (_ & rows & Hpage & Hsub & _).
  rewrite Hpage in Ha. apply in_map_iff in Ha as (row & <- & Hrow).
  apply Hsub, filter_In in Hrow as [Hrow Hsel].
  exists row. split; [exact Hrow|]. split; [|reflexivity].
  unfold Database.selected in Hsel.
  destruct (ArticleRow.is_archived row); [discriminate|reflexivity].
Qed.

(** X22.  [findSimilarArticles] never lists the article it starts
    from.  Its results are results of the text search for the title
    and the snippet of that article, so each names a stored article
    that is not archived and has a score above 0; with a limit that is
    not negative there are at most [limit] of them. *)
Theorem findSimilarArticles_others (P : Platform) (db : D1)
    (articleId : string) (limit : Z)
    (results : list VectorSearchService.SearchResult) :
  VectorSearchService.findSimilarArticles P db articleId limit = Ok results ->
  ~ In articleId (map VectorSearchService.articleId results)
  /\ (0 <= limit -> Z.of_nat (List.length results) <= limit)
  /\ exists article,
       DatabaseService.getArticle db articleId = Some article
       /\ forall r, In r results ->
            In r (VectorSearchService.text_search db
                    (Article.title article +:+ " " +:+ Article.snippet article)
                    (limit + 1))
            /\ F64.gt (VectorSearchService.score r) F64.zero = true
            /\ exists row,
                 In row (articles db)
                 /\ ArticleRow.is_archived row = false
                 /\ ArticleRow.id row = VectorSearchService.articleId r
                 /\ ArticleRow.id row <> articleId.
Proof.
  unfold VectorSearchService.findSimilarArticles.
  destruct (DatabaseService.getArticle db articleId) as [article|];
    [|discriminate].
  unfold VectorSearchService.searchSimilarArticles.
  destruct (AIService.generateEmbedding P _) as [embedding|];
    [|discriminate].
  intros [= <-].
  set (found := VectorSearchService.text_search db _ (limit + 1)).
  assert (Hsub : forall r,
            In r (JS.slice0 limit
                    (List.filter
                       (fun r => negb (String.eqb
                                         (VectorSearchService.articleId r)
                                         articleId)) found)) ->
            In r found
            /\ VectorSearchService.articleId r <> articleId).
  { intros r Hr. apply slice0_In, filter_In in Hr as [Hr Hne].
    split; [exact Hr|]. now apply negb_true_iff, String.eqb_neq in Hne. }
  split; [|split].
  - intros Hin. apply in_map_iff in Hin as (r & Er & Hr).
    now apply Hsub in Hr as [_ Hne].
  - apply slice0_length.
  - exists article. split; [reflexivity|].
    intros r Hr. apply Hsub in Hr as [Hr Hne].
    split; [exact Hr|].
    apply (proj1 (proj2 (text_search_spec db _ (limit + 1)))) in Hr
      as (Hpos & art & Ha & -> & _).
    split; [exact Hpos|].
    apply getArticles_stored in Ha as (row & Hrow & Harch & ->).
    exists row. repeat split; auto.
Qed.

Lemma findSimilarArticles_others_sample :
  exists results,
    VectorSearchService.findSimilarArticles Cases.embedder Cases.desk "a1" 5
    = Ok results
    /\ ~ In "a1" (map VectorSearchService.articleId results).
Proof.
  eexists. split; [vm_compute; reflexivity|].
  apply (findSimilarArticles_others Cases.embedder Cases.desk "a1" 5).
  vm_compute. reflexivity.
Defined.

(** ** Cleaned texts *)

Lemma collapse_spaces_single (x : string) :
  forall in_run,
    single_spaces (Text.collapse_spaces in_run x) = true
    /\ (in_run = true ->
        starts_space (Text.collapse_spaces in_run x) = false).
Proof.
  induction x as [|c r IH]; intros in_run; cbn [Text.collapse_spaces].
  - split; [reflexivity|]. reflexivity.
  - destruct (JS.is_space c) eqn:Ec.
    + destruct in_run.
      * apply IH.
      * destruct (IH true) as [H1 H2]. split; [|discriminate].
        cbn [single_spaces starts_space].
        change (JS.is_space " ") with true. cbn iota.
        rewrite H1, (H2 eq_refl). reflexivity.
    + destruct (IH false) as [H1 _]. split.
      * cbn [single_spaces]. now rewrite Ec, H1.
      * intros _. cbn [starts_space]. exact Ec.
Qed.

Lemma single_spaces_tail (c : ascii) (r : string) :
  single_spaces (String c r) = true -> single_spaces r = true.
Proof. cbn. intros H. now apply andb_true_iff in H as [_ H]. Qed.

Lemma single_spaces_next (c : ascii) (r : string) :
  single_spaces (String c r) = true -> JS.is_space c = true ->
  starts_space r = false.
Proof.
  cbn. intros H Hc. rewrite Hc in H.
  apply andb_true_iff in H as [H _]. apply andb_true_iff in H as [_ H].
  now apply negb_true_iff in H.
Qed.

Lemma drop_spaces_single (s : string) :
  single_spaces s = true ->
  single_spaces (Text.drop_spaces s) = true
  /\ starts_space (Text.drop_spaces s) = false.
Proof.
  induction s as [|c r IH]; intros H; cbn [Text.drop_spaces];
    [now split|].
  destruct (JS.is_space c) eqn:Ec.
  - apply IH. eapply single_spaces_tail, H.
  - split; [exact H|]. exact Ec.
Qed.

Lemma ends_space_cons (c : ascii) (r : string) :
  ends_space (String c r)
  = match r with EmptyString => JS.is_space c | _ => ends_space r end.
Proof. destruct r; reflexivity. Qed.

Lemma drop_spaces_ends (s : string) :
  ends_space (Text.drop_spaces s) = true -> ends_space s = true.
Proof.
  induction s as [|c r IH]; cbn [Text.drop_spaces]; [discriminate|].
  destruct (JS.is_space c) eqn:Ec; [|auto].
  intros H. rewrite ends_space_cons. destruct r as [|d r]; [exact Ec|].
  now apply IH.
Qed.

Lemma rev_onto_single (s : string) :
  forall acc,
    single_spaces s = true -> single_spaces acc = true ->
    (starts_space s = true -> starts_space acc = false) ->
    single_spaces (Text.rev_onto s acc) = true.
Proof.
  induction s as [|c r IH]; intros acc Hs Hacc Hj; cbn [Text.rev_onto];
    [exact Hacc|].
  apply IH.
  - eapply single_spaces_tail, Hs.
  - cbn [single_spaces]. rewrite Hacc, andb_true_r.
    destruct (JS.is_space c) eqn:Ec; [|reflexivity].
    cbn [starts_space] in Hj. rewrite (Hj Ec), andb_true_r.
    cbn in Hs. rewrite Ec in Hs.
    apply andb_true_iff in Hs as [Hs _]. now apply andb_true_iff in Hs as [Hs _].
  - intros Hr. cbn [starts_space].
    destruct (JS.is_space c) eqn:Ec; [|reflexivity].
    now rewrite (single_spaces_next c r Hs Ec) in Hr.
Qed.

Lemma rev_onto_starts (s : string) :
  forall acc,
    starts_space (Text.rev_onto s acc)
    = match s with EmptyString => starts_space acc | _ => ends_space s end.
Proof.
  induction s as [|c r IH]; intros acc; cbn [Text.rev_onto]; [reflexivity|].
  rewrite IH, ends_space_cons. now destruct r.
Qed.

Lemma rev_onto_ends (s : string) :
  forall acc,
    ends_space (Text.rev_onto s acc)
    = match acc with EmptyString => starts_space s | _ => ends_space acc end.
Proof.
  induction s as [|c r IH]; intros acc; cbn [Text.rev_onto].
  - now destruct acc.
  - rewrite IH, ends_space_cons. now destruct acc.
Qed.

Lemma trim_tidy (s : string) :
  single_spaces s = true -> tidy (Text.trim s) = true.
Proof.
  intros Hs. unfold Text.trim, Text.rev.
  destruct (drop_spaces_single s Hs) as [H1 S1].
  set (y1 := Text.drop_spaces s) in *.
  assert (H2 : single_spaces (Text.rev_onto y1 EmptyString) = true)
    by (apply rev_onto_single; auto).
  assert (E2 : ends_space (Text.rev_onto y1 EmptyString) = false)
    by (rewrite rev_onto_ends; exact S1).
  set (y2 := Text.rev_onto y1 EmptyString) in *.
  destruct (drop_spaces_single y2 H2) as [H3 S3].
  assert (E3 : ends_space (Text.drop_spaces y2) = false).
  { destruct (ends_space (Text.drop_spaces y2)) eqn:E; [|reflexivity].
    apply drop_spaces_ends in E. congruence. }
  set (y3 := Text.drop_spaces y2) in *.
  unfold tidy. rewrite rev_onto_ends, S3.
  rewrite rev_onto_starts, rev_onto_single by auto.
  destruct y3; [reflexivity|]. now rewrite E3.
Qed.

(** X23.  A cleaned text is tidy: [cleanText] gives a text without
    white space at either end, in which white space occurs only as a
    single SPACE between two other characters.  So is every title and
    every content that the fetcher stores. *)
Theorem cleanText_tidy (text : string) :
  tidy (FeedFetcher.cleanText text) = true
  /\ (forall item, tidy (FeedFetcher.extractContent item) = true)
  /\ (forall P c feed item row,
        stored_for P c feed item row ->
        tidy (ArticleRow.title row) = true
        /\ tidy (ArticleRow.content row) = true).
Proof.
  assert (H : forall t, tidy (FeedFetcher.cleanText t) = true).
  { intros t. unfold FeedFetcher.cleanText. apply trim_tidy.
    apply collapse_spaces_single. }
  split; [apply H|]. split.
  - intros item. unfold FeedFetcher.extractContent. apply H.
  - intros P c feed item row (_ & (title & _ & ->) & -> & _).
    split; [apply H|]. unfold FeedFetcher.extractContent. apply H.
Qed.

(** ** The cascade of the trim *)

Lemma delete_articles_rows (dead : ArticleRow.t -> bool) (db : D1) :
  let db' := delete_articles dead db in
  (forall a, In a (articles db') <-> In a (articles db) /\ dead a = false)
  /\ (forall w,
        In w (workspace_items db')
        <-> In w (workspace_items db)
            /\ forall a, In a (articles db) ->
                         ArticleRow.id a = WorkspaceItemRow.article_id w ->
                         dead a = false)
  /\ (forall ri,
        In ri (report_items db')
        <-> In ri (report_items db)
            /\ forall w, In w (workspace_items db) ->
                         WorkspaceItemRow.id w
                         = ReportItemRow.workspace_item_id ri ->
                         In w (workspace_items db')).
Proof.
  cbn zeta.
  assert (Hw : forall w,
            In w (workspace_items (delete_articles dead db))
            <-> In w (workspace_items db)
                /\ forall a, In a (articles db) ->
                             ArticleRow.id a = WorkspaceItemRow.article_id w ->
                             dead a = false).
  { intros w. cbn. rewrite filter_In, negb_true_iff.
    split; intros [Hin Hlive]; (split; [exact Hin|]).
    - intros a Ha Eid. destruct (dead a) eqn:Ed; [|reflexivity].
      exfalso. apply not_true_iff_false in Hlive. apply Hlive.
      apply existsb_exists. exists a. split.
      + apply filter_In. now split.
      + now apply String.eqb_eq.
    - apply not_true_iff_false. intros Hex.
      apply existsb_exists in Hex as (a & Ha & Eid).
      apply filter_In in Ha as [Ha Hd]. apply String.eqb_eq in Eid.
      rewrite (Hlive a Ha Eid) in Hd. discriminate. }
  split; [|split; [exact Hw|]].
  - intros a. cbn. rewrite filter_In, negb_true_iff. reflexivity.
  - intros ri. cbn [delete_articles report_items].
    rewrite filter_In, negb_true_iff.
    split; intros [Hin Hlive]; (split; [exact Hin|]).
    + intros w Hwin Eid.
      destruct (existsb (fun a => String.eqb (ArticleRow.id a)
                                    (WorkspaceItemRow.article_id w))
                        (List.filter dead (articles db))) eqn:Ed.
      * exfalso. apply not_true_iff_false in Hlive. apply Hlive.
        apply existsb_exists. exists w. split.
        -- apply filter_In. now split.
        -- now apply String.eqb_eq.
      * cbn. apply filter_In. split; [exact Hwin|]. now rewrite Ed.
    + apply not_true_iff_false. intros Hex.
      apply existsb_exists in Hex as (w & Hwg & Eid).
      apply filter_In in Hwg as [Hwin Hd]. apply String.eqb_eq in Eid.
      specialize (Hlive w Hwin Eid). cbn in Hlive.
      apply filter_In in Hlive as [_ Hlive]. rewrite Hd in Hlive.
      discriminate.
Qed.

Lemma delete_articles_none (dead : ArticleRow.t -> bool) (db : D1) :
  (forall a, In a (articles db) -> dead a = false) ->
  delete_articles dead db = db.
Proof.
  intros H. unfold delete_articles.
  rewrite (filter_none dead (articles db) H). cbn [existsb].
  rewrite (filter_all (fun a => negb (dead a)))
    by (intros a Ha; now rewrite (H a Ha)).
  rewrite (filter_none (fun _ => false)) by reflexivity.
  cbn [existsb negb].
  rewrite !(filter_all (fun _ => true)) by reflexivity. now destruct db.
Qed.

(** A trim under a negative retention, or under one that the feed
    does not exceed, deletes nothing. *)
Lemma trim_rows_kept (db : D1) (feedId : string) (n : Z) :
  n < 0 \/ Z.of_nat (List.length (articles_of db feedId)) <= n ->
  FeedFetcher.cleanupOldArticles db feedId (Some n) = db.
Proof.
  intros Hn. cbn [FeedFetcher.cleanupOldArticles].
  apply delete_articles_none.
  intros a Hain.
  destruct (String.eqb (ArticleRow.feed_id a) feedId) eqn:Ef;
    [|reflexivity].
  cbn [andb]. apply negb_false_iff. apply existsb_id_In.
  unfold FeedFetcher.kept_ids. apply in_map.
  assert (Hrow : In a (sort_by newer_first (articles_of db feedId))).
  { apply sort_by_In. apply filter_In. now split. }
  unfold newer_first, articles_of in Hrow.
  destruct (Z.ltb_spec n 0) as [Hneg|Hpos]; [exact Hrow|].
  destruct Hn as [Hn|Hn]; [lia|].
  rewrite take_ge; [exact Hrow|].
  rewrite sort_by_length. unfold articles_of in Hn. lia.
Qed.

(** X24.  The trim takes workspace items along.  After
    [cleanupOldArticles] a workspace item is left exactly when no
    article that it names was deleted, and a report item exactly when
    no workspace item that it names was deleted; feeds, reports and
    settings stay.  The trim deletes nothing when the retention is NaN
    or negative, or when the feed has no more articles than the
    retention allows. *)
Theorem trim_cascade (db : D1) (feedId : string) (maxArticles : option Z) :
  let db' := FeedFetcher.cleanupOldArticles db feedId maxArticles in
  (forall w,
     In w (workspace_items db')
     <-> In w (workspace_items db)
         /\ forall a, In a (articles db) ->
                      ArticleRow.id a = WorkspaceItemRow.article_id w ->
                      In a (articles db'))
  /\ (forall ri,
        In ri (report_items db')
        <-> In ri (report_items db)
            /\ forall w, In w (workspace_items db) ->
                         WorkspaceItemRow.id w
                         = ReportItemRow.workspace_item_id ri ->
                         In w (workspace_items db'))
  /\ rss_feeds db' = rss_feeds db /\ reports db' = reports db
  /\ settings db' = settings db
  /\ (maxArticles = None -> db' = db)
  /\ (forall n, maxArticles = Some n ->
                n < 0 \/ Z.of_nat (List.length (articles_of db feedId)) <= n ->
                db' = db).
Proof.
  cbn zeta. destruct maxArticles as [n|]; cbn [FeedFetcher.cleanupOldArticles].
  2:{ repeat match goal with |- _ /\ _ => split end; try reflexivity.
      - intros w. split; [intros H; split; [exact H|auto]|now intros [H _]].
      - intros ri. split; [intros H; split; [exact H|auto]|now intros [H _]]. }
  set (dead := fun a : ArticleRow.t =>
                 String.eqb (ArticleRow.feed_id a) feedId
                 && negb (existsb (String.eqb (ArticleRow.id a))
                                  (FeedFetcher.kept_ids db feedId n))).
  destruct (delete_articles_rows dead db) as (Ha & Hw & Hri).
  split; [|split; [exact Hri|]].
  - intros w. rewrite Hw. split; intros [Hin H]; (split; [exact Hin|]).
    + intros a Hain Eid. apply Ha. split; [exact Hain|]. now apply H.
    + intros a Hain Eid. now apply (proj1 (Ha a)), H.
  - split; [reflexivity|]. split; [reflexivity|]. split; [reflexivity|].
    split; [discriminate|].
    intros n' [= <-] Hn. apply delete_articles_none.
    intros a Hain. subst dead. cbn beta.
    destruct (String.eqb (ArticleRow.feed_id a) feedId) eqn:Ef;
      [|reflexivity].
    cbn [andb]. apply negb_false_iff. apply existsb_id_In.
    unfold FeedFetcher.kept_ids. apply in_map.
    assert (Hrow : In a (sort_by newer_first (articles_of db feedId))).
    { apply sort_by_In. apply filter_In. now split. }
    unfold newer_first, articles_of in Hrow.
    destruct (Z.ltb_spec n 0) as [Hneg|Hpos]; [exact Hrow|].
    destruct Hn as [Hn|Hn]; [lia|].
    rewrite take_ge; [exact Hrow|].
    rewrite sort_by_length. unfold articles_of in Hn. lia.
Qed.

Lemma trim_cascade_sample :
  workspace_items
    (FeedFetcher.cleanupOldArticles Cases.desk "feed_cfr" (Some 1))
  = [Sample.item "w2" "a2" 1 None None]
  /\ FeedFetcher.cleanupOldArticles Cases.desk "feed_cfr" (Some (-1))
     = Cases.desk.
Proof.
  split; [reflexivity|].
  refine (proj2 (proj2 (proj2 (proj2 (proj2 (proj2
            (trim_cascade Cases.desk "feed_cfr" (Some (-1)))))))) (-1)
            eq_refl _).
  left. lia.
Defined.

(** ** Updating an article *)

(** X25.  [updateArticle] is a partial update.  For a stored article
    and a patch with at least one of the four keys, the rows with that
    id get the supplied flags and texts and keep every other field,
    and the other rows and tables stay as they are.  The article that
    is returned shows the new values; a summary or an analysis that is
    set to the empty text reads back as absent.  Without a key the
    stored article is returned and nothing is written; for an unknown
    id the result is [null]. *)
Theorem updateArticle_partial (c : Call) (db : D1) (id : string)
    (updates : ArticlePatch.t) :
  (DatabaseService.getArticle db id = None ->
   Database.updateArticle c db id updates = (None, db))
  /\ (forall existing,
        DatabaseService.getArticle db id = Some existing ->
        Database.no_article_field updates = true ->
        Database.updateArticle c db id updates = (Some existing, db))
  /\ (forall existing,
        DatabaseService.getArticle db id = Some existing ->
        Database.no_article_field updates = false ->
        exists article db',
          Database.updateArticle c db id updates = (Some article, db')
          /\ List.Forall2
               (fun r r' =>
                  if String.eqb (ArticleRow.id r) id then
                    article_kept r r'
                    /\ ArticleRow.is_read r'
                       = supplied_flag (ArticlePatch.isRead updates)
                                       (ArticleRow.is_read r)
                    /\ ArticleRow.is_archived r'
                       = supplied_flag (ArticlePatch.isArchived updates)
                                       (ArticleRow.is_archived r)
                    /\ ArticleRow.summary r'
                       = supplied (ArticlePatch.summary updates)
                                  (ArticleRow.summary r)
                    /\ ArticleRow.analysis r'
                       = supplied (ArticlePatch.analysis updates)
                                  (ArticleRow.analysis r)
                    /\ ArticleRow.updated_at r' = datetime_now c
                  else r' = r)
               (articles db) (articles db')
          /\ rss_feeds db' = rss_feeds db
          /\ workspace_items db' = workspace_items db
          /\ reports db' = reports db /\ report_items db' = report_items db
          /\ settings db' = settings db
          /\ Article.id article = id
          /\ Article.isRead article
             = supplied_flag (ArticlePatch.isRead updates)
                             (Article.isRead existing)
          /\ Article.isArchived article
             = supplied_flag (ArticlePatch.isArchived updates)
                             (Article.isArchived existing)
          /\ Article.summary article
             = match ArticlePatch.summary updates with
               | Some v => truthy (Some v)
               | None => Article.summary existing
               end
          /\ Article.analysis article
             = match ArticlePatch.analysis updates with
               | Some v => truthy (Some v)
               | None => Article.analysis existing
               end
          /\ Article.title article = Article.title existing
          /\ Article.content article = Article.content existing
          /\ Article.url article = Article.url existing).
Proof.
  split; [|split].
  - intros H. unfold Database.updateArticle. now rewrite H.
  - intros existing H Hno. unfold Database.updateArticle. now rewrite H, Hno.
  - intros existing Hget Hfield.
    destruct (updateArticle_Some c db id updates existing Hget Hfield)
      as (row & Hfind & Hid & Hupd).
    unfold DatabaseService.getArticle in Hget. rewrite Hfind in Hget.
    injection Hget as <-.
    eexists _, _. split; [exact Hupd|].
    split.
    + cbn [articles set_articles]. clear.
      induction (articles db) as [|r rows IH]; cbn [map];
        constructor; [|exact IH].
      destruct (String.eqb (ArticleRow.id r) id); [|reflexivity].
      unfold article_kept, supplied_flag, supplied. cbn.
      repeat split.
    + cbn. unfold supplied_flag.
      repeat split; try reflexivity; try exact Hid;
        destruct (ArticlePatch.summary updates),
          (ArticlePatch.analysis updates); reflexivity.
Qed.

(** ** Degenerate retentions *)

(** X26.  What a fetch does under a retention that is not a positive
    number.  With a setting that does not parse (NaN) the fetch reads
    no entry and trims nothing: it reports success with no article
    added, and only stamps the feed.  With a retention of 0 it reads no
    entry and deletes every article of the feed, and leaves the
    articles of the other feeds.  With a negative retention it trims
    nothing. *)
Theorem degenerate_retention (P : Platform) (c : Call) (db : D1)
    (feedId : string) (feed : RSSFeed.t) (items : list RSSItem.t) :
  DatabaseService.getRSSFeed db feedId = Some feed ->
  RSSFeed.isActive feed = true ->
  parseURL P (RSSFeed.url feed) = Ok items ->
  let r := fst (FeedFetcher.fetchFeed P c db feedId) in
  let db' := snd (FeedFetcher.fetchFeed P c db feedId) in
  (FeedFetcher.getMaxArticlesPerFeed db = None ->
   r = FeedFetcher.mkFetchResult true 0 None
   /\ db' = snd (DatabaseService.updateRSSFeed c db feedId (now c)))
  /\ (FeedFetcher.getMaxArticlesPerFeed db = Some 0 ->
      r = FeedFetcher.mkFetchResult true 0 None
      /\ articles_of db' feedId = []
      /\ forall other, other <> feedId ->
                       articles_of db' other = articles_of db other)
  /\ (forall n, FeedFetcher.getMaxArticlesPerFeed db = Some n -> n < 0 ->
        db' = snd (DatabaseService.updateRSSFeed c
                     (fst (fst (FeedFetcher.ingest P c feed
                                  (JS.slice0 n items) db)))
                     feedId (now c))).
Proof.
  intros Hfeed Hactive Hparse r db'. subst r db'.
  unfold FeedFetcher.fetchFeed. rewrite Hfeed, Hactive, Hparse.
  split; [|split].
  - intros ->. cbn. split; reflexivity.
  - intros ->. cbn [FeedFetcher.recent].
    change (JS.slice0 0 items) with (@nil RSSItem.t).
    cbn [FeedFetcher.ingest fold_left fst snd].
    split; [reflexivity|].
    pose proof (updateRSSFeed_frame c db feedId (now c)) as (U1 & _).
    split.
    + rewrite cleanup_articles_of. apply filter_none. reflexivity.
    + intros other Hother. rewrite cleanup_other_feeds by exact Hother.
      unfold articles_of. now rewrite U1.
  - intros n -> Hn. cbn [FeedFetcher.recent].
    destruct (FeedFetcher.ingest P c feed (JS.slice0 n items) db)
      as [[db1 added] k].
    cbn [fst snd].
    apply trim_rows_kept. now left.
Qed.

Lemma degenerate_retention_sample :
  let db := set_settings (Sample.db true)
                         {[ "max_articles_per_feed" := "0" ]} in
  articles_of (snd (FeedFetcher.fetchFeed Cases.one_entry Sample.call db
                      "feed_cfr")) "feed_cfr" = [].
Proof.
  intros db.
  destruct (degenerate_retention Cases.one_entry Sample.call db "feed_cfr"
              (DatabaseService.mapRSSFeedRow (Sample.feed true))
              [Cases.entry] eq_refl eq_refl eq_refl) as (_ & H & _).
  exact (proj1 (proj2 (H eq_refl))).
Defined.

(** ** What the DELETE handlers answer *)

(** X27.  The answers of the DELETE handlers do not tell what was
    deleted.  DELETE /api/feeds/:id answers 404 [Feed not found] for
    every id, also when it deleted the feed: afterwards no feed has the
    id, and the database differs from the one before when a feed had
    it.  DELETE /api/reports/:id answers 200 for every id, also for an
    unknown one, which changes nothing; afterwards no report has the
    id. *)
Theorem delete_replies (db : D1) (id : string) :
  fst (FeedsRouter.delete db id) = Failure 404 "Feed not found" None
  /\ fst (Database.deleteRSSFeed db id) = false
  /\ ~ In id (map RSSFeedRow.id (rss_feeds (snd (FeedsRouter.delete db id))))
  /\ (In id (map RSSFeedRow.id (rss_feeds db)) ->
      snd (FeedsRouter.delete db id) <> db)
  /\ fst (ReportsRouter.delete db id) = Json 200 true
  /\ ~ In id (map ReportRow.id (reports (snd (ReportsRouter.delete db id))))
  /\ (~ In id (map ReportRow.id (reports db)) ->
      snd (ReportsRouter.delete db id) = db).
Proof.
  assert (Hfeeds : ~ In id (map RSSFeedRow.id
                              (rss_feeds (snd (FeedsRouter.delete db id))))).
  { cbn. intros Hin. apply in_map_iff in Hin as (r & Er & Hr).
    apply filter_In in Hr as [_ Hr]. apply negb_true_iff in Hr.
    apply String.eqb_neq in Hr. contradiction. }
  repeat match goal with |- _ /\ _ => split end; try reflexivity.
  - exact Hfeeds.
  - intros Hin E. apply Hfeeds. now rewrite E.
  - cbn. intros Hin. apply in_map_iff in Hin as (r & Er & Hr).
    apply filter_In in Hr as [_ Hr]. apply negb_true_iff in Hr.
    apply String.eqb_neq in Hr. contradiction.
  - intros Hno. cbn [ReportsRouter.delete D1Result.changes D1Result.is_zero
                     snd].
    unfold delete_reports.
    assert (Hall : forall r, In r (reports db) ->
                             String.eqb (ReportRow.id r) id = false).
    { intros r Hr. apply String.eqb_neq. intros E. apply Hno.
      rewrite <- E. now apply in_map. }
    rewrite (filter_none _ _ Hall).
    rewrite filter_all by (intros r Hr; now rewrite (Hall r Hr)).
    rewrite filter_all by reflexivity. now destruct db.
Qed.
